(** * Authorization, session and configuration core of the reporting app

    A shallow embedding of [user_context.py], [auth_middleware.py],
    [permissions_service.py] and [config_service.py], followed by the
    properties of the specification that were checked against it.

    Conventions of the embedding.
    - Python [str] is [string]; the text is taken to be ASCII, so that
      [str.upper] only moves the letters a-z.
    - [datetime] values are integers counting microseconds, a [timedelta]
      is a difference of two of them; every reading of [datetime.utcnow()]
      is an explicit argument of the function that performs it.
    - A Python function that can raise returns a [Result]; code that
      mutates an object threads the object through the monad [M].
    - The Databricks workspace client, the SQL warehouse and the identity
      endpoint are oracles.  An oracle sees the history of all earlier
      events, so its answers may change from one call to the next. *)

From Stdlib Require Import String Ascii ZArith List Bool Lia.
From stdpp Require Import base gmap strings list.

Open Scope string_scope.
Open Scope Z_scope.
Open Scope list_scope.

(** ** Python prelude *)

(** Exceptions deriving from [Exception]; these are what [except Exception]
    catches. *)
Inductive exn : Type :=
| Exception (msg : string)
| KeyError (key : string)
| ValueError (msg : string)
| TypeError (msg : string)
| AttributeError (msg : string)
| AuthenticationError (detail : string).

Inductive Result (A : Type) : Type :=
| Ok (a : A)
| Raise (e : exn).
Arguments Ok {A} a.
Arguments Raise {A} e.

(** State and exception monad: a raised exception keeps the mutations made
    before it, as in Python. *)
Definition M (S A : Type) : Type := S -> Result A * S.

Definition ret {S A} (a : A) : M S A := fun s => (Ok a, s).

Definition raise {S A} (e : exn) : M S A := fun s => (Raise e, s).

Definition bind {S A B} (m : M S A) (k : A -> M S B) : M S B :=
  fun s => match m s with
           | (Ok a, s') => k a s'
           | (Raise e, s') => (Raise e, s')
           end.

Definition try_except {S A} (body : M S A) (handler : exn -> M S A) : M S A :=
  fun s => match body s with
           | (Ok a, s') => (Ok a, s')
           | (Raise e, s') => handler e s'
           end.

Definition get_state {S} : M S S := fun s => (Ok s, s).

Definition modify {S} (f : S -> S) : M S unit := fun s => (Ok tt, f s).

Definition lift_result {S A} (r : Result A) : M S A := fun s => (r, s).

Notation "'do' x <- c1 ; c2" := (bind c1 (fun x => c2))
  (at level 10, x name, c1 at level 100, c2 at level 200).
Notation "'exec' c1 ; c2" := (bind c1 (fun _ => c2))
  (at level 10, c1 at level 100, c2 at level 200).

(** Scalar values of a [Dict[str, Any]]: [None], [bool], [int], [str]. *)
Inductive PyVal : Type :=
| PyNone
| PyBool (b : bool)
| PyInt (z : Z)
| PyStr (s : string).

(** Truth value of a scalar, as tested by [if v:]. *)
Definition py_truthy (v : PyVal) : bool :=
  match v with
  | PyNone => false
  | PyBool b => b
  | PyInt z => negb (z =? 0)
  | PyStr s => negb (String.eqb s "")
  end.

Definition digit_of (n : nat) : ascii := ascii_of_nat (48 + n).

(** Decimal digits of a positive number, most significant first. *)
Fixpoint digits_fuel (fuel : nat) (n : nat) (acc : string) : string :=
  match fuel with
  | O => acc
  | S f =>
      let acc' := String (digit_of (n mod 10)) acc in
      if (n / 10 =? 0)%nat then acc' else digits_fuel f (n / 10)%nat acc'
  end.

Definition str_nat (n : nat) : string := digits_fuel (S n) n "".

Definition str_int (z : Z) : string :=
  if z <? 0 then "-" +:+ str_nat (Z.to_nat (- z)) else str_nat (Z.to_nat z).

(** [str(v)]. *)
Definition py_str (v : PyVal) : string :=
  match v with
  | PyNone => "None"
  | PyBool true => "True"
  | PyBool false => "False"
  | PyInt z => str_int z
  | PyStr s => s
  end.

(** [str.upper] and [str.lower] on ASCII text.  A string is a sequence of
    bytes; the two maps change the 26 letters of ASCII and no other byte.
    Python's methods also map letters outside ASCII, some of them into
    ASCII, so the maps are those of the code on text whose characters are
    all below 128. *)
Definition upper_ascii (c : ascii) : ascii :=
  let n := nat_of_ascii c in
  if ((97 <=? n) && (n <=? 122))%nat then ascii_of_nat (n - 32) else c.

Definition lower_ascii (c : ascii) : ascii :=
  let n := nat_of_ascii c in
  if ((65 <=? n) && (n <=? 90))%nat then ascii_of_nat (n + 32) else c.

Fixpoint upper (s : string) : string :=
  match s with
  | EmptyString => EmptyString
  | String c s' => String (upper_ascii c) (upper s')
  end.

Fixpoint lower (s : string) : string :=
  match s with
  | EmptyString => EmptyString
  | String c s' => String (lower_ascii c) (lower s')
  end.

(** [sub in s]. *)
Fixpoint contains (sub s : string) : bool :=
  String.prefix sub s ||
  match s with
  | EmptyString => false
  | String _ s' => contains sub s'
  end.

(** [s.replace(old, new)] for a non-empty [old]: scan from the left, and at
    each occurrence emit [new] and skip the rest of the occurrence. *)
Fixpoint replace_from (old new : string) (skip : nat) (s : string) : string :=
  match s with
  | EmptyString => EmptyString
  | String c s' =>
      match skip with
      | S k => replace_from old new k s'
      | O =>
          if String.prefix old s
          then new +:+ replace_from old new (String.length old - 1) s'
          else String c (replace_from old new 0 s')
      end
  end.

(** With an empty [old], Python puts [new] before every character and at
    the end. *)
Fixpoint replace_empty (new s : string) : string :=
  match s with
  | EmptyString => new
  | String c s' => new +:+ String c (replace_empty new s')
  end.

Definition replace (old new s : string) : string :=
  match old with
  | EmptyString => replace_empty new s
  | String _ _ => replace_from old new 0 s
  end.

(** A [for] loop whose body may raise: the first exception ends the loop. *)
Fixpoint for_each {S A} (items : list A) (body : A -> M S unit) : M S unit :=
  match items with
  | [] => ret tt
  | x :: rest => exec body x ; for_each rest body
  end.

(** ** The Databricks SDK boundary *)

Inductive SecurableType : Type := CATALOG | SCHEMA | TABLE.

(** Requests sent to the workspace. *)
Inductive Call : Type :=
| CatalogsGet (name : string)
| GrantsGetEffective (securable_type : SecurableType) (full_name principal : string)
| CatalogsList
| SchemasList (catalog_name : string)
| CurrentUserMe (token : string)
| ExecuteStatement (statement : string).

Inductive Level : Type := DEBUG | INFO | WARNING | ERROR.

(** What an observer of the process sees: the requests, each with the
    exception it raised if any, and the log records (level and the
    exception being reported; the message text is not modelled). *)
Inductive Event : Type :=
| Called (c : Call) (raised : option exn)
| Logged (level : Level) (cause : option exn).

(** Most recent event first. *)
Definition History : Type := list Event.

(** One entry of [privilege_assignments]; [privilege] is the string read
    by [grant.privilege.value], [None] when that read raises. *)
Record PrivilegeAssignment : Type := { privilege : option string }.

Record EffectivePermissions : Type :=
  { privilege_assignments : option (list PrivilegeAssignment) }.

(** The iterator returned by a [list()] request: the names it yields and
    the exception that ends it, if any. *)
Record Listing : Type := { yielded : list string; failure : option exn }.

(** The answer of [current_user.me()]; a group whose [display] is [None]
    is [None]. *)
Record CurrentUser : Type :=
  { user_name : option string;
    emails : list string;
    cu_id : string;
    cu_groups : list (option string) }.

Inductive StatementState : Type := PENDING | RUNNING | SUCCEEDED | FAILED | CANCELED | CLOSED.

(** A value of a metadata column. *)
Inductive Cell : Type :=
| CScalar (v : PyVal)
| CStrings (l : list string)
| CDicts (l : list (gmap string PyVal))
| CDict (d : gmap string PyVal).

Record StatementResponse : Type :=
  { status_state : StatementState;
    data_array : option (list (list Cell));
    manifest_columns : option (list string) }.

Record WorkspaceClient : Type :=
  { catalogs_get : History -> string -> Result unit;
    grants_get_effective :
      History -> SecurableType -> string -> string -> Result EffectivePermissions;
    catalogs_list : History -> Listing;
    schemas_list : History -> string -> Listing;
    current_user_me : History -> Result CurrentUser;
    execute_statement : History -> string -> Result StatementResponse }.

(** States that carry the history of events. *)
Class Recorder (S : Type) : Type :=
  { past : S -> History;
    record : Event -> S -> S }.

Definition raised_by {A} (r : Result A) : option exn :=
  match r with
  | Ok _ => None
  | Raise e => Some e
  end.

(** Send a request: the oracle answers from the history so far, and the
    request is appended to the history. *)
Definition call {S A} `{Recorder S} (c : Call) (answer : History -> Result A) : M S A :=
  fun s => let r := answer (past s) in (r, record (Called c (raised_by r)) s).

(** A [list()] request: it is recorded when it is sent, together with the
    exception that will end the iteration over its answer. *)
Definition call_listing {S} `{Recorder S} (c : Call) (answer : History -> Listing) : M S Listing :=
  fun s => let l := answer (past s) in (Ok l, record (Called c (failure l)) s).

Definition log {S} `{Recorder S} (level : Level) (cause : option exn) : M S unit :=
  modify (record (Logged level cause)).

(** Run the body on every yielded name, then raise the iterator's failure. *)
Definition iterate {S} (l : Listing) (body : string -> M S unit) : M S unit :=
  exec for_each (yielded l) body ;
  match failure l with
  | Some e => raise e
  | None => ret tt
  end.

(** ** user_context.py *)

Module UserContextPy.

Inductive AccessLevel : Type := NONE | READ | WRITE | ADMIN.

Record DataAccessScope : Type :=
  { accessible_catalogs : gset string;
    accessible_schemas : gset string;
    accessible_tables : gset string;
    row_level_filters : gmap string string;
    restricted_columns : gmap string (gset string);
    access_levels : gmap string AccessLevel }.

(** [DataAccessScope()]: every field from its [default_factory]. *)
Definition new_scope : DataAccessScope :=
  {| accessible_catalogs := ∅;
     accessible_schemas := ∅;
     accessible_tables := ∅;
     row_level_filters := ∅;
     restricted_columns := ∅;
     access_levels := ∅ |}.

Definition add_catalog (name : string) (sc : DataAccessScope) : DataAccessScope :=
  {| accessible_catalogs := accessible_catalogs sc ∪ {[ name ]};
     accessible_schemas := accessible_schemas sc;
     accessible_tables := accessible_tables sc;
     row_level_filters := row_level_filters sc;
     restricted_columns := restricted_columns sc;
     access_levels := access_levels sc |}.

Definition add_schema (name : string) (sc : DataAccessScope) : DataAccessScope :=
  {| accessible_catalogs := accessible_catalogs sc;
     accessible_schemas := accessible_schemas sc ∪ {[ name ]};
     accessible_tables := accessible_tables sc;
     row_level_filters := row_level_filters sc;
     restricted_columns := restricted_columns sc;
     access_levels := access_levels sc |}.

Definition add_table (name : string) (sc : DataAccessScope) : DataAccessScope :=
  {| accessible_catalogs := accessible_catalogs sc;
     accessible_schemas := accessible_schemas sc;
     accessible_tables := accessible_tables sc ∪ {[ name ]};
     row_level_filters := row_level_filters sc;
     restricted_columns := restricted_columns sc;
     access_levels := access_levels sc |}.

Definition can_access_catalog (sc : DataAccessScope) (catalog : string) : bool :=
  bool_decide (catalog ∈ accessible_catalogs sc) ||
  bool_decide ("*" ∈ accessible_catalogs sc).

Definition can_access_schema (sc : DataAccessScope) (catalog schema : string) : bool :=
  let full_name := catalog +:+ "." +:+ schema in
  bool_decide (full_name ∈ accessible_schemas sc) ||
  bool_decide (catalog +:+ ".*" ∈ accessible_schemas sc) ||
  bool_decide ("*.*" ∈ accessible_schemas sc).

Definition can_access_table (sc : DataAccessScope) (catalog schema table : string) : bool :=
  let full_name := catalog +:+ "." +:+ schema +:+ "." +:+ table in
  bool_decide (full_name ∈ accessible_tables sc) ||
  bool_decide (catalog +:+ "." +:+ schema +:+ ".*" ∈ accessible_tables sc) ||
  bool_decide (catalog +:+ ".*.*" ∈ accessible_tables sc) ||
  bool_decide ("*.*.*" ∈ accessible_tables sc).

Definition get_row_filter (sc : DataAccessScope) (table : string) : option string :=
  row_level_filters sc !! table.

Definition get_restricted_columns (sc : DataAccessScope) (table : string) : gset string :=
  default ∅ (restricted_columns sc !! table).

Definition get_access_level (sc : DataAccessScope) (resource : string) : AccessLevel :=
  default NONE (access_levels sc !! resource).

End UserContextPy.

(** ** auth_middleware.py *)

Module AuthMiddleware.

Record UserContext : Type :=
  { email : string;
    user_id : string;
    groups : list string;
    is_admin : bool;
    workspace_client : option WorkspaceClient;
    authenticated_at : Z }.

(** [timedelta(minutes=m)] in microseconds. *)
Definition minutes (m : Z) : Z := m * 60000000.

Definition has_group (u : UserContext) (group_name : string) : bool :=
  bool_decide (group_name ∈ groups u).

Definition is_session_valid (now : Z) (u : UserContext) (max_age_minutes : Z) : bool :=
  let age := now - authenticated_at u in
  age <? minutes max_age_minutes.

(** [str(e)]; an [AuthenticationError] is an [HTTPException] with status 401. *)
Definition str_exn (e : exn) : string :=
  match e with
  | Exception msg => msg
  | KeyError key => "'" +:+ key +:+ "'"
  | ValueError msg => msg
  | TypeError msg => msg
  | AttributeError msg => msg
  | AuthenticationError detail => "401: " +:+ detail
  end.

(** What the process is started with: [os.environ] and the constructor
    [WorkspaceClient(config=Config(host=..., token=...))]. *)
Record Platform : Type :=
  { environ : gmap string string;
    connect : string -> string -> Result WorkspaceClient }.

(** The session cache is a module-level dictionary; [request_user] is
    [request.state.user] of the request being served. *)
Record State : Type :=
  { session_cache : gmap string (UserContext * Z);
    request_user : option UserContext;
    events : History }.

#[export] Instance State_recorder : Recorder State :=
  {| past := events;
     record := fun ev st =>
       {| session_cache := session_cache st;
          request_user := request_user st;
          events := ev :: events st |} |}.

Definition set_session_cache (c : gmap string (UserContext * Z)) (st : State) : State :=
  {| session_cache := c; request_user := request_user st; events := events st |}.

Definition set_request_user (u : UserContext) (st : State) : State :=
  {| session_cache := session_cache st; request_user := Some u; events := events st |}.

Definition cache_ttl_minutes : Z := 5.

Definition nonempty (s : string) : bool := negb (String.eqb s "").

Definition get_workspace_client_for_user (pf : Platform) (token : string)
  : Result WorkspaceClient :=
  let host :=
    match environ pf !! "DATABRICKS_HOST" with
    | Some h => if nonempty h then Some h else None
    | None => None
    end in
  let host :=
    match host with
    | Some h => Some h
    | None =>
        match environ pf !! "DATABRICKS_SERVER_HOSTNAME" with
        | Some h =>
            if nonempty h && negb (String.prefix "https://" h)
            then Some ("https://" +:+ h)
            else Some h
        | None => None
        end
    end in
  match host with
  | Some h =>
      if nonempty h then connect pf h token
      else Raise (AuthenticationError "Databricks host not configured")
  | None => Raise (AuthenticationError "Databricks host not configured")
  end.

(** [[g.lower() for g in groups]]: a [None] display name has no [lower]. *)
Fixpoint lower_all (gs : list (option string)) : Result (list string) :=
  match gs with
  | [] => Ok []
  | None :: _ => Raise (AttributeError "'NoneType' object has no attribute 'lower'")
  | Some g :: rest =>
      match lower_all rest with
      | Ok ls => Ok (lower g :: ls)
      | Raise e => Raise e
      end
  end.

Definition admin_groups : list string := ["admins"; "account admins"; "workspace admins"].

Definition extract_user_from_token (pf : Platform) (now : Z) (token : string)
  : M State UserContext :=
  try_except
    (do client <- lift_result (get_workspace_client_for_user pf token) ;
     do current_user <- call (CurrentUserMe token) (current_user_me client) ;
     let email :=
       match emails current_user with
       | [] => "unknown"
       | first :: _ =>
           match user_name current_user with
           | Some n => if nonempty n then n else first
           | None => first
           end
       end in
     let user_id := cu_id current_user in
     do lowered <- lift_result (lower_all (cu_groups current_user)) ;
     let groups := omap (fun g => g) (cu_groups current_user) in
     let is_admin := existsb (fun group => bool_decide (group ∈ admin_groups)) lowered in
     exec log INFO None ;
     ret {| email := email;
            user_id := user_id;
            groups := groups;
            is_admin := is_admin;
            workspace_client := Some client;
            authenticated_at := now |})
    (fun e =>
       exec log ERROR (Some e) ;
       raise (AuthenticationError ("Invalid or expired token: " +:+ str_exn e))).

(** The synthetic identity of development mode. *)
Definition dev_user (pf : Platform) (now : Z) : UserContext :=
  {| email := default "dev@example.com" (environ pf !! "DEV_USER_EMAIL");
     user_id := "dev-user-id";
     groups := ["users"; "admins"];
     is_admin := true;
     workspace_client := None;
     authenticated_at := now |}.

Definition dev_mode (pf : Platform) : bool :=
  match environ pf !! "DEV_MODE" with
  | Some v => String.eqb v "true"
  | None => false
  end.

(** [t_auth] is the clock when the [UserContext] is built, [t_valid] when
    its age is checked. *)
Definition get_user_context (pf : Platform) (t_auth t_valid : Z)
    (credentials : option string) : M State UserContext :=
  match credentials with
  | None =>
      if dev_mode pf
      then exec log WARNING None ; ret (dev_user pf t_auth)
      else raise (AuthenticationError "Missing authentication token")
  | Some token =>
      do user_context <- extract_user_from_token pf t_auth token ;
      if negb (is_session_valid t_valid user_context 60)
      then raise (AuthenticationError "Session expired, please re-authenticate")
      else
        exec modify (set_request_user user_context) ;
        ret user_context
  end.

Definition cache_user_session (now : Z) (token : string) (user : UserContext)
  : M State unit :=
  modify (fun st => set_session_cache (<[token := (user, now)]> (session_cache st)) st).

Definition get_cached_session (now : Z) (token : string) : M State (option UserContext) :=
  do st <- get_state ;
  match session_cache st !! token with
  | None => ret None
  | Some (user, cached_at) =>
      let age := now - cached_at in
      if age <? minutes cache_ttl_minutes
      then ret (Some user)
      else
        exec modify (fun st => set_session_cache (delete token (session_cache st)) st) ;
        ret None
  end.

(** [t_check] is the clock read by [get_cached_session], [t_auth] the one
    read when a [UserContext] is built, [t_store] the one read by
    [cache_user_session]. *)
Definition get_user_context_cached (pf : Platform) (t_check t_auth t_store : Z)
    (credentials : option string) : M State UserContext :=
  match credentials with
  | None =>
      if dev_mode pf
      then ret (dev_user pf t_auth)
      else raise (AuthenticationError "Missing authentication token")
  | Some token =>
      do cached_user <- get_cached_session t_check token ;
      match cached_user with
      | Some user =>
          exec modify (set_request_user user) ;
          ret user
      | None =>
          do user_context <- extract_user_from_token pf t_auth token ;
          exec cache_user_session t_store token user_context ;
          exec modify (set_request_user user_context) ;
          ret user_context
      end
  end.

End AuthMiddleware.

(** ** permissions_service.py *)

Module PermissionsService.

Import UserContextPy AuthMiddleware.

(** [self._permission_cache] maps a user's email to that user's decisions,
    themselves keyed by the string ["email:resource:privilege"]. *)
Record State : Type :=
  { permission_cache : gmap string (gmap string bool);
    events : History }.

#[export] Instance State_recorder : Recorder State :=
  {| past := events;
     record := fun ev st =>
       {| permission_cache := permission_cache st; events := ev :: events st |} |}.

Definition set_permission_cache (c : gmap string (gmap string bool)) (st : State) : State :=
  {| permission_cache := c; events := events st |}.

(** [self._permission_cache.get(email, {})]. *)
Definition decisions_of (st : State) (email : string) : gmap string bool :=
  default ∅ (permission_cache st !! email).

(** The two statements that store a decision. *)
Definition remember (email cache_key : string) (has_access : bool) : M State unit :=
  modify (fun st =>
    let c := permission_cache st in
    let c := match c !! email with
             | None => <[email := ∅]> c
             | Some _ => c
             end in
    set_permission_cache (<[email := <[cache_key := has_access]> (default ∅ (c !! email))]> c) st).

(** [any(grant.privilege.value == required_privilege for grant in grants)],
    evaluated from the left and stopping at the first match. *)
Fixpoint any_privilege (required_privilege : string) (grants : list PrivilegeAssignment)
  : Result bool :=
  match grants with
  | [] => Ok false
  | grant :: rest =>
      match privilege grant with
      | None => Raise (AttributeError "'NoneType' object has no attribute 'value'")
      | Some value =>
          if String.eqb value required_privilege then Ok true
          else any_privilege required_privilege rest
      end
  end.

Definition check_catalog_access (user_context : UserContext)
    (catalog_name required_privilege : string) : M State bool :=
  if is_admin user_context then ret true
  else
    let cache_key :=
      email user_context +:+ ":" +:+ catalog_name +:+ ":" +:+ required_privilege in
    do st <- get_state ;
    match decisions_of st (email user_context) !! cache_key with
    | Some decision => ret decision
    | None =>
        try_except
          (match workspace_client user_context with
           | Some client =>
               do catalog <- call (CatalogsGet catalog_name)
                               (fun h => catalogs_get client h catalog_name) ;
               do grants <- call (GrantsGetEffective CATALOG catalog_name (email user_context))
                              (fun h => grants_get_effective client h CATALOG catalog_name
                                          (email user_context)) ;
               do has_access <- lift_result
                    (any_privilege required_privilege
                       (default [] (privilege_assignments grants))) ;
               exec remember (email user_context) cache_key has_access ;
               ret has_access
           | None => ret false
           end)
          (fun e => exec log WARNING (Some e) ; ret false)
    end.

Definition check_schema_access (user_context : UserContext)
    (catalog_name schema_name required_privilege : string) : M State bool :=
  if is_admin user_context then ret true
  else
    do catalog_ok <- check_catalog_access user_context catalog_name "USAGE" ;
    if negb catalog_ok then ret false
    else
      let full_name := catalog_name +:+ "." +:+ schema_name in
      let cache_key :=
        email user_context +:+ ":" +:+ full_name +:+ ":" +:+ required_privilege in
      do st <- get_state ;
      match decisions_of st (email user_context) !! cache_key with
      | Some decision => ret decision
      | None =>
          try_except
            (match workspace_client user_context with
             | Some client =>
                 do grants <- call (GrantsGetEffective SCHEMA full_name (email user_context))
                                (fun h => grants_get_effective client h SCHEMA full_name
                                            (email user_context)) ;
                 do has_access <- lift_result
                      (any_privilege required_privilege
                         (default [] (privilege_assignments grants))) ;
                 exec remember (email user_context) cache_key has_access ;
                 ret has_access
             | None => ret false
             end)
            (fun e => exec log WARNING (Some e) ; ret false)
      end.

Definition check_table_access (user_context : UserContext)
    (catalog_name schema_name table_name required_privilege : string) : M State bool :=
  if is_admin user_context then ret true
  else
    do schema_ok <- check_schema_access user_context catalog_name schema_name "USAGE" ;
    if negb schema_ok then ret false
    else
      let full_name := catalog_name +:+ "." +:+ schema_name +:+ "." +:+ table_name in
      let cache_key :=
        email user_context +:+ ":" +:+ full_name +:+ ":" +:+ required_privilege in
      do st <- get_state ;
      match decisions_of st (email user_context) !! cache_key with
      | Some decision => ret decision
      | None =>
          try_except
            (match workspace_client user_context with
             | Some client =>
                 do grants <- call (GrantsGetEffective TABLE full_name (email user_context))
                                (fun h => grants_get_effective client h TABLE full_name
                                            (email user_context)) ;
                 do has_access <- lift_result
                      (any_privilege required_privilege
                         (default [] (privilege_assignments grants))) ;
                 exec remember (email user_context) cache_key has_access ;
                 ret has_access
             | None => ret false
             end)
            (fun e => exec log WARNING (Some e) ; ret false)
      end.

(** While a scope is being built the service and the scope object are both
    being mutated. *)
Definition Building : Type := (State * DataAccessScope)%type.

#[export] Instance Building_recorder : Recorder Building :=
  {| past := fun b => events (fst b);
     record := fun ev b => (record ev (fst b), snd b) |}.

Definition on_service {A} (m : M State A) : M Building A :=
  fun b => match m (fst b) with
           | (r, st') => (r, (st', snd b))
           end.

Definition on_scope (f : DataAccessScope -> DataAccessScope) : M Building unit :=
  modify (fun b => (fst b, f (snd b))).

Definition get_user_data_scope (user_context : UserContext) : M State DataAccessScope :=
  fun st =>
    let scope := new_scope in
    if is_admin user_context then
      (Ok (add_table "*.*.*" (add_schema "*.*" (add_catalog "*" scope))), st)
    else
      let building :=
        try_except
          (match workspace_client user_context with
           | None => ret tt
           | Some client =>
               try_except
                 (do catalogs <- call_listing CatalogsList (catalogs_list client) ;
                  iterate catalogs (fun catalog =>
                    do ok <- on_service (check_catalog_access user_context catalog "USAGE") ;
                    if ok then
                      exec on_scope (add_catalog catalog) ;
                      try_except
                        (do schemas <- call_listing (SchemasList catalog)
                                         (fun h => schemas_list client h catalog) ;
                         iterate schemas (fun schema =>
                           do ok <- on_service
                                      (check_schema_access user_context catalog schema "USAGE") ;
                           if ok then on_scope (add_schema (catalog +:+ "." +:+ schema))
                           else ret tt))
                        (fun e => log DEBUG (Some e))
                    else ret tt))
                 (fun e => log WARNING (Some e))
           end)
          (fun e => log ERROR (Some e)) in
      match building (st, scope) with
      | (Ok _, (st', scope')) => (Ok scope', st')
      | (Raise e, (st', _)) => (Raise e, st')
      end.

(** [not table_filters]: no dictionary, or an empty one. *)
Definition no_filters (table_filters : option (gmap string string)) : bool :=
  match table_filters with
  | None => true
  | Some d => bool_decide (d = ∅)
  end.

Definition inject_row_level_security (sql : string) (user_context : UserContext)
    (table_filters : option (gmap string string)) : string :=
  if is_admin user_context then sql
  else if no_filters table_filters then
    if contains "WHERE" (upper sql)
    then replace "WHERE"
           ("WHERE current_user() = '" +:+ email user_context +:+ "' AND") sql
    else sql
  else sql.

(** [if user_email:] is false for [None] and for the empty string. *)
Definition clear_cache (user_email : option string) : M State unit :=
  modify (fun st =>
    match user_email with
    | Some e =>
        if negb (String.eqb e "")
        then set_permission_cache (delete e (permission_cache st)) st
        else set_permission_cache ∅ st
    | None => set_permission_cache ∅ st
    end).

End PermissionsService.

(** ** config_service.py *)

Module ConfigService.

Definition minutes (m : Z) : Z := m * 60000000.

(** The dataclasses do not check their field types, so a field holds
    whatever the row held. *)
Record QueryConfig : Type :=
  { id : Cell;
    name : Cell;
    description : Cell;
    category : Cell;
    sql_template : Cell;
    parameters : Cell;
    output_schema : Cell;
    required_permissions : Cell;
    allow_drill_down : Cell;
    drill_down_query_id : Cell;
    cache_ttl_seconds : Cell;
    tags : Cell;
    is_active : Cell }.

Record FilterConfig : Type :=
  { f_id : Cell;
    f_filter_name : Cell;
    f_label : Cell;
    f_filter_type : Cell;
    f_data_type : Cell;
    f_data_source : Cell;
    f_static_options : Cell;
    f_options_query : Cell;
    f_default_value : Cell;
    f_applies_to_tabs : Cell;
    f_applies_to_queries : Cell;
    f_filter_expression_template : Cell;
    f_display_order : Cell;
    f_is_required : Cell;
    f_is_active : Cell }.

Record VisualizationConfig : Type :=
  { v_id : Cell;
    v_viz_name : Cell;
    v_viz_type : Cell;
    v_query_id : Cell;
    v_data_key : Cell;
    v_x_axis_field : Cell;
    v_y_axis_field : Cell;
    v_color_scheme : Cell;
    v_title : Cell;
    v_subtitle : Cell;
    v_allow_drill_down : Cell;
    v_drill_down_config : Cell;
    v_chart_options : Cell;
    v_default_for_tab : Cell;
    v_display_order : Cell;
    v_is_active : Cell }.

(** What the cache holds and what the read-through methods return. *)
Inductive Cached : Type :=
| CachedQuery (config : QueryConfig)
| CachedQueries (configs : list QueryConfig)
| CachedFilters (configs : list FilterConfig)
| CachedViz (configs : list VisualizationConfig).

(** [if cached:] -- an object is true, a list is true when it is not empty. *)
Definition cached_truthy (c : Cached) : bool :=
  match c with
  | CachedQuery _ => true
  | CachedQueries l => negb (bool_decide (l = []))
  | CachedFilters l => negb (bool_decide (l = []))
  | CachedViz l => negb (bool_decide (l = []))
  end.

Definition Row : Type := gmap string Cell.

Record State : Type :=
  { client : WorkspaceClient;
    config_catalog : string;
    config_schema : string;
    warehouse_id : option string;
    cache : gmap string (Cached * Z);
    events : History }.

#[export] Instance State_recorder : Recorder State :=
  {| past := events;
     record := fun ev st =>
       {| client := client st;
          config_catalog := config_catalog st;
          config_schema := config_schema st;
          warehouse_id := warehouse_id st;
          cache := cache st;
          events := ev :: events st |} |}.

Definition set_cache (c : gmap string (Cached * Z)) (st : State) : State :=
  {| client := client st;
     config_catalog := config_catalog st;
     config_schema := config_schema st;
     warehouse_id := warehouse_id st;
     cache := c;
     events := events st |}.

(** [ConfigService(workspace_client, config_catalog, config_schema, warehouse_id)]. *)
Definition init (workspace_client : WorkspaceClient) (config_catalog config_schema : string)
    (warehouse_id : option string) (h : History) : State :=
  {| client := workspace_client;
     config_catalog := config_catalog;
     config_schema := config_schema;
     warehouse_id := warehouse_id;
     cache := ∅;
     events := h |}.

Definition cache_ttl : Z := minutes 5.

Definition get_full_table_name (st : State) (table : string) : string :=
  config_catalog st +:+ "." +:+ config_schema st +:+ "." +:+ table.

Definition state_name (s : StatementState) : string :=
  match s with
  | PENDING => "StatementState.PENDING"
  | RUNNING => "StatementState.RUNNING"
  | SUCCEEDED => "StatementState.SUCCEEDED"
  | FAILED => "StatementState.FAILED"
  | CANCELED => "StatementState.CANCELED"
  | CLOSED => "StatementState.CLOSED"
  end.

Definition succeeded (s : StatementState) : bool :=
  match s with
  | SUCCEEDED => true
  | _ => false
  end.

(** One result row as a dictionary: the value at position [i] goes under
    the [i]-th column name, values beyond the last column are dropped. *)
Definition row_dict (columns : list string) (row : list Cell) : Row :=
  foldl (fun d cv => <[fst cv := snd cv]> d) ∅ (zip columns row).

Definition execute_query (sql : string) : M State (list Row) :=
  try_except
    (do st <- get_state ;
     do response <- call (ExecuteStatement sql) (fun h => execute_statement (client st) h sql) ;
     if negb (succeeded (status_state response))
     then raise (Exception ("Query failed: " +:+ state_name (status_state response)))
     else
       match data_array response with
       | None => ret []
       | Some [] => ret []
       | Some rows =>
           match manifest_columns response with
           | None => raise (AttributeError "'NoneType' object has no attribute 'schema'")
           | Some columns => ret (map (row_dict columns) rows)
           end
       end)
    (fun e => exec log ERROR (Some e) ; raise e).

Definition get_cached (now : Z) (key : string) : M State (option Cached) :=
  do st <- get_state ;
  match cache st !! key with
  | Some (value, cached_at) =>
      if now - cached_at <? cache_ttl
      then ret (Some value)
      else
        exec modify (fun st => set_cache (delete key (cache st)) st) ;
        ret None
  | None => ret None
  end.

Definition set_cached (now : Z) (key : string) (value : Cached) : M State unit :=
  modify (fun st => set_cache (<[key := (value, now)]> (cache st)) st).

(** [row[key]] and [row.get(key, default)]. *)
Definition getitem (row : Row) (key : string) : Result Cell :=
  match row !! key with
  | Some c => Ok c
  | None => Raise (KeyError key)
  end.

Definition get_or (row : Row) (key : string) (dflt : Cell) : Cell :=
  default dflt (row !! key).

Definition none : Cell := CScalar PyNone.

Definition new_line : string := String (ascii_of_nat 10) "".

(** [x or 'all'] and the test [if x:] for an optional string argument. *)
Definition given (x : option string) : option string :=
  match x with
  | Some s => if String.eqb s "" then None else Some s
  | None => None
  end.

Definition or_all (x : option string) : string := default "all" (given x).

Fixpoint map_result {A B} (f : A -> Result B) (l : list A) : Result (list B) :=
  match l with
  | [] => Ok []
  | x :: rest =>
      match f x with
      | Raise e => Raise e
      | Ok y =>
          match map_result f rest with
          | Raise e => Raise e
          | Ok ys => Ok (y :: ys)
          end
      end
  end.

Definition query_config_of_row (row : Row) : Result QueryConfig :=
  match getitem row "id", getitem row "name", getitem row "category",
        getitem row "sql_template" with
  | Ok i, Ok n, Ok c, Ok t =>
      Ok {| id := i;
            name := n;
            description := get_or row "description" none;
            category := c;
            sql_template := t;
            parameters := get_or row "parameters" (CDicts []);
            output_schema := get_or row "output_schema" (CDicts []);
            required_permissions := get_or row "required_permissions" (CStrings []);
            allow_drill_down := get_or row "allow_drill_down" (CScalar (PyBool false));
            drill_down_query_id := get_or row "drill_down_query_id" none;
            cache_ttl_seconds := get_or row "cache_ttl_seconds" (CScalar (PyInt 300));
            tags := get_or row "tags" (CStrings []);
            is_active := get_or row "is_active" (CScalar (PyBool true)) |}
  | Raise e, _, _, _ => Raise e
  | _, Raise e, _, _ => Raise e
  | _, _, Raise e, _ => Raise e
  | _, _, _, Raise e => Raise e
  end.

Definition and_then {A B} (r : Result A) (k : A -> Result B) : Result B :=
  match r with
  | Ok a => k a
  | Raise e => Raise e
  end.

Definition filter_config_of_row (row : Row) : Result FilterConfig :=
  and_then (getitem row "id") (fun i =>
  and_then (getitem row "filter_name") (fun n =>
  and_then (getitem row "label") (fun l =>
  and_then (getitem row "filter_type") (fun ft =>
  and_then (getitem row "data_type") (fun dt =>
  and_then (getitem row "data_source") (fun ds =>
    Ok {| f_id := i;
          f_filter_name := n;
          f_label := l;
          f_filter_type := ft;
          f_data_type := dt;
          f_data_source := ds;
          f_static_options := get_or row "static_options" (CDicts []);
          f_options_query := get_or row "options_query" none;
          f_default_value := get_or row "default_value" none;
          f_applies_to_tabs := get_or row "applies_to_tabs" (CStrings []);
          f_applies_to_queries := get_or row "applies_to_queries" (CStrings []);
          f_filter_expression_template := get_or row "filter_expression_template" none;
          f_display_order := get_or row "display_order" (CScalar (PyInt 0));
          f_is_required := get_or row "is_required" (CScalar (PyBool false));
          f_is_active := get_or row "is_active" (CScalar (PyBool true)) |})))))).

Definition viz_config_of_row (row : Row) : Result VisualizationConfig :=
  and_then (getitem row "id") (fun i =>
  and_then (getitem row "viz_name") (fun n =>
  and_then (getitem row "viz_type") (fun t =>
  and_then (getitem row "query_id") (fun q =>
  and_then (getitem row "data_key") (fun k =>
    Ok {| v_id := i;
          v_viz_name := n;
          v_viz_type := t;
          v_query_id := q;
          v_data_key := k;
          v_x_axis_field := get_or row "x_axis_field" none;
          v_y_axis_field := get_or row "y_axis_field" none;
          v_color_scheme := get_or row "color_scheme" (CStrings []);
          v_title := get_or row "title" none;
          v_subtitle := get_or row "subtitle" none;
          v_allow_drill_down := get_or row "allow_drill_down" (CScalar (PyBool false));
          v_drill_down_config := get_or row "drill_down_config" none;
          v_chart_options := get_or row "chart_options" (CDict ∅);
          v_default_for_tab := get_or row "default_for_tab" none;
          v_display_order := get_or row "display_order" (CScalar (PyInt 0));
          v_is_active := get_or row "is_active" (CScalar (PyBool true)) |}))))).

(** [if cached: return cached]: the value is used only when it is true. *)
Definition usable (cached : option Cached) : option Cached :=
  match cached with
  | Some value => if cached_truthy value then Some value else None
  | None => None
  end.

(** [t_get] is the clock read by [_get_cached], [t_set] the one read by
    [_set_cached]. *)
Definition get_query_config (t_get t_set : Z) (query_id : string)
  : M State (option Cached) :=
  let cache_key := "query_" +:+ query_id in
  do cached <- get_cached t_get cache_key ;
  match usable cached with
  | Some value => ret (Some value)
  | None =>
      do st <- get_state ;
      let sql :=
        new_line +:+ "            SELECT *" +:+
        new_line +:+ "            FROM " +:+ get_full_table_name st "dashboard_queries" +:+
        new_line +:+ "            WHERE id = '" +:+ query_id +:+ "' AND is_active = true" +:+
        new_line +:+ "        " in
      do results <- execute_query sql ;
      match results with
      | [] => ret None
      | row :: _ =>
          do config <- lift_result (query_config_of_row row) ;
          exec set_cached t_set cache_key (CachedQuery config) ;
          ret (Some (CachedQuery config))
      end
  end.

Definition get_all_queries (t_get t_set : Z) (category : option string)
  : M State Cached :=
  let cache_key := "queries_" +:+ or_all category in
  do cached <- get_cached t_get cache_key ;
  match usable cached with
  | Some value => ret value
  | None =>
      do st <- get_state ;
      let sql :=
        new_line +:+ "            SELECT *" +:+
        new_line +:+ "            FROM " +:+ get_full_table_name st "dashboard_queries" +:+
        new_line +:+ "            WHERE is_active = true" +:+
        new_line +:+ "        " in
      let sql :=
        match given category with
        | Some c => sql +:+ " AND category = '" +:+ c +:+ "'"
        | None => sql
        end in
      let sql := sql +:+ " ORDER BY name" in
      do results <- execute_query sql ;
      do configs <- lift_result (map_result query_config_of_row results) ;
      exec set_cached t_set cache_key (CachedQueries configs) ;
      ret (CachedQueries configs)
  end.

(** [x in c] for a string [x]. *)
Definition cell_contains (c : Cell) (x : string) : Result bool :=
  match c with
  | CStrings l => Ok (bool_decide (x ∈ l))
  | CScalar (PyStr s) => Ok (contains x s)
  | CScalar _ => Raise (TypeError "argument is not iterable")
  | CDicts _ => Ok false
  | CDict d => Ok (bool_decide (is_Some (d !! x)))
  end.

(** The loop of [get_filter_configs], with its [continue]. *)
Fixpoint filter_configs_of_rows (tab : option string) (rows : list Row)
  : Result (list FilterConfig) :=
  match rows with
  | [] => Ok []
  | row :: rest =>
      and_then
        (match given tab with
         | Some t =>
             and_then (cell_contains (get_or row "applies_to_tabs" (CStrings [])) t)
               (fun found => Ok (negb found))
         | None => Ok false
         end)
        (fun skip =>
           if skip then filter_configs_of_rows tab rest
           else
             and_then (filter_config_of_row row) (fun config =>
             and_then (filter_configs_of_rows tab rest) (fun configs =>
               Ok (config :: configs))))
  end.

Definition get_filter_configs (t_get t_set : Z) (filter_type tab : option string)
  : M State Cached :=
  let cache_key := "filters_" +:+ or_all filter_type +:+ "_" +:+ or_all tab in
  do cached <- get_cached t_get cache_key ;
  match usable cached with
  | Some value => ret value
  | None =>
      do st <- get_state ;
      let sql :=
        new_line +:+ "            SELECT *" +:+
        new_line +:+ "            FROM " +:+ get_full_table_name st "filter_definitions" +:+
        new_line +:+ "            WHERE is_active = true" +:+
        new_line +:+ "        " in
      let sql :=
        match given filter_type with
        | Some t => sql +:+ " AND filter_type = '" +:+ t +:+ "'"
        | None => sql
        end in
      let sql := sql +:+ " ORDER BY display_order, filter_name" in
      do results <- execute_query sql ;
      do configs <- lift_result (filter_configs_of_rows tab results) ;
      exec set_cached t_set cache_key (CachedFilters configs) ;
      ret (CachedFilters configs)
  end.

Definition get_viz_configs (t_get t_set : Z) (tab : option string)
  : M State Cached :=
  let cache_key := "viz_" +:+ or_all tab in
  do cached <- get_cached t_get cache_key ;
  match usable cached with
  | Some value => ret value
  | None =>
      do st <- get_state ;
      let sql :=
        new_line +:+ "            SELECT *" +:+
        new_line +:+ "            FROM " +:+ get_full_table_name st "visualization_configs" +:+
        new_line +:+ "            WHERE is_active = true" +:+
        new_line +:+ "        " in
      let sql :=
        match given tab with
        | Some t => sql +:+ " AND default_for_tab = '" +:+ t +:+ "'"
        | None => sql
        end in
      let sql := sql +:+ " ORDER BY display_order, viz_name" in
      do results <- execute_query sql ;
      do configs <- lift_result (map_result viz_config_of_row results) ;
      exec set_cached t_set cache_key (CachedViz configs) ;
      ret (CachedViz configs)
  end.

(** A parameter definition is a dictionary; [None] stands for an element
    that is a string, on which [param_def['name']] raises. *)
Definition ParamDef : Type := option (gmap string PyVal).

(** The elements that [for param_def in config.parameters] runs over. *)
Definition param_defs (c : Cell) : Result (list ParamDef) :=
  match c with
  | CDicts l => Ok (map Some l)
  | CStrings l => Ok (map (fun _ => None) l)
  | CDict d => Ok (map (fun _ => None) (map_to_list d))
  | CScalar (PyStr s) => Ok (replicate (String.length s) None)
  | CScalar _ => Raise (TypeError "object is not iterable")
  end.

(** [params.get(param_name)]: the keys of [params] are strings. *)
Definition lookup_param (params : gmap string PyVal) (param_name : PyVal) : PyVal :=
  match param_name with
  | PyStr s => default PyNone (params !! s)
  | _ => PyNone
  end.

Definition is_none (v : PyVal) : bool :=
  match v with
  | PyNone => true
  | _ => false
  end.

(** [f"${{{param_name}}}"]. *)
Definition placeholder (param_name : PyVal) : string :=
  "${" +:+ py_str param_name +:+ "}".

(** [sql.replace(old, new)] when [sql] is whatever the row held. *)
Definition cell_replace (sql : Cell) (old new : string) : Result Cell :=
  match sql with
  | CScalar (PyStr s) => Ok (CScalar (PyStr (replace old new s)))
  | _ => Raise (AttributeError "object has no attribute 'replace'")
  end.

(** The value to substitute for one parameter; [PyNone] when there is
    nothing to substitute. *)
Definition resolve (param_def : gmap string PyVal) (param_name : PyVal)
    (params : gmap string PyVal) : Result PyVal :=
  let param_value := lookup_param params param_name in
  if is_none param_value then
    if py_truthy (default (PyBool false) (param_def !! "required"))
    then Raise (ValueError ("Required parameter missing: " +:+ py_str param_name))
    else Ok (default PyNone (param_def !! "default_value"))
  else Ok param_value.

(** The substitution loop of [build_query_from_template]. *)
Fixpoint substitute_parameters (defs : list ParamDef) (params : gmap string PyVal)
    (sql : Cell) : Result Cell :=
  match defs with
  | [] => Ok sql
  | None :: _ => Raise (TypeError "string indices must be integers")
  | Some param_def :: rest =>
      match param_def !! "name" with
      | None => Raise (KeyError "name")
      | Some param_name =>
          and_then (resolve param_def param_name params) (fun param_value =>
          and_then
            (if is_none param_value then Ok sql
             else cell_replace sql (placeholder param_name) (py_str param_value))
            (fun sql' => substitute_parameters rest params sql'))
      end
  end.

Definition build_query_from_template (t_get t_set : Z) (query_id : string)
    (params : gmap string PyVal) : M State Cell :=
  do config <- get_query_config t_get t_set query_id ;
  match usable config with
  | None => raise (ValueError ("Query configuration not found: " +:+ query_id))
  | Some (CachedQuery config) =>
      let sql := sql_template config in
      do defs <- lift_result (param_defs (parameters config)) ;
      lift_result (substitute_parameters defs params sql)
  | Some _ => raise (AttributeError "'list' object has no attribute 'sql_template'")
  end.

Definition clear_cache : M State unit :=
  modify (set_cache ∅).

End ConfigService.

(** ** More of Python's strings *)

(** [s.split(sep)] for a separator of one character: the pieces between
    the separators, empty pieces included. *)
Fixpoint split_on (sep : ascii) (s : string) : list string :=
  match s with
  | EmptyString => [EmptyString]
  | String c s' =>
      if Ascii.eqb c sep then EmptyString :: split_on sep s'
      else
        match split_on sep s' with
        | [] => [String c EmptyString]
        | piece :: pieces => String c piece :: pieces
        end
  end.

(** Every character of [s] satisfies [p]. *)
Fixpoint all_chars (p : ascii -> bool) (s : string) : bool :=
  match s with
  | EmptyString => true
  | String c s' => p c && all_chars p s'
  end.

(** The longest prefix whose characters satisfy [p], and what follows it:
    a greedy [+] or [*] over a character class. *)
Fixpoint span (p : ascii -> bool) (s : string) : string * string :=
  match s with
  | EmptyString => (EmptyString, EmptyString)
  | String c s' =>
      if p c then (String c (fst (span p s')), snd (span p s'))
      else (EmptyString, s)
  end.

(** ** user_context.py: sessions and roles *)

Module UserSessionPy.

Import UserContextPy.

Record UserSession : Type :=
  { email : string;
    user_id : string;
    display_name : option string;
    groups : list string;
    roles : list string;
    is_admin : bool;
    is_analyst : bool;
    is_viewer : bool;
    data_scope : DataAccessScope;
    session_id : string;
    created_at : Z;
    last_activity : Z;
    expires_at : option Z;
    ip_address : option string;
    user_agent : option string }.

Definition update_activity (now : Z) (s : UserSession) : UserSession :=
  {| email := email s;
     user_id := user_id s;
     display_name := display_name s;
     groups := groups s;
     roles := roles s;
     is_admin := is_admin s;
     is_analyst := is_analyst s;
     is_viewer := is_viewer s;
     data_scope := data_scope s;
     session_id := session_id s;
     created_at := created_at s;
     last_activity := now;
     expires_at := expires_at s;
     ip_address := ip_address s;
     user_agent := user_agent s |}.

Definition is_expired (now : Z) (s : UserSession) : bool :=
  match expires_at s with
  | None => false
  | Some at_ => at_ <? now
  end.

Definition has_role (s : UserSession) (role : string) : bool :=
  bool_decide (role ∈ roles s) || is_admin s.

Definition has_group (s : UserSession) (group : string) : bool :=
  bool_decide (group ∈ groups s) || is_admin s.

Definition can_access_admin_panel (s : UserSession) : bool :=
  is_admin s || has_role s "dashboard_admin".

Definition can_configure_queries (s : UserSession) : bool :=
  is_admin s || has_role s "query_admin".

Definition can_configure_filters (s : UserSession) : bool :=
  is_admin s || has_role s "filter_admin".

Definition can_view_analytics (s : UserSession) : bool :=
  is_admin s || is_analyst s || is_viewer s.

(** [any(g in groups_lower for g in names)]. *)
Definition any_in (names groups_lower : list string) : bool :=
  existsb (fun g => bool_decide (g ∈ groups_lower)) names.

Definition session_admin_groups : list string :=
  ["admins"; "workspace admins"; "account admins"; "dashboard_admins"].

Definition analyst_groups : list string :=
  ["analysts"; "data_analysts"; "analytics_team"].

(** Returns [(is_admin, is_analyst, is_viewer)]. *)
Definition determine_user_roles (groups : list string) : bool * bool * bool :=
  let groups_lower := map lower groups in
  let is_admin := any_in session_admin_groups groups_lower in
  let is_analyst := any_in analyst_groups groups_lower || is_admin in
  let is_viewer := (0 <? Z.of_nat (length groups)) || is_analyst || is_admin in
  (is_admin, is_analyst, is_viewer).

(** [display_name or email.split("@")[0]]. *)
Definition default_display_name (display_name : option string) (email : string) : string :=
  match display_name with
  | Some n => if String.eqb n "" then hd EmptyString (split_on "@" email) else n
  | None => hd EmptyString (split_on "@" email)
  end.

(** [new_id] is the string of the [uuid.uuid4()] drawn by the call;
    [t_created] and [t_activity] are the two clock readings that fill
    [created_at] and [last_activity]. *)
Definition create_user_session (new_id : string) (t_created t_activity : Z)
    (email user_id : string) (groups : list string)
    (display_name ip_address user_agent : option string) : UserSession :=
  match determine_user_roles groups with
  | (is_admin, is_analyst, is_viewer) =>
      let session_id := new_id in
      let roles := [] in
      let roles :=
        if is_admin then roles ++ ["dashboard_admin"; "query_admin"; "filter_admin"]
        else roles in
      let roles := if is_analyst then roles ++ ["analyst"] else roles in
      let roles := if is_viewer then roles ++ ["viewer"] else roles in
      {| email := email;
         user_id := user_id;
         display_name := Some (default_display_name display_name email);
         groups := groups;
         roles := roles;
         is_admin := is_admin;
         is_analyst := is_analyst;
         is_viewer := is_viewer;
         data_scope := new_scope;
         session_id := session_id;
         created_at := t_created;
         last_activity := t_activity;
         expires_at := None;
         ip_address := ip_address;
         user_agent := user_agent |}
  end.

End UserSessionPy.

(** ** permissions_service.py: validation of a query *)

Module QueryPermissions.

Import AuthMiddleware PermissionsService.

(** [\s] on ASCII text: tab, line feed, vertical tab, form feed, carriage
    return, the separators 28 to 31, and the space. *)
Definition is_space (c : ascii) : bool :=
  let n := nat_of_ascii c in
  (((9 <=? n) && (n <=? 13)) || ((28 <=? n) && (n <=? 32)))%nat.

(** [[a-zA-Z0-9_]]. *)
Definition is_word (c : ascii) : bool :=
  let n := nat_of_ascii c in
  (((48 <=? n) && (n <=? 57)) || ((65 <=? n) && (n <=? 90)) ||
   ((97 <=? n) && (n <=? 122)) || (n =? 95))%nat.

(** [(?:FROM|JOIN)] at the head of [s], in any case: what follows it. *)
Definition keyword (s : string) : option string :=
  match s with
  | String a (String b (String c (String d rest))) =>
      let word := upper (String a (String b (String c (String d EmptyString)))) in
      if String.eqb word "FROM" || String.eqb word "JOIN" then Some rest else None
  | _ => None
  end.

(** [\.[a-zA-Z0-9_]+] at the head of [s]: the segment with its dot, and
    what follows it. *)
Definition segment (s : string) : option (string * string) :=
  match s with
  | String c s' =>
      if Ascii.eqb c "." then
        match span is_word s' with
        | (EmptyString, _) => None
        | (name, rest) => Some (String c name, rest)
        end
      else None
  | EmptyString => None
  end.

(** The pattern
    [(?:FROM|JOIN)\s+([a-zA-Z0-9_]+(?:\.[a-zA-Z0-9_]+){1,2})]
    at the head of [s]: the captured group and the number of characters
    matched.  Each repetition takes all it can; giving characters back
    never helps, since a character given back by a class cannot start what
    comes next. *)
Definition match_at (s : string) : option (string * nat) :=
  match keyword s with
  | None => None
  | Some after_keyword =>
      match span is_space after_keyword with
      | (EmptyString, _) => None
      | (spaces, after_spaces) =>
          match span is_word after_spaces with
          | (EmptyString, _) => None
          | (first, after_first) =>
              match segment after_first with
              | None => None
              | Some (second, after_second) =>
                  let group :=
                    match segment after_second with
                    | Some (third, _) => first +:+ second +:+ third
                    | None => first +:+ second
                    end in
                  Some (group, (4 + String.length spaces + String.length group)%nat)
              end
          end
      end
  end.

(** [re.findall]: try the pattern at each position from the left; after a
    match go on behind it ([skip] counts the characters of the match that
    are still to be passed). *)
Fixpoint find_references (skip : nat) (s : string) : list string :=
  match s with
  | EmptyString => []
  | String _ s' =>
      match skip with
      | S k => find_references k s'
      | O =>
          match match_at s with
          | Some (group, matched) => group :: find_references (matched - 1) s'
          | None => find_references 0 s'
          end
      end
  end.

Definition extract_table_references (sql : string) : list string :=
  find_references 0 sql.

(** The loop of [validate_query_permissions] over the references. *)
Fixpoint check_references (user_context : UserContext) (tables : list string)
  : M State (bool * option string) :=
  match tables with
  | [] => ret (true, None)
  | table_ref :: rest =>
      match split_on "." table_ref with
      | [catalog; schema; table] =>
          do ok <- check_table_access user_context catalog schema table "SELECT" ;
          if negb ok then ret (false, Some ("Access denied to table " +:+ table_ref))
          else check_references user_context rest
      | [schema; table] =>
          let catalog := "hive_metastore" in
          do ok <- check_table_access user_context catalog schema table "SELECT" ;
          if negb ok then ret (false, Some ("Access denied to table " +:+ table_ref))
          else check_references user_context rest
      | _ => check_references user_context rest
      end
  end.

(** Returns [(is_valid, error_message)]. *)
Definition validate_query_permissions (sql : string) (user_context : UserContext)
  : M State (bool * option string) :=
  if is_admin user_context then ret (true, None)
  else
    let tables := extract_table_references sql in
    check_references user_context tables.

(** The audit record is a log record at level INFO. *)
Definition audit_log_access (user_context : UserContext) (resource action : string)
    (granted : bool) : M State unit :=
  log INFO None.

(** How [check_query_permissions] ends: it returns the modified SQL, or
    raises the built-in [PermissionError] with the message of the
    validation. *)
Inductive Checked : Type :=
| Modified (modified_sql : string)
| PermissionError (error_msg : option string).

Definition check_query_permissions (sql : string) (user_context : UserContext)
  : M State Checked :=
  do validation <- validate_query_permissions sql user_context ;
  let is_valid := fst validation in
  let error_msg := snd validation in
  if negb is_valid then
    exec audit_log_access user_context "query" "execute" false ;
    ret (PermissionError error_msg)
  else
    let modified_sql := inject_row_level_security sql user_context None in
    exec audit_log_access user_context "query" "execute" true ;
    ret (Modified modified_sql).

End QueryPermissions.

(** ** config_service.py: the start-up check *)

Module ConfigStartup.

Import ConfigService.

Definition required_tables : list string :=
  ["dashboard_queries"; "filter_definitions"; "visualization_configs";
   "dashboard_tabs"; "system_config"].

Definition validate_config_tables_exist : M State bool :=
  try_except
    (exec for_each required_tables (fun table =>
       do st <- get_state ;
       let sql :=
         "SELECT COUNT(*) as cnt FROM " +:+ get_full_table_name st table +:+ " LIMIT 1" in
       do rows <- execute_query sql ;
       ret tt) ;
     exec log INFO None ;
     ret true)
    (fun e => exec log ERROR (Some e) ; ret false).

End ConfigStartup.

(** ** Observations on histories *)

(** A request to the privilege store. *)
Definition is_grants_lookup (ev : Event) : bool :=
  match ev with
  | Called (GrantsGetEffective _ _ _) _ => true
  | _ => false
  end.

Definition is_table_lookup (ev : Event) : bool :=
  match ev with
  | Called (GrantsGetEffective TABLE _ _) _ => true
  | _ => false
  end.

(** A request that ended in an exception. *)
Definition has_raised (ev : Event) : bool :=
  match ev with
  | Called _ (Some _) => true
  | _ => false
  end.

(** A log record that reports a caught exception. *)
Definition is_caught (ev : Event) : bool :=
  match ev with
  | Logged _ (Some _) => true
  | _ => false
  end.

Definition is_identity_lookup (token : string) (ev : Event) : bool :=
  match ev with
  | Called (CurrentUserMe t) _ => String.eqb t token
  | _ => false
  end.

Definition is_statement (ev : Event) : bool :=
  match ev with
  | Called (ExecuteStatement _) _ => true
  | _ => false
  end.

Definition count (f : Event -> bool) (h : History) : nat :=
  length (List.filter f h).

(** ** Reasoning about monadic code *)

(** [preserves I m]: running [m] from a state in [I] ends in [I], however
    it ends. *)
Definition preserves {S A} (I : S -> Prop) (m : M S A) : Prop :=
  forall s r s', m s = (r, s') -> I s -> I s'.

(** ** Vocabulary of the permission properties *)

Section PermissionVocabulary.

Import UserContextPy AuthMiddleware PermissionsService.

(** Entries of the permission cache that [st'] still has. *)
Definition entries_kept (st st' : PermissionsService.State) : Prop :=
  forall e k v, decisions_of st e !! k = Some v -> decisions_of st' e !! k = Some v.

Definition catalog_key (u : UserContext) (c p : string) : string :=
  email u +:+ ":" +:+ c +:+ ":" +:+ p.

(** The part of [check_schema_access] and [check_table_access] that follows
    the check of the parent: consult the cache, else ask the privilege
    store. *)
Definition grants_step (ty : SecurableType) (full_name : string) (u : UserContext)
    (p : string) : M PermissionsService.State bool :=
  let cache_key := email u +:+ ":" +:+ full_name +:+ ":" +:+ p in
  do st <- get_state ;
  match decisions_of st (email u) !! cache_key with
  | Some decision => ret decision
  | None =>
      try_except
        (match workspace_client u with
         | Some client =>
             do grants <- call (GrantsGetEffective ty full_name (email u))
                            (fun h => grants_get_effective client h ty full_name (email u)) ;
             do has_access <- lift_result
                  (any_privilege p (default [] (privilege_assignments grants))) ;
             exec remember (email u) cache_key has_access ;
             ret has_access
         | None => ret false
         end)
        (fun e => exec log WARNING (Some e) ; ret false)
  end.



(** A scope that names catalogs and schemas only. *)
Definition catalogs_and_schemas_only (sc : DataAccessScope) : Prop :=
  accessible_tables sc = ∅ /\ row_level_filters sc = ∅ /\
  restricted_columns sc = ∅ /\ access_levels sc = ∅.

Definition grant (p : string) : PrivilegeAssignment := {| privilege := Some p |}.

Definition granted (ps : list string) : EffectivePermissions :=
  {| privilege_assignments := Some (map grant ps) |}.

Definition no_rows : StatementResponse :=
  {| status_state := SUCCEEDED; data_array := None; manifest_columns := Some [] |}.

(** A workspace that cannot be reached: every request raises. *)
Definition unreachable : WorkspaceClient :=
  {| catalogs_get := fun _ _ => Raise (Exception "connection refused");
     grants_get_effective := fun _ _ _ _ => Raise (Exception "connection refused");
     catalogs_list := fun _ =>
       {| yielded := []; failure := Some (Exception "connection refused") |};
     schemas_list := fun _ _ =>
       {| yielded := []; failure := Some (Exception "connection refused") |};
     current_user_me := fun _ => Raise (Exception "connection refused");
     execute_statement := fun _ _ => Raise (Exception "connection refused") |}.

(** A workspace with one catalog [sales] and one schema [eu], in which the
    privilege store answers as [answer] says. *)
Definition workspace
    (answer : History -> SecurableType -> string -> Result EffectivePermissions)
  : WorkspaceClient :=
  {| catalogs_get := fun _ _ => Ok tt;
     grants_get_effective := fun h ty full_name _ => answer h ty full_name;
     catalogs_list := fun _ => {| yielded := ["sales"]; failure := None |};
     schemas_list := fun _ _ => {| yielded := ["eu"]; failure := None |};
     current_user_me := fun _ => Raise (Exception "not an identity endpoint");
     execute_statement := fun _ _ => Ok no_rows |}.

(** [USAGE] and [SELECT] on everything. *)
Definition steady : WorkspaceClient :=
  workspace (fun _ _ _ => Ok (granted ["USAGE"; "SELECT"])).

(** [USAGE] on catalogs and nothing below them. *)
Definition catalogs_only : WorkspaceClient :=
  workspace (fun _ ty _ =>
    match ty with
    | CATALOG => Ok (granted ["USAGE"])
    | _ => Ok (granted [])
    end).


Definition analyst (cl : option WorkspaceClient) : UserContext :=
  {| email := "a@b.com";
     user_id := "42";
     groups := ["users"];
     is_admin := false;
     workspace_client := cl;
     authenticated_at := 0 |}.

Definition administrator : UserContext :=
  {| email := "root@b.com";
     user_id := "1";
     groups := ["admins"];
     is_admin := true;
     workspace_client := None;
     authenticated_at := 0 |}.

Definition fresh : PermissionsService.State :=
  {| permission_cache := ∅; PermissionsService.events := [] |}.

End PermissionVocabulary.

(** ** Vocabulary of the session properties *)

Section SessionVocabulary.

Import AuthMiddleware.

Definition identity_endpoint : WorkspaceClient :=
  {| catalogs_get := fun _ _ => Ok tt;
     grants_get_effective := fun _ _ _ _ => Ok (granted []);
     catalogs_list := fun _ => {| yielded := []; failure := None |};
     schemas_list := fun _ _ => {| yielded := []; failure := None |};
     current_user_me := fun _ =>
       Ok {| user_name := Some "a@b.com";
             emails := ["a@b.com"];
             cu_id := "42";
             cu_groups := [Some "Users"; Some "Analysts"] |};
     execute_statement := fun _ _ => Ok no_rows |}.

Definition platform : Platform :=
  {| environ := {[ "DATABRICKS_HOST" := "https://example.cloud.databricks.com" ]};
     connect := fun _ _ => Ok identity_endpoint |}.

(** The identity that [identity_endpoint] returns, authenticated at time 0. *)
Definition tok1_user : UserContext :=
  {| email := "a@b.com";
     user_id := "42";
     groups := ["Users"; "Analysts"];
     is_admin := false;
     workspace_client := Some identity_endpoint;
     authenticated_at := 0 |}.

Definition no_sessions : AuthMiddleware.State :=
  {| session_cache := ∅; request_user := None; AuthMiddleware.events := [] |}.

End SessionVocabulary.

(** ** Vocabulary of the configuration properties *)

Section ConfigVocabulary.

Import ConfigService.

(** A call of one of the four read-through methods. *)
Inductive ReadCall : Type :=
| GetQueryConfig (query_id : string)
| GetAllQueries (category : option string)
| GetFilterConfigs (filter_type tab : option string)
| GetVizConfigs (tab : option string).


(** Run the call; [None] is the Python [None] that only [get_query_config]
    returns. *)
Definition read (t_get t_set : Z) (c : ReadCall) : M State (option Cached) :=
  match c with
  | GetQueryConfig query_id => get_query_config t_get t_set query_id
  | GetAllQueries category =>
      do v <- get_all_queries t_get t_set category ; ret (Some v)
  | GetFilterConfigs filter_type tab =>
      do v <- get_filter_configs t_get t_set filter_type tab ; ret (Some v)
  | GetVizConfigs tab =>
      do v <- get_viz_configs t_get t_set tab ; ret (Some v)
  end.




(** The shape shared by the three list methods once the cache has no usable
    entry: query, convert the rows, store, return. *)
Definition fetch_and_store {A} (sql : State -> string) (convert : list Row -> Result A)
    (wrap : A -> Cached) (t_set : Z) (cache_key : string) : M State Cached :=
  do st <- get_state ;
  do results <- execute_query (sql st) ;
  do configs <- lift_result (convert results) ;
  exec set_cached t_set cache_key (wrap configs) ;
  ret (wrap configs).

(** The same for [get_query_config], which returns [None] and stores
    nothing when no row comes back. *)
Definition fetch_one_and_store (sql : State -> string) (t_set : Z) (cache_key : string)
  : M State (option Cached) :=
  do st <- get_state ;
  do results <- execute_query (sql st) ;
  match results with
  | [] => ret None
  | row :: _ =>
      do config <- lift_result (query_config_of_row row) ;
      exec set_cached t_set cache_key (CachedQuery config) ;
      ret (Some (CachedQuery config))
  end.

(** A list method as a whole. *)
Definition read_through {A} (sql : State -> string) (convert : list Row -> Result A)
    (wrap : A -> Cached) (t_get t_set : Z) (cache_key : string) : M State Cached :=
  do cached <- get_cached t_get cache_key ;
  match usable cached with
  | Some value => ret value
  | None => fetch_and_store sql convert wrap t_set cache_key
  end.

(** The cache has nothing usable under [key] at time [now]: no entry, or an
    entry that is 5 minutes old or older. *)
Definition nothing_fresh (st : State) (key : string) (now : Z) : Prop :=
  cache st !! key = None \/
  exists v T, cache st !! key = Some (v, T) /\ minutes 5 <= now - T.

(** The query of the specification's scenario: [q1] with the required
    parameter [region]. *)
Definition region_template : string := "SELECT * FROM t WHERE region = '${region}'".

Definition query_columns : list string :=
  ["id"; "name"; "category"; "sql_template"; "parameters"].

Definition region_row : list Cell :=
  [CScalar (PyStr "q1"); CScalar (PyStr "Sales by region"); CScalar (PyStr "sales");
   CScalar (PyStr region_template);
   CDicts [ {[ "name" := PyStr "region"; "required" := PyBool true ]} ]].

(** A query whose template names a column placeholder that it does not
    declare. *)
Definition undeclared_row : list Cell :=
  [CScalar (PyStr "q2"); CScalar (PyStr "Any column"); CScalar (PyStr "sales");
   CScalar (PyStr "SELECT ${col} FROM t");
   CDicts []].

(** The [QueryConfig] built from [region_row]. *)
Definition region_config : QueryConfig :=
  {| id := CScalar (PyStr "q1");
     name := CScalar (PyStr "Sales by region");
     description := none;
     category := CScalar (PyStr "sales");
     sql_template := CScalar (PyStr region_template);
     parameters := CDicts [ {[ "name" := PyStr "region"; "required" := PyBool true ]} ];
     output_schema := CDicts [];
     required_permissions := CStrings [];
     allow_drill_down := CScalar (PyBool false);
     drill_down_query_id := none;
     cache_ttl_seconds := CScalar (PyInt 300);
     tags := CStrings [];
     is_active := CScalar (PyBool true) |}.

(** The [QueryConfig] built from [undeclared_row]. *)
Definition undeclared_config : QueryConfig :=
  {| id := CScalar (PyStr "q2");
     name := CScalar (PyStr "Any column");
     description := none;
     category := CScalar (PyStr "sales");
     sql_template := CScalar (PyStr "SELECT ${col} FROM t");
     parameters := CDicts [];
     output_schema := CDicts [];
     required_permissions := CStrings [];
     allow_drill_down := CScalar (PyBool false);
     drill_down_query_id := none;
     cache_ttl_seconds := CScalar (PyInt 300);
     tags := CStrings [];
     is_active := CScalar (PyBool true) |}.

(** A metadata store that answers every statement with the given rows. *)
Definition metadata_store (rows : list (list Cell)) : WorkspaceClient :=
  {| catalogs_get := fun _ _ => Ok tt;
     grants_get_effective := fun _ _ _ _ => Ok (granted []);
     catalogs_list := fun _ => {| yielded := []; failure := None |};
     schemas_list := fun _ _ => {| yielded := []; failure := None |};
     current_user_me := fun _ => Raise (Exception "not an identity endpoint");
     execute_statement := fun _ _ =>
       Ok {| status_state := SUCCEEDED;
             data_array := Some rows;
             manifest_columns := Some query_columns |} |}.

Definition config_service (store : WorkspaceClient) : State :=
  init store "mv_catalog" "config_schema" (Some "wh-1") [].

End ConfigVocabulary.

(** ** Vocabulary of the further properties *)

(** A request to the workspace. *)
Definition is_call (ev : Event) : bool :=
  match ev with
  | Called _ _ => true
  | Logged _ _ => false
  end.

(** A log record at level INFO: in the permission service, an audit
    record. *)
Definition is_info (ev : Event) : bool :=
  match ev with
  | Logged INFO _ => true
  | _ => false
  end.

(** A log record at level ERROR. *)
Definition is_error_log (ev : Event) : bool :=
  match ev with
  | Logged ERROR _ => true
  | _ => false
  end.

(** The events that a permission check can add: a request for a catalog
    or to the privilege store, and the warning that reports a caught
    exception. *)
Definition check_event (ev : Event) : bool :=
  match ev with
  | Called (CatalogsGet _) _ => true
  | Called (GrantsGetEffective _ _ _) _ => true
  | Logged WARNING (Some _) => true
  | _ => false
  end.

(** Text in ASCII: every character is below 128. *)
Definition ascii_text (s : string) : bool :=
  all_chars (fun c => match c with Ascii _ _ _ _ _ _ _ b7 => negb b7 end) s.

(** No dot in the text. *)
Definition no_dot (s : string) : bool :=
  all_chars (fun c => negb (Ascii.eqb c ".")) s.

Section FurtherPermissionVocabulary.

Import UserContextPy AuthMiddleware PermissionsService QueryPermissions.

(** The cache key of a decision on the resource [full_name]. *)
Definition decision_key (u : UserContext) (full_name p : string) : string :=
  email u +:+ ":" +:+ full_name +:+ ":" +:+ p.

(** The user has no workspace client, or one on which every request for a
    catalog raises. *)
Definition out_of_reach (u : UserContext) : Prop :=
  match workspace_client u with
  | None => True
  | Some cl => forall h n, exists e, catalogs_get cl h n = Raise e
  end.

(** While a scope is built for [u] from the catalogs [listed]: every
    catalog of the scope was listed and has USAGE granted in the cache, and
    every schema of the scope belongs to a catalog of the scope and has
    USAGE granted in the cache. *)
Definition scope_backed (u : UserContext) (listed : list string) (b : Building) : Prop :=
  (forall c, c ∈ accessible_catalogs (snd b) ->
     c ∈ listed /\
     decisions_of (fst b) (email u) !! decision_key u c "USAGE" = Some true) /\
  (forall n, n ∈ accessible_schemas (snd b) ->
     exists c s,
       n = c +:+ "." +:+ s /\ c ∈ accessible_catalogs (snd b) /\
       decisions_of (fst b) (email u) !! decision_key u (c +:+ "." +:+ s) "USAGE" =
         Some true).

(** A piece of a reference: a non-empty run of word characters. *)
Definition is_name (piece : string) : Prop :=
  piece <> "" /\ all_chars is_word piece = true.

(** Two or three names joined by dots. *)
Definition dotted_name (r : string) : Prop :=
  (exists a b, split_on "." r = [a; b] /\ is_name a /\ is_name b) \/
  (exists a b c, split_on "." r = [a; b; c] /\ is_name a /\ is_name b /\ is_name c).

(** A workspace with the catalog [main] and its schema [gold], on which
    the user holds every privilege at every level. *)
Definition open_workspace : WorkspaceClient :=
  {| catalogs_get := fun _ _ => Ok tt;
     grants_get_effective := fun _ _ _ _ =>
       Ok (granted ["USAGE"; "SELECT"; "MODIFY"]);
     catalogs_list := fun _ => {| yielded := ["main"]; failure := None |};
     schemas_list := fun _ _ => {| yielded := ["gold"]; failure := None |};
     current_user_me := fun _ => Raise (Exception "not an identity endpoint");
     execute_statement := fun _ _ => Ok no_rows |}.

End FurtherPermissionVocabulary.

Section FurtherSessionVocabulary.

Import AuthMiddleware.




End FurtherSessionVocabulary.

(** ** Tactics *)

(** Unfold one layer of the monad. *)
Ltac step_monad :=
  cbv beta iota zeta delta [try_except bind call lift_result log ret get_state modify].

Ltac destruct_grants g e E :=
  match goal with
  | |- context [grants_get_effective ?a ?h ?t ?n ?pr] =>
      destruct (grants_get_effective a h t n pr) as [g|e] eqn:E
  end; cbv beta iota zeta delta [raised_by].

(** ** Lemmas on the prelude and on monadic code *)

Example replace_all_occurrences :
  replace "ab" "X" "abcabab" = "XcXX" /\
  replace "aa" "b" "aaa" = "ba" /\
  replace "" "-" "abc" = "-a-b-c-" /\
  upper "Select where x_1" = "SELECT WHERE X_1" /\
  contains "WHERE" "a WHERE b" = true /\
  contains "" "" = true /\
  py_str (PyInt (-120)) = "-120" /\ py_str (PyInt 0) = "0" /\ py_str (PyInt 907) = "907".
Proof. repeat split; reflexivity. Qed.

Lemma prefix_refl_app (a s : string) : String.prefix a (a +:+ s) = true.
Proof. induction a as [|c a IH]; simpl; [destruct s; reflexivity|].
  destruct (Ascii.ascii_dec c c); [exact IH | contradiction]. Qed.

Lemma replace_from_skip old new (pre s : string) :
  replace_from old new (String.length pre) (pre +:+ s) = replace_from old new 0 s.
Proof.
  induction pre as [|c pre IH]; simpl; [destruct s; reflexivity | exact IH].
Qed.

(** The three equations that determine [replace] for a non-empty [old]:
    an occurrence at the head is replaced and the scan goes on behind it,
    any other character is kept. *)
Lemma replace_at_occurrence old new s :
  old <> "" -> replace old new (old +:+ s) = new +:+ replace old new s.
Proof.
  intros Hne. destruct old as [|c old']; [contradiction|].
  unfold replace. change (String c old' +:+ s) with (String c (old' +:+ s)).
  cbn [replace_from].
  change (String c (old' +:+ s)) with (String c old' +:+ s).
  rewrite prefix_refl_app.
  change (String.length (String c old') - 1)%nat with (S (String.length old') - 1)%nat.
  replace (S (String.length old') - 1)%nat with (String.length old') by lia.
  rewrite replace_from_skip. reflexivity.
Qed.

Lemma replace_elsewhere old new c s :
  old <> "" -> String.prefix old (String c s) = false ->
  replace old new (String c s) = String c (replace old new s).
Proof.
  intros Hne Hp. destruct old as [|c0 old']; [contradiction|].
  unfold replace. cbn [replace_from]. rewrite Hp. reflexivity.
Qed.

Lemma replace_absent old new s :
  contains old s = false -> replace old new s = s.
Proof.
  destruct old as [|c0 old'].
  - destruct s; discriminate.
  - unfold replace. induction s as [|c s IH]; [reflexivity|].
    intros H. cbn [contains] in H. apply orb_false_iff in H. destruct H as [Hp Hc].
    cbn [replace_from]. rewrite Hp. rewrite IH by exact Hc. reflexivity.
Qed.

Lemma preserves_ret {S A} (I : S -> Prop) (a : A) : preserves I (ret a).
Proof. intros s r s' E HI. inversion E; subst; exact HI. Qed.

Lemma preserves_raise {S A} (I : S -> Prop) (e : exn) : preserves I (@raise S A e).
Proof. intros s r s' E HI. inversion E; subst; exact HI. Qed.

Lemma preserves_modify {S} (I : S -> Prop) (f : S -> S) :
  (forall s, I s -> I (f s)) -> preserves I (modify f).
Proof. intros Hf s r s' E HI. inversion E; subst; auto. Qed.

Lemma preserves_bind {S A B} (I : S -> Prop) (m : M S A) (k : A -> M S B) :
  preserves I m -> (forall a, preserves I (k a)) -> preserves I (bind m k).
Proof.
  intros Hm Hk s r s' E HI. unfold bind in E.
  destruct (m s) as [[a|e] s1] eqn:Em.
  - eapply Hk; [exact E | eapply Hm; eauto].
  - inversion E; subst. eapply Hm; eauto.
Qed.

Lemma preserves_try {S A} (I : S -> Prop) (m : M S A) (h : exn -> M S A) :
  preserves I m -> (forall e, preserves I (h e)) -> preserves I (try_except m h).
Proof.
  intros Hm Hh s r s' E HI. unfold try_except in E.
  destruct (m s) as [[a|e] s1] eqn:Em.
  - inversion E; subst. eapply Hm; eauto.
  - eapply Hh; [exact E | eapply Hm; eauto].
Qed.

Lemma preserves_for_each {S A} (I : S -> Prop) (items : list A) (body : A -> M S unit) :
  (forall x, preserves I (body x)) -> preserves I (for_each items body).
Proof.
  intros Hb. induction items as [|x rest IH]; simpl.
  - apply preserves_ret.
  - apply preserves_bind; [apply Hb | intros _; exact IH].
Qed.

Lemma preserves_iterate {S} (I : S -> Prop) (l : Listing) (body : string -> M S unit) :
  (forall x, preserves I (body x)) -> preserves I (iterate l body).
Proof.
  intros Hb. unfold iterate. apply preserves_bind.
  - apply preserves_for_each; exact Hb.
  - intros _. destruct (failure l); [apply preserves_raise | apply preserves_ret].
Qed.

Lemma preserves_call_listing {S} `{Recorder S} (I : S -> Prop) (c : Call)
    (answer : History -> Listing) :
  (forall ev s, I s -> I (record ev s)) -> preserves I (call_listing c answer).
Proof. intros Hr s r s' E HI. inversion E; subst; auto. Qed.

Lemma preserves_log {S} `{Recorder S} (I : S -> Prop) (lvl : Level) (cause : option exn) :
  (forall ev s, I s -> I (record ev s)) -> preserves I (log lvl cause).
Proof. intros Hr. apply preserves_modify. intros s; apply Hr. Qed.

(** ** Properties of the permission checks *)

Section PermissionChecks.

Import UserContextPy AuthMiddleware PermissionsService.

Lemma entries_kept_refl st : entries_kept st st.
Proof. intros e k v H; exact H. Qed.

Lemma entries_kept_trans st1 st2 st3 :
  entries_kept st1 st2 -> entries_kept st2 st3 -> entries_kept st1 st3.
Proof. intros H1 H2 e k v H. apply H2, H1, H. Qed.

Lemma decisions_remember email key b st e k :
  decisions_of (snd (remember email key b st)) e !! k =
  if decide (e = email /\ k = key) then Some b else decisions_of st e !! k.
Proof.
  unfold remember, modify, decisions_of, set_permission_cache; simpl.
  destruct (decide (e = email)) as [->|Hne].
  - rewrite lookup_insert_eq. simpl.
    destruct (decide (k = key)) as [->|Hk].
    + rewrite lookup_insert_eq. rewrite decide_True; auto.
    + rewrite lookup_insert_ne by congruence.
      rewrite decide_False by tauto.
      destruct (permission_cache st !! email) eqn:E; simpl.
      * rewrite E. reflexivity.
      * rewrite lookup_insert_eq. reflexivity.
  - rewrite lookup_insert_ne by congruence.
    rewrite decide_False by tauto.
    destruct (permission_cache st !! email) eqn:E; simpl; [reflexivity|].
    rewrite lookup_insert_ne by congruence. reflexivity.
Qed.

Lemma remember_run email key b st :
  remember email key b st = (Ok tt, snd (remember email key b st)).
Proof. reflexivity. Qed.

Lemma entries_kept_remember email key b st :
  decisions_of st email !! key = None ->
  entries_kept st (snd (remember email key b st)).
Proof.
  intros Hnone e k v H. rewrite decisions_remember.
  destruct (decide _) as [[-> ->]|]; [congruence | exact H].
Qed.

Lemma entries_kept_record ev (st : PermissionsService.State) : entries_kept st (record ev st).
Proof. intros e k v H; exact H. Qed.

Ltac kept_by_records :=
  repeat (eapply entries_kept_trans; [|apply entries_kept_record]);
  apply entries_kept_refl.


Lemma check_catalog_access_summary u c p st :
  is_admin u = false ->
  exists b st' new,
    check_catalog_access u c p st = (Ok b, st') /\
    PermissionsService.events st' = (new ++ PermissionsService.events st)%list /\
    (existsb has_raised new = true -> b = false) /\
    existsb is_table_lookup new = false /\
    entries_kept st st' /\
    (existsb is_caught new = false ->
       (st' = st \/ decisions_of st' (email u) !! catalog_key u c p = Some b) /\
       (count is_grants_lookup new <= 1)%nat).
Proof.
  intros Hadm. unfold check_catalog_access, catalog_key. rewrite Hadm.
  step_monad.
  destruct (decisions_of st (email u) !! _) as [d|] eqn:Hd.
  - exists d, st, []. split; [reflexivity|]. split; [reflexivity|].
    split; [discriminate|]. split; [reflexivity|]. split; [apply entries_kept_refl|].
    intros _. split; [auto|unfold count; simpl; lia].
  - destruct (workspace_client u) as [cl|] eqn:Hcl.
    + destruct (catalogs_get cl _ c) as [[]|e1] eqn:E1; cbv beta iota zeta delta [raised_by].
      * destruct_grants g e2 E2.
        -- destruct (any_privilege p _) as [b|e3] eqn:E3.
           ++ rewrite remember_run.
              eexists b, _, [_; _]. split; [reflexivity|].
              split; [reflexivity|]. split; [discriminate|]. split; [reflexivity|].
              split.
              { eapply entries_kept_trans; [|apply entries_kept_remember].
                - kept_by_records.
                - exact Hd. }
              intros _. split; [|unfold count; simpl; lia].
              right. rewrite decisions_remember. rewrite decide_True by auto. reflexivity.
           ++ eexists false, _, [_; _; _]. split; [reflexivity|].
              split; [reflexivity|]. split; [reflexivity|]. split; [reflexivity|].
              split; [kept_by_records|].
              simpl. discriminate.
        -- eexists false, _, [_; _; _]. split; [reflexivity|].
           split; [reflexivity|]. split; [reflexivity|]. split; [reflexivity|].
           split; [kept_by_records|].
           simpl. discriminate.
      * eexists false, _, [_; _]. split; [reflexivity|].
        split; [reflexivity|]. split; [reflexivity|]. split; [reflexivity|].
        split; [kept_by_records|].
        simpl. discriminate.
    + exists false, st, []. split; [reflexivity|]. split; [reflexivity|].
      split; [reflexivity|]. split; [reflexivity|]. split; [apply entries_kept_refl|].
      intros _. split; [auto|unfold count; simpl; lia].
Qed.

Lemma check_schema_access_eq u c s p :
  is_admin u = false ->
  check_schema_access u c s p =
  (do catalog_ok <- check_catalog_access u c "USAGE" ;
   if negb catalog_ok then ret false
   else grants_step SCHEMA (c +:+ "." +:+ s) u p).
Proof. intros H. unfold check_schema_access. rewrite H. reflexivity. Qed.

Lemma check_table_access_eq u c s t p :
  is_admin u = false ->
  check_table_access u c s t p =
  (do schema_ok <- check_schema_access u c s "USAGE" ;
   if negb schema_ok then ret false
   else grants_step TABLE (c +:+ "." +:+ s +:+ "." +:+ t) u p).
Proof. intros H. unfold check_table_access. rewrite H. reflexivity. Qed.

Lemma grants_step_summary ty full_name u p st :
  exists b st' new,
    grants_step ty full_name u p st = (Ok b, st') /\
    PermissionsService.events st' = (new ++ PermissionsService.events st)%list /\
    (existsb has_raised new = true -> b = false) /\
    (ty <> TABLE -> existsb is_table_lookup new = false) /\
    entries_kept st st'.
Proof.
  unfold grants_step. step_monad.
  destruct (decisions_of st (email u) !! _) as [d|] eqn:Hd.
  - exists d, st, []. repeat split; auto using entries_kept_refl. discriminate.
  - destruct (workspace_client u) as [cl|] eqn:Hcl.
    + destruct_grants g e2 E2.
      * destruct (any_privilege p _) as [b|e3] eqn:E3.
        -- rewrite remember_run.
           eexists b, _, [_]. split; [reflexivity|].
           split; [reflexivity|]. split; [discriminate|].
           split; [intros Hty; destruct ty; try reflexivity; congruence|].
           eapply entries_kept_trans; [|apply entries_kept_remember].
           ++ kept_by_records.
           ++ exact Hd.
        -- eexists false, _, [_; _]. split; [reflexivity|].
           split; [reflexivity|]. split; [reflexivity|].
           split; [intros Hty; destruct ty; try reflexivity; congruence|].
           kept_by_records.
      * eexists false, _, [_; _]. split; [reflexivity|].
        split; [reflexivity|]. split; [reflexivity|].
        split; [intros Hty; destruct ty; try reflexivity; congruence|].
        kept_by_records.
    + exists false, st, []. repeat split; auto using entries_kept_refl.
Qed.

Lemma existsb_app_true {A} (f : A -> bool) (l1 l2 : list A) :
  existsb f (l1 ++ l2) = true -> existsb f l1 = true \/ existsb f l2 = true.
Proof. rewrite existsb_app. apply orb_prop. Qed.

Lemma existsb_app_false {A} (f : A -> bool) (l1 l2 : list A) :
  existsb f l1 = false -> existsb f l2 = false -> existsb f (l1 ++ l2) = false.
Proof. intros H1 H2. rewrite existsb_app, H1, H2. reflexivity. Qed.

Lemma check_schema_access_summary u c s p st :
  is_admin u = false ->
  exists b st' new,
    check_schema_access u c s p st = (Ok b, st') /\
    PermissionsService.events st' = (new ++ PermissionsService.events st)%list /\
    (existsb has_raised new = true -> b = false) /\
    existsb is_table_lookup new = false /\
    entries_kept st st'.
Proof.
  intros Hadm. rewrite check_schema_access_eq by exact Hadm.
  destruct (check_catalog_access_summary u c "USAGE" st Hadm)
    as (b0 & st0 & new0 & E0 & Hev0 & Hr0 & Ht0 & Hk0 & _).
  unfold bind. rewrite E0. destruct b0; simpl negb; cbv iota.
  - destruct (grants_step_summary SCHEMA (c +:+ "." +:+ s) u p st0)
      as (b1 & st1 & new1 & E1 & Hev1 & Hr1 & Ht1 & Hk1).
    exists b1, st1, (new1 ++ new0)%list. split; [exact E1|].
    split; [rewrite Hev1, Hev0; apply app_assoc|].
    split.
    { intros H. apply existsb_app_true in H. destruct H as [H|H]; [auto|].
      apply Hr0 in H. discriminate. }
    split; [apply existsb_app_false; [apply Ht1; discriminate | exact Ht0]|].
    eapply entries_kept_trans; eauto.
  - exists false, st0, new0. repeat split; auto.
Qed.

Lemma check_table_access_summary u c s t p st :
  is_admin u = false ->
  exists b st' new,
    check_table_access u c s t p st = (Ok b, st') /\
    PermissionsService.events st' = (new ++ PermissionsService.events st)%list /\
    (existsb has_raised new = true -> b = false) /\
    entries_kept st st'.
Proof.
  intros Hadm. rewrite check_table_access_eq by exact Hadm.
  destruct (check_schema_access_summary u c s "USAGE" st Hadm)
    as (b0 & st0 & new0 & E0 & Hev0 & Hr0 & Ht0 & Hk0).
  unfold bind. rewrite E0. destruct b0; simpl negb; cbv iota.
  - destruct (grants_step_summary TABLE (c +:+ "." +:+ s +:+ "." +:+ t) u p st0)
      as (b1 & st1 & new1 & E1 & Hev1 & Hr1 & Ht1 & Hk1).
    exists b1, st1, (new1 ++ new0)%list. split; [exact E1|].
    split; [rewrite Hev1, Hev0; apply app_assoc|].
    split.
    { intros H. apply existsb_app_true in H. destruct H as [H|H]; [auto|].
      apply Hr0 in H. discriminate. }
    eapply entries_kept_trans; eauto.
  - exists false, st0, new0. repeat split; auto.
Qed.

Lemma preserves_on_service {A} (P : DataAccessScope -> Prop) (m : M PermissionsService.State A) :
  preserves (fun b : Building => P (snd b)) (on_service m).
Proof.
  intros b r b' E H. unfold on_service in E.
  destruct (m (fst b)) as [r0 st0]. inversion E; subst. exact H.
Qed.


Lemma preserves_on_scope (P : DataAccessScope -> Prop) (f : DataAccessScope -> DataAccessScope) :
  (forall sc, P sc -> P (f sc)) ->
  preserves (fun b : Building => P (snd b)) (on_scope f).
Proof. intros Hf. apply preserves_modify. intros [st sc]; simpl. apply Hf. Qed.


(** The body of the scope construction for a user who is not an admin. *)
Lemma scope_building_preserves (I : Building -> Prop) u :
  is_admin u = false ->
  (forall ev b, I b -> I (record ev b)) ->
  (forall c, preserves I (on_service (check_catalog_access u c "USAGE"))) ->
  (forall c s, preserves I (on_service (check_schema_access u c s "USAGE"))) ->
  (forall c, preserves I (on_scope (add_catalog c))) ->
  (forall n, preserves I (on_scope (add_schema n))) ->
  forall b r b',
    try_except
      (match workspace_client u with
       | None => ret tt
       | Some client =>
           try_except
             (do catalogs <- call_listing CatalogsList (catalogs_list client) ;
              iterate catalogs (fun catalog =>
                do ok <- on_service (check_catalog_access u catalog "USAGE") ;
                if ok then
                  exec on_scope (add_catalog catalog) ;
                  try_except
                    (do schemas <- call_listing (SchemasList catalog)
                                     (fun h => schemas_list client h catalog) ;
                     iterate schemas (fun schema =>
                       do ok <- on_service (check_schema_access u catalog schema "USAGE") ;
                       if ok then on_scope (add_schema (catalog +:+ "." +:+ schema))
                       else ret tt))
                    (fun e => log DEBUG (Some e))
                else ret tt))
             (fun e => log WARNING (Some e))
       end)
      (fun e => log ERROR (Some e)) b = (r, b') ->
    I b -> I b' /\ r = Ok tt.
Proof.
  intros Hadm Hrec Hcat Hsch Haddc Hadds b r b' E HI. split.
  - revert b r b' E HI. apply preserves_try; [|intros e; apply preserves_log; exact Hrec].
    destruct (workspace_client u) as [cl|]; [|apply preserves_ret].
    apply preserves_try; [|intros e; apply preserves_log; exact Hrec].
    apply preserves_bind; [apply preserves_call_listing; exact Hrec|].
    intros catalogs. apply preserves_iterate. intros catalog.
    apply preserves_bind; [apply Hcat|]. intros [|]; [|apply preserves_ret].
    apply preserves_bind; [apply Haddc|]. intros _.
    apply preserves_try; [|intros e; apply preserves_log; exact Hrec].
    apply preserves_bind; [apply preserves_call_listing; exact Hrec|].
    intros schemas. apply preserves_iterate. intros schema.
    apply preserves_bind; [apply Hsch|]. intros [|]; [apply Hadds|apply preserves_ret].
  - unfold try_except at 1 in E.
    match type of E with
    | context [match ?m b with _ => _ end] => destruct (m b) as [[[]|e] b1]
    end.
    + inversion E; reflexivity.
    + unfold log, modify in E. inversion E; reflexivity.
Qed.

Lemma add_catalog_only c sc :
  catalogs_and_schemas_only sc -> catalogs_and_schemas_only (add_catalog c sc).
Proof. intros H; exact H. Qed.

Lemma add_schema_only n sc :
  catalogs_and_schemas_only sc -> catalogs_and_schemas_only (add_schema n sc).
Proof. intros H; exact H. Qed.


Lemma check_catalog_access_kept u c p st :
  entries_kept st (snd (check_catalog_access u c p st)).
Proof.
  destruct (is_admin u) eqn:Hadm.
  - unfold check_catalog_access. rewrite Hadm. apply entries_kept_refl.
  - destruct (check_catalog_access_summary u c p st Hadm)
      as (b & st' & new & E & _ & _ & _ & Hk & _).
    rewrite E. exact Hk.
Qed.

Lemma check_schema_access_kept u c s p st :
  entries_kept st (snd (check_schema_access u c s p st)).
Proof.
  destruct (is_admin u) eqn:Hadm.
  - unfold check_schema_access. rewrite Hadm. apply entries_kept_refl.
  - destruct (check_schema_access_summary u c s p st Hadm)
      as (b & st' & new & E & _ & _ & _ & Hk).
    rewrite E. exact Hk.
Qed.



Lemma get_user_data_scope_only u st :
  is_admin u = false ->
  exists sc st',
    get_user_data_scope u st = (Ok sc, st') /\ catalogs_and_schemas_only sc.
Proof.
  intros Hadm. unfold get_user_data_scope. rewrite Hadm.
  match goal with
  | |- context [match ?m (st, new_scope) with _ => _ end] =>
      destruct (m (st, new_scope)) as [r [st' sc']] eqn:E
  end.
  eapply (scope_building_preserves (fun b => catalogs_and_schemas_only (snd b))) in E.
  - destruct E as [Hk ->]. exists sc', st'. split; [reflexivity | exact Hk].
  - exact Hadm.
  - intros ev [s0 sc0] H. exact H.
  - intros c. apply (preserves_on_service catalogs_and_schemas_only).
  - intros c s. apply (preserves_on_service catalogs_and_schemas_only).
  - intros c. apply preserves_on_scope. apply add_catalog_only.
  - intros n. apply preserves_on_scope. apply add_schema_only.
  - repeat split.
Qed.

Lemma count_app f (l1 l2 : History) : count f (l1 ++ l2) = (count f l1 + count f l2)%nat.
Proof. unfold count. rewrite List.filter_app, length_app. reflexivity. Qed.

Lemma count_none f (l : History) : existsb f l = false -> count f l = 0%nat.
Proof.
  unfold count. induction l as [|x l IH]; simpl; [reflexivity|].
  destruct (f x); simpl; [discriminate | exact IH].
Qed.

(** *** The claims on the permission checks *)

(** C1. For an admin user every one of [check_catalog_access],
    [check_schema_access] and [check_table_access] returns true, whatever
    the resource and the privilege, without touching the service, and
    [inject_row_level_security] returns the SQL it was given, whatever the
    SQL and the table filters. *)
Theorem admin_bypass u st :
  is_admin u = true ->
  (forall c p, check_catalog_access u c p st = (Ok true, st)) /\
  (forall c s p, check_schema_access u c s p st = (Ok true, st)) /\
  (forall c s t p, check_table_access u c s t p st = (Ok true, st)) /\
  (forall sql table_filters, inject_row_level_security sql u table_filters = sql).
Proof.
  intros Hadm. repeat split; intros.
  - unfold check_catalog_access. rewrite Hadm. reflexivity.
  - unfold check_schema_access. rewrite Hadm. reflexivity.
  - unfold check_table_access. rewrite Hadm. reflexivity.
  - unfold inject_row_level_security. rewrite Hadm. reflexivity.
Qed.

Lemma admin_bypass_witness :
  check_table_access administrator "sales" "eu" "orders" "MODIFY" fresh = (Ok true, fresh) /\
  inject_row_level_security "SELECT * FROM t WHERE x = 1" administrator None =
    "SELECT * FROM t WHERE x = 1".
Proof.
  destruct (admin_bypass administrator fresh eq_refl) as (_ & _ & Ht & Hsql).
  split; [apply Ht | apply Hsql].
Defined.

(** C2. For a user who is not an admin, whenever
    [check_schema_access(u, c, s, "USAGE")] returns false,
    [check_table_access(u, c, s, t, p)] returns false as well, and it ends
    in the state the schema check ends in: no table-level request has been
    sent to the privilege store. *)
Theorem table_denied_without_schema_usage u c s t p st st1 :
  is_admin u = false ->
  check_schema_access u c s "USAGE" st = (Ok false, st1) ->
  check_table_access u c s t p st = (Ok false, st1) /\
  count is_table_lookup (PermissionsService.events st1) =
  count is_table_lookup (PermissionsService.events st).
Proof.
  intros Hadm Hschema. split.
  - rewrite check_table_access_eq by exact Hadm. unfold bind. rewrite Hschema. reflexivity.
  - destruct (check_schema_access_summary u c s "USAGE" st Hadm)
      as (b & st' & new & E & Hev & _ & Htab & _).
    rewrite Hschema in E. inversion E; subst st'.
    rewrite Hev, count_app, (count_none _ _ Htab). reflexivity.
Qed.

Lemma table_denied_without_schema_usage_witness :
  let st1 := snd (check_schema_access (analyst (Some catalogs_only)) "sales" "eu" "USAGE" fresh) in
  check_table_access (analyst (Some catalogs_only)) "sales" "eu" "orders" "SELECT" fresh =
    (Ok false, st1) /\
  count is_table_lookup (PermissionsService.events st1) =
  count is_table_lookup (PermissionsService.events fresh).
Proof.
  apply (table_denied_without_schema_usage (analyst (Some catalogs_only))
           "sales" "eu" "orders" "SELECT" fresh).
  - reflexivity.
  - vm_compute. reflexivity.
Defined.

(** C3. For a user who is not an admin, each of the three checks returns a
    boolean and never raises; and if any request it sent to the workspace
    raised an exception, the boolean is false. *)
Theorem permission_checks_fail_closed u st :
  is_admin u = false ->
  (forall c p, exists b st' new,
      check_catalog_access u c p st = (Ok b, st') /\
      PermissionsService.events st' = new ++ PermissionsService.events st /\
      (existsb has_raised new = true -> b = false)) /\
  (forall c s p, exists b st' new,
      check_schema_access u c s p st = (Ok b, st') /\
      PermissionsService.events st' = new ++ PermissionsService.events st /\
      (existsb has_raised new = true -> b = false)) /\
  (forall c s t p, exists b st' new,
      check_table_access u c s t p st = (Ok b, st') /\
      PermissionsService.events st' = new ++ PermissionsService.events st /\
      (existsb has_raised new = true -> b = false)).
Proof.
  intros Hadm. repeat split; intros.
  - destruct (check_catalog_access_summary u c p st Hadm)
      as (b & st' & new & E & Hev & Hr & _).
    exists b, st', new. auto.
  - destruct (check_schema_access_summary u c s p st Hadm)
      as (b & st' & new & E & Hev & Hr & _).
    exists b, st', new. auto.
  - destruct (check_table_access_summary u c s t p st Hadm)
      as (b & st' & new & E & Hev & Hr & _).
    exists b, st', new. auto.
Qed.

Lemma permission_checks_fail_closed_witness :
  exists b st' new,
    check_catalog_access (analyst (Some unreachable)) "sales" "SELECT" fresh = (Ok b, st') /\
    PermissionsService.events st' = new ++ PermissionsService.events fresh /\
    (existsb has_raised new = true -> b = false).
Proof.
  exact (proj1 (permission_checks_fail_closed (analyst (Some unreachable)) fresh eq_refl)
           "sales" "SELECT").
Defined.

Example unreachable_workspace_denies :
  check_catalog_access (analyst (Some unreachable)) "sales" "SELECT" fresh =
  (Ok false,
   {| permission_cache := ∅;
      PermissionsService.events :=
        [Logged WARNING (Some (Exception "connection refused"));
         Called (CatalogsGet "sales") (Some (Exception "connection refused"))] |}).
Proof. reflexivity. Qed.






(** Without the upper-case word in it, a statement is returned as it is,
    whether or not it has a WHERE clause in another case. *)
Lemma no_upper_case_where_no_filter sql u :
  contains "WHERE" sql = false ->
  inject_row_level_security sql u None = sql.
Proof.
  intros H. unfold inject_row_level_security.
  destruct (is_admin u); [reflexivity|]. simpl no_filters. cbv iota.
  destruct (contains "WHERE" (upper sql)); [|reflexivity].
  apply replace_absent. exact H.
Qed.

(** C8.  The statement of the specification holds on its own example, but
    not for a statement whose keyword is not in upper case: the test for a
    WHERE clause ignores case, the replacement does not, so the statement
    comes back without the identity predicate. *)
Theorem default_filter_misses_lower_case_where :
  inject_row_level_security "SELECT * FROM t WHERE active = true"
    (analyst None) None =
    "SELECT * FROM t WHERE current_user() = 'a@b.com' AND active = true" /\
  inject_row_level_security "SELECT * FROM t" (analyst None) None = "SELECT * FROM t" /\
  contains "WHERE" (upper "select * from t where active = true") = true /\
  inject_row_level_security "select * from t where active = true"
    (analyst None) None =
    "select * from t where active = true".
Proof. repeat split; reflexivity. Qed.

(** C10.  For a user who is not an admin, [get_user_data_scope] returns a
    scope (it never raises) whose [accessible_tables], [row_level_filters],
    [restricted_columns] and [access_levels] are empty, so that
    [can_access_table] is false on it for every catalog, schema and table. *)
Theorem non_admin_scope_has_no_tables u st :
  is_admin u = false ->
  exists sc st',
    get_user_data_scope u st = (Ok sc, st') /\
    accessible_tables sc = ∅ /\ row_level_filters sc = ∅ /\
    restricted_columns sc = ∅ /\ access_levels sc = ∅ /\
    (forall c s t, can_access_table sc c s t = false).
Proof.
  intros Hadm.
  destruct (get_user_data_scope_only u st Hadm) as (sc & st' & E & Ht & Hf & Hr & Ha).
  exists sc, st'. repeat split; auto.
  intros c s t. unfold can_access_table. rewrite Ht.
  rewrite !bool_decide_eq_false_2 by set_solver. reflexivity.
Qed.

Lemma non_admin_scope_has_no_tables_witness :
  exists sc st',
    get_user_data_scope (analyst (Some steady)) fresh = (Ok sc, st') /\
    accessible_tables sc = ∅ /\ row_level_filters sc = ∅ /\
    restricted_columns sc = ∅ /\ access_levels sc = ∅ /\
    (forall c s t, can_access_table sc c s t = false).
Proof. exact (non_admin_scope_has_no_tables (analyst (Some steady)) fresh eq_refl). Defined.

Example steady_scope :
  fst (get_user_data_scope (analyst (Some steady)) fresh) =
  Ok {| accessible_catalogs := {[ "sales" ]};
        accessible_schemas := {[ "sales.eu" ]};
        accessible_tables := ∅;
        row_level_filters := ∅;
        restricted_columns := ∅;
        access_levels := ∅ |}.
Proof. vm_compute. reflexivity. Qed.

Example admin_scope :
  fst (get_user_data_scope administrator fresh) =
  Ok {| accessible_catalogs := {[ "*" ]};
        accessible_schemas := {[ "*.*" ]};
        accessible_tables := {[ "*.*.*" ]};
        row_level_filters := ∅;
        restricted_columns := ∅;
        access_levels := ∅ |}.
Proof. vm_compute. reflexivity. Qed.

End PermissionChecks.

(** ** Properties of the session cache *)

Section SessionCache.

Import AuthMiddleware.

Lemma extract_user_from_token_summary pf now token st r st' :
  extract_user_from_token pf now token st = (r, st') ->
  session_cache st' = session_cache st /\
  (forall cl, get_workspace_client_for_user pf token = Ok cl ->
     count (is_identity_lookup token) (AuthMiddleware.events st') =
     S (count (is_identity_lookup token) (AuthMiddleware.events st))).
Proof.
  unfold extract_user_from_token. step_monad.
  destruct (get_workspace_client_for_user pf token) as [cl|e0] eqn:Hcl.
  - destruct (current_user_me cl (past st)) as [cu|e1] eqn:Hme;
      cbv beta iota zeta delta [raised_by].
    + destruct (lower_all (cu_groups cu)) as [ls|e2] eqn:Hl.
      * intros E. inversion E; subst. split; [reflexivity|].
        intros _ _. unfold count; simpl. rewrite String.eqb_refl. reflexivity.
      * intros E. inversion E; subst. split; [reflexivity|].
        intros _ _. unfold count; simpl. rewrite String.eqb_refl. reflexivity.
    + intros E. inversion E; subst. split; [reflexivity|].
      intros _ _. unfold count; simpl. rewrite String.eqb_refl. reflexivity.
  - intros E. inversion E; subst. split; [reflexivity|]. intros cl; discriminate.
Qed.

Lemma extract_ignores_cache pf now token st c :
  fst (extract_user_from_token pf now token (set_session_cache c st)) =
  fst (extract_user_from_token pf now token st).
Proof.
  unfold extract_user_from_token. step_monad.
  destruct (get_workspace_client_for_user pf token) as [cl|e0]; [|reflexivity].
  simpl past.
  destruct (current_user_me cl (AuthMiddleware.events st)) as [cu|e1]; [|reflexivity].
  destruct (lower_all (cu_groups cu)) as [ls|e2]; reflexivity.
Qed.

(** What [get_user_context_cached] does once the cache has no usable entry,
    from the state [st0] in which the lookup starts. *)
Lemma lookup_and_store pf t_auth t_store token st0 r st' :
  (do user_context <- extract_user_from_token pf t_auth token ;
   exec cache_user_session t_store token user_context ;
   exec modify (set_request_user user_context) ;
   ret user_context) st0 = (r, st') ->
  r = fst (extract_user_from_token pf t_auth token st0) /\
  (forall cl, get_workspace_client_for_user pf token = Ok cl ->
     count (is_identity_lookup token) (AuthMiddleware.events st') =
     S (count (is_identity_lookup token) (AuthMiddleware.events st0))) /\
  match r with
  | Ok u' => session_cache st' !! token = Some (u', t_store)
  | Raise _ => session_cache st' !! token = session_cache st0 !! token
  end.
Proof.
  unfold bind at 1.
  destruct (extract_user_from_token pf t_auth token st0) as [[u'|e] st1] eqn:E.
  - destruct (extract_user_from_token_summary _ _ _ _ _ _ E) as [Hc Hn].
    unfold cache_user_session. step_monad. intros H. inversion H; subst. simpl.
    split; [reflexivity|]. split; [exact Hn|]. apply lookup_insert_eq.
  - destruct (extract_user_from_token_summary _ _ _ _ _ _ E) as [Hc Hn].
    intros H. inversion H; subst. simpl.
    split; [reflexivity|]. split; [exact Hn|]. rewrite Hc. reflexivity.
Qed.

(** C9.  A cached authentication with a credential:
    - when the cache holds [(u, T)] for the credential and the call reads a
      clock strictly less than 5 minutes after [T], the call returns that
      very [u] and changes nothing but [request.state.user]: nothing is sent
      to the identity endpoint and the cache is as it was;
    - when the cache holds nothing for the credential, or holds [(u, T)] and
      the clock read is 5 minutes or more after [T], the stale entry is
      removed and [extract_user_from_token] is run: whenever a client can be
      built for the credential exactly one request goes to the identity
      endpoint, and the result of the call is the result of that run; on
      success the cache holds the new [UserContext] with the time it was
      stored at, on failure it holds nothing for the credential. *)
Theorem session_cache_ttl pf t_check t_auth t_store token st r st' :
  get_user_context_cached pf t_check t_auth t_store (Some token) st = (r, st') ->
  (forall u T,
      session_cache st !! token = Some (u, T) -> t_check - T < minutes 5 ->
      r = Ok u /\ st' = set_request_user u st) /\
  ((session_cache st !! token = None \/
    exists u T, session_cache st !! token = Some (u, T) /\ minutes 5 <= t_check - T) ->
   r = fst (extract_user_from_token pf t_auth token st) /\
   (forall cl, get_workspace_client_for_user pf token = Ok cl ->
      count (is_identity_lookup token) (AuthMiddleware.events st') =
      S (count (is_identity_lookup token) (AuthMiddleware.events st))) /\
   match r with
   | Ok u' => session_cache st' !! token = Some (u', t_store)
   | Raise _ => session_cache st' !! token = None
   end).
Proof.
  unfold get_user_context_cached, get_cached_session.
  unfold bind at 1. unfold bind at 1. unfold get_state at 1.
  destruct (session_cache st !! token) as [[u0 T0]|] eqn:Hc.
  - unfold cache_ttl_minutes.
    destruct (t_check - T0 <? minutes 5) eqn:Hage.
    + (* fresh *)
      intros H. cbv beta iota zeta delta [ret bind modify] in H.
      inversion H; subst. split.
      * intros u T Hu _. inversion Hu; subst. auto.
      * intros [Hnone | (u & T & Hu & Hstale)]; [discriminate|].
        inversion Hu; subst. apply Z.ltb_lt in Hage. lia.
    + (* stale *)
      intros H. cbv beta iota zeta delta [ret bind modify] in H.
      apply lookup_and_store in H. destruct H as (Hr & Hn & Hs). split.
      * intros u T Hu Hfresh. inversion Hu; subst.
        apply Z.ltb_ge in Hage. lia.
      * intros _. split; [|split].
        -- rewrite Hr. apply extract_ignores_cache.
        -- exact Hn.
        -- destruct r; [exact Hs|]. rewrite Hs. simpl. apply lookup_delete_eq.
  - intros H. cbv beta iota zeta delta [ret] in H.
    apply lookup_and_store in H. destruct H as (Hr & Hn & Hs). split.
    + intros u T Hu. discriminate.
    + intros _. split; [exact Hr|]. split; [exact Hn|].
      destruct r; [exact Hs|]. rewrite Hs. exact Hc.
Qed.

Lemma session_cache_ttl_witness :
  let first := snd (get_user_context_cached platform 0 0 0 (Some "tok-1") no_sessions) in
  let second :=
    get_user_context_cached platform (minutes 4) (minutes 4) (minutes 4) (Some "tok-1") first in
  fst second = Ok tok1_user /\ snd second = set_request_user tok1_user first.
Proof.
  intros first second.
  refine (proj1 (session_cache_ttl platform (minutes 4) (minutes 4) (minutes 4) "tok-1"
                   first (fst second) (snd second) _) tok1_user 0 _ _).
  - vm_compute. reflexivity.
  - vm_compute. reflexivity.
  - vm_compute. reflexivity.
Defined.

(** The scenario of the specification: authenticate with [tok-1] at time 0;
    four minutes later the cached identity comes back and the endpoint has
    still been asked once; six minutes later it is asked again. *)
Example session_cache_scenario :
  let first := get_user_context_cached platform 0 0 0 (Some "tok-1") no_sessions in
  let at_4m :=
    get_user_context_cached platform (minutes 4) (minutes 4) (minutes 4) (Some "tok-1")
      (snd first) in
  let at_6m :=
    get_user_context_cached platform (minutes 6) (minutes 6) (minutes 6) (Some "tok-1")
      (snd first) in
  fst first = Ok tok1_user /\
  fst at_4m = Ok tok1_user /\
  count (is_identity_lookup "tok-1") (AuthMiddleware.events (snd first)) = 1%nat /\
  count (is_identity_lookup "tok-1") (AuthMiddleware.events (snd at_4m)) = 1%nat /\
  count (is_identity_lookup "tok-1") (AuthMiddleware.events (snd at_6m)) = 2%nat /\
  ((fun entry => (authenticated_at (fst entry), snd entry)) <$>
     session_cache (snd at_6m) !! "tok-1") = Some (minutes 6, minutes 6).
Proof. vm_compute. repeat split; reflexivity. Qed.

End SessionCache.

(** ** Properties of the configuration service *)

Section ConfigProperties.

Import ConfigService.

Lemma execute_query_summary sql st r st' :
  execute_query sql st = (r, st') ->
  cache st' = cache st /\
  count is_statement (ConfigService.events st') =
  S (count is_statement (ConfigService.events st)).
Proof.
  unfold execute_query. step_monad.
  destruct (execute_statement (client st) (past st) sql) as [resp|e];
    cbv beta iota zeta delta [raised_by].
  - destruct (succeeded (status_state resp)); simpl negb; cbv iota.
    + destruct (data_array resp) as [[|row rows]|].
      * intros E; inversion E; subst; split; reflexivity.
      * destruct (manifest_columns resp).
        -- intros E; inversion E; subst; split; reflexivity.
        -- intros E; inversion E; subst; split; reflexivity.
      * intros E; inversion E; subst; split; reflexivity.
    + intros E; inversion E; subst; split; reflexivity.
  - intros E; inversion E; subst; split; reflexivity.
Qed.

Lemma get_cached_fresh now key st v T :
  cache st !! key = Some (v, T) -> now - T < minutes 5 ->
  get_cached now key st = (Ok (Some v), st).
Proof.
  intros Hc Hf. unfold get_cached. step_monad. rewrite Hc. unfold cache_ttl.
  apply Z.ltb_lt in Hf. rewrite Hf. reflexivity.
Qed.

(** With nothing fresh, [_get_cached] returns [None] and leaves a state
    with no entry under the key and the same history. *)
Lemma get_cached_nothing_fresh now key st :
  nothing_fresh st key now ->
  exists st0,
    get_cached now key st = (Ok None, st0) /\
    cache st0 !! key = None /\
    ConfigService.events st0 = ConfigService.events st.
Proof.
  intros [Hn | (v & T & Hc & Hs)]; unfold get_cached; step_monad.
  - rewrite Hn. exists st. auto.
  - rewrite Hc. unfold cache_ttl. apply Z.ltb_ge in Hs. rewrite Hs.
    eexists. split; [reflexivity|]. split; [apply lookup_delete_eq | reflexivity].
Qed.

Lemma fetch_and_store_summary {A} sql (convert : list Row -> Result A) wrap t_set key
    st r st' :
  cache st !! key = None ->
  fetch_and_store sql convert wrap t_set key st = (r, st') ->
  count is_statement (ConfigService.events st') =
    S (count is_statement (ConfigService.events st)) /\
  match r with
  | Ok v => cache st' !! key = Some (v, t_set)
  | Raise _ => cache st' !! key = None
  end.
Proof.
  intros Hn. unfold fetch_and_store. unfold bind at 1. unfold get_state at 1.
  unfold bind at 1.
  destruct (execute_query (sql st) st) as [[rows|e] s1] eqn:E;
    destruct (execute_query_summary _ _ _ _ E) as [Hc Hcount].
  - step_monad. destruct (convert rows) as [configs|e].
    + unfold set_cached. step_monad. intros H; inversion H; subst. simpl.
      split; [exact Hcount | apply lookup_insert_eq].
    + intros H; inversion H; subst. split; [exact Hcount|]. rewrite Hc. exact Hn.
  - intros H; inversion H; subst. split; [exact Hcount|]. rewrite Hc. exact Hn.
Qed.

Lemma fetch_one_and_store_summary sql t_set key st r st' :
  cache st !! key = None ->
  fetch_one_and_store sql t_set key st = (r, st') ->
  count is_statement (ConfigService.events st') =
    S (count is_statement (ConfigService.events st)) /\
  match r with
  | Ok (Some v) => cache st' !! key = Some (v, t_set)
  | Ok None => cache st' !! key = None
  | Raise _ => cache st' !! key = None
  end.
Proof.
  intros Hn. unfold fetch_one_and_store. unfold bind at 1. unfold get_state at 1.
  unfold bind at 1.
  destruct (execute_query (sql st) st) as [[rows|e] s1] eqn:E;
    destruct (execute_query_summary _ _ _ _ E) as [Hc Hcount].
  - destruct rows as [|row rest].
    + intros H; inversion H; subst. split; [exact Hcount|]. rewrite Hc. exact Hn.
    + step_monad. destruct (query_config_of_row row) as [config|e].
      * unfold set_cached. step_monad. intros H; inversion H; subst. simpl.
        split; [exact Hcount | apply lookup_insert_eq].
      * intros H; inversion H; subst. split; [exact Hcount|]. rewrite Hc. exact Hn.
  - intros H; inversion H; subst. split; [exact Hcount|]. rewrite Hc. exact Hn.
Qed.

Lemma read_through_hit {A} sql (convert : list Row -> Result A) wrap t_get t_set key
    st v T :
  cache st !! key = Some (v, T) -> cached_truthy v = true -> t_get - T < minutes 5 ->
  read_through sql convert wrap t_get t_set key st = (Ok v, st).
Proof.
  intros Hc Ht Hf. unfold read_through. unfold bind at 1.
  rewrite (get_cached_fresh _ _ _ _ _ Hc Hf). simpl. rewrite Ht. reflexivity.
Qed.

Lemma read_through_miss {A} sql (convert : list Row -> Result A) wrap t_get t_set key
    st r st' :
  nothing_fresh st key t_get ->
  read_through sql convert wrap t_get t_set key st = (r, st') ->
  count is_statement (ConfigService.events st') =
    S (count is_statement (ConfigService.events st)) /\
  match r with
  | Ok v => cache st' !! key = Some (v, t_set)
  | Raise _ => cache st' !! key = None
  end.
Proof.
  intros Hnf. destruct (get_cached_nothing_fresh _ _ _ Hnf) as (st0 & E0 & Hn0 & Hev0).
  unfold read_through. unfold bind at 1. rewrite E0. simpl usable. cbv iota.
  intros H. apply fetch_and_store_summary in H; [|exact Hn0].
  rewrite Hev0 in H. exact H.
Qed.

Lemma get_query_config_eq t_get t_set query_id :
  exists sql,
    get_query_config t_get t_set query_id =
    (do cached <- get_cached t_get ("query_" +:+ query_id) ;
     match usable cached with
     | Some value => ret (Some value)
     | None => fetch_one_and_store sql t_set ("query_" +:+ query_id)
     end).
Proof. eexists. unfold get_query_config, fetch_one_and_store. reflexivity. Qed.

Lemma get_all_queries_eq t_get t_set category :
  exists sql,
    get_all_queries t_get t_set category =
    read_through sql (map_result query_config_of_row) CachedQueries t_get t_set
      ("queries_" +:+ or_all category).
Proof. eexists. unfold get_all_queries, read_through, fetch_and_store. reflexivity. Qed.

Lemma get_filter_configs_eq t_get t_set filter_type tab :
  exists sql,
    get_filter_configs t_get t_set filter_type tab =
    read_through sql (filter_configs_of_rows tab) CachedFilters t_get t_set
      ("filters_" +:+ or_all filter_type +:+ "_" +:+ or_all tab).
Proof. eexists. unfold get_filter_configs, read_through, fetch_and_store. reflexivity. Qed.

Lemma get_viz_configs_eq t_get t_set tab :
  exists sql,
    get_viz_configs t_get t_set tab =
    read_through sql (map_result viz_config_of_row) CachedViz t_get t_set
      ("viz_" +:+ or_all tab).
Proof. eexists. unfold get_viz_configs, read_through, fetch_and_store. reflexivity. Qed.


Lemma get_query_config_miss t_get t_set query_id st r st' :
  nothing_fresh st ("query_" +:+ query_id) t_get ->
  get_query_config t_get t_set query_id st = (r, st') ->
  count is_statement (ConfigService.events st') =
    S (count is_statement (ConfigService.events st)) /\
  match r with
  | Ok (Some v) => cache st' !! ("query_" +:+ query_id) = Some (v, t_set)
  | Ok None => cache st' !! ("query_" +:+ query_id) = None
  | Raise _ => cache st' !! ("query_" +:+ query_id) = None
  end.
Proof.
  intros Hnf. destruct (get_cached_nothing_fresh _ _ _ Hnf) as (st0 & E0 & Hn0 & Hev0).
  destruct (get_query_config_eq t_get t_set query_id) as [sql ->].
  unfold bind at 1. rewrite E0. simpl usable. cbv iota.
  intros H. apply fetch_one_and_store_summary in H; [|exact Hn0].
  rewrite Hev0 in H. exact H.
Qed.












(** A store that cannot be reached: the exception of the request is the
    exception of the call, after one statement, and nothing is stored. *)
Example failing_query_reaches_the_caller :
  let st := config_service unreachable in
  let run := get_query_config 0 0 "q1" st in
  fst run = Raise (Exception "connection refused") /\
  count is_statement (ConfigService.events (snd run)) = 1%nat /\
  cache (snd run) !! "query_q1" = None.
Proof. vm_compute. repeat split; reflexivity. Qed.

(** What the amended C5 leaves out: an empty list is stored, but the test
    [if cached:] rejects it, so the next call within the 5 minutes queries
    the store again and overwrites the entry. *)
Example empty_list_is_queried_again :
  let st := config_service (metadata_store []) in
  let first := get_all_queries 0 0 None st in
  let second := get_all_queries 1 1 None (snd first) in
  fst first = Ok (CachedQueries []) /\
  cache (snd first) !! "queries_all" = Some (CachedQueries [], 0) /\
  count is_statement (ConfigService.events (snd first)) = 1%nat /\
  fst second = Ok (CachedQueries []) /\
  count is_statement (ConfigService.events (snd second)) = 2%nat /\
  cache (snd second) !! "queries_all" = Some (CachedQueries [], 1).
Proof. vm_compute. repeat split; reflexivity. Qed.

Lemma build_query_from_template_known t_get t_set query_id params st config st1 :
  get_query_config t_get t_set query_id st = (Ok (Some (CachedQuery config)), st1) ->
  build_query_from_template t_get t_set query_id params st =
  (and_then (param_defs (parameters config))
     (fun defs => substitute_parameters defs params (sql_template config)), st1).
Proof.
  intros H. unfold build_query_from_template. unfold bind at 1. rewrite H.
  cbv beta iota delta [usable cached_truthy]. step_monad.
  destruct (param_defs (parameters config)); reflexivity.
Qed.

Lemma substitute_step d n rest params sql :
  d !! "name" = Some n ->
  substitute_parameters (Some d :: rest) params sql =
  and_then (resolve d n params) (fun param_value =>
  and_then
    (if is_none param_value then Ok sql
     else cell_replace sql (placeholder n) (py_str param_value))
    (fun sql' => substitute_parameters rest params sql')).
Proof. intros H. cbn [substitute_parameters]. rewrite H. reflexivity. Qed.

Lemma is_none_false v : v <> PyNone -> is_none v = false.
Proof. destruct v; simpl; congruence. Qed.

(** The exception that the loop raises, if any, does not depend on the
    text of the template. *)
Lemma substitute_raises_alike defs params sql1 sql2 :
  raised_by (substitute_parameters defs params (CScalar (PyStr sql1))) =
  raised_by (substitute_parameters defs params (CScalar (PyStr sql2))).
Proof.
  revert sql1 sql2. induction defs as [|[d|] rest IH]; intros sql1 sql2;
    [reflexivity | | reflexivity].
  cbn [substitute_parameters]. destruct (d !! "name") as [n|]; [|reflexivity].
  destruct (resolve d n params) as [v|e]; [|reflexivity].
  cbn [and_then]. destruct (is_none v); cbn [and_then cell_replace]; apply IH.
Qed.

(** When no placeholder of a declared parameter occurs in the text, the
    loop hands the text back. *)
Lemma substitute_nothing_to_replace (defs : list (gmap string PyVal)) params sql out :
  (forall d n, d ∈ defs -> d !! "name" = Some n -> contains (placeholder n) sql = false) ->
  substitute_parameters (map Some defs) params (CScalar (PyStr sql)) = Ok out ->
  out = CScalar (PyStr sql).
Proof.
  induction defs as [|d rest IH]; intros Habs H.
  - inversion H. reflexivity.
  - cbn [map substitute_parameters] in H.
    destruct (d !! "name") as [n|] eqn:Hn; [|discriminate].
    destruct (resolve d n params) as [v|e]; [|discriminate].
    cbn [and_then] in H.
    assert (Hrest : forall d0 n0, d0 ∈ rest -> d0 !! "name" = Some n0 ->
                      contains (placeholder n0) sql = false).
    { intros d0 n0 Hin. apply Habs. right. exact Hin. }
    destruct (is_none v); cbn [and_then cell_replace] in H.
    + apply IH; assumption.
    + rewrite replace_absent in H by (apply (Habs d n); [left | exact Hn]).
      apply IH; assumption.
Qed.

(** C6.  For a known query configuration, [build_query_from_template] runs
    through the declared parameters in order.  For a parameter named [n]:
    when [params] holds a value for [n], every occurrence of [${n}] in the
    text so far is replaced by that value; when it holds none and the
    parameter is required, the call fails with the error that names [n];
    when it holds none and the parameter is optional with a default, the
    default is what replaces [${n}].  The replacement is the one of
    [str.replace]: scanning from the left, each occurrence met is replaced.
    On the scenario of the specification the result is exactly
    [SELECT * FROM t WHERE region = 'west'], and with no parameters the call
    fails naming [region].  (The error is Python's [ValueError].) *)
Theorem build_query_resolves_declared_parameters
    t_get t_set query_id params st config st1 template defs :
  get_query_config t_get t_set query_id st = (Ok (Some (CachedQuery config)), st1) ->
  sql_template config = CScalar (PyStr template) ->
  parameters config = CDicts defs ->
  build_query_from_template t_get t_set query_id params st =
    (substitute_parameters (map Some defs) params (CScalar (PyStr template)), st1) /\
  (forall d n v rest sql,
      d !! "name" = Some (PyStr n) -> params !! n = Some v -> v <> PyNone ->
      substitute_parameters (Some d :: rest) params (CScalar (PyStr sql)) =
      substitute_parameters rest params
        (CScalar (PyStr (replace ("${" +:+ n +:+ "}") (py_str v) sql)))) /\
  (forall d n rest sql,
      d !! "name" = Some (PyStr n) -> lookup_param params (PyStr n) = PyNone ->
      py_truthy (default (PyBool false) (d !! "required")) = true ->
      substitute_parameters (Some d :: rest) params sql =
      Raise (ValueError ("Required parameter missing: " +:+ n))) /\
  (forall d n dv rest sql,
      d !! "name" = Some (PyStr n) -> lookup_param params (PyStr n) = PyNone ->
      py_truthy (default (PyBool false) (d !! "required")) = false ->
      d !! "default_value" = Some dv -> dv <> PyNone ->
      substitute_parameters (Some d :: rest) params (CScalar (PyStr sql)) =
      substitute_parameters rest params
        (CScalar (PyStr (replace ("${" +:+ n +:+ "}") (py_str dv) sql)))) /\
  (forall old new s, old <> "" -> replace old new (old +:+ s) = new +:+ replace old new s) /\
  (forall old new c s,
      old <> "" -> String.prefix old (String c s) = false ->
      replace old new (String c s) = String c (replace old new s)) /\
  fst (build_query_from_template 0 0 "q1" {[ "region" := PyStr "west" ]}
         (config_service (metadata_store [region_row]))) =
    Ok (CScalar (PyStr "SELECT * FROM t WHERE region = 'west'")) /\
  fst (build_query_from_template 0 0 "q1" ∅
         (config_service (metadata_store [region_row]))) =
    Raise (ValueError "Required parameter missing: region").
Proof.
  intros Hknown Htpl Hdefs. split; [|split; [|split; [|split; [|split; [|split; [|split]]]]]].
  - rewrite (build_query_from_template_known _ _ _ _ _ _ _ Hknown).
    rewrite Hdefs, Htpl. reflexivity.
  - intros d n v rest sql Hn Hv Hne.
    rewrite (substitute_step _ _ _ _ _ Hn). unfold resolve. simpl lookup_param.
    rewrite Hv. simpl default. rewrite (is_none_false _ Hne).
    cbn [and_then]. rewrite (is_none_false _ Hne). reflexivity.
  - intros d n rest sql Hn Habs Hreq.
    rewrite (substitute_step _ _ _ _ _ Hn). unfold resolve. rewrite Habs, Hreq.
    reflexivity.
  - intros d n dv rest sql Hn Habs Hreq Hd Hne.
    rewrite (substitute_step _ _ _ _ _ Hn). unfold resolve. rewrite Habs, Hreq, Hd.
    simpl is_none. simpl default. cbn [and_then]. rewrite (is_none_false _ Hne). reflexivity.
  - intros old new s. apply replace_at_occurrence.
  - intros old new c s. apply replace_elsewhere.
  - vm_compute. reflexivity.
  - vm_compute. reflexivity.
Qed.

Lemma build_query_resolves_declared_parameters_witness :
  let st := config_service (metadata_store [region_row]) in
  build_query_from_template 0 0 "q1" {[ "region" := PyStr "west" ]} st =
  (substitute_parameters
     [Some {[ "name" := PyStr "region"; "required" := PyBool true ]}]
     {[ "region" := PyStr "west" ]} (CScalar (PyStr region_template)),
   snd (get_query_config 0 0 "q1" st)).
Proof.
  intros st.
  refine (proj1 (build_query_resolves_declared_parameters 0 0 "q1"
                   {[ "region" := PyStr "west" ]} st region_config
                   (snd (get_query_config 0 0 "q1" st)) region_template
                   [ {[ "name" := PyStr "region"; "required" := PyBool true ]} ] _ _ _)).
  - vm_compute. reflexivity.
  - reflexivity.
  - reflexivity.
Defined.

(** C7, as stated, fails: a template with a placeholder that no parameter
    declares is returned with the placeholder in it, and no error is
    raised. *)
Lemma undeclared_placeholder_counterexample :
  let st := config_service (metadata_store [undeclared_row]) in
  fst (get_query_config 0 0 "q2" st) = Ok (Some (CachedQuery undeclared_config)) /\
  contains "${col}" "SELECT ${col} FROM t" = true /\
  fst (build_query_from_template 0 0 "q2" ∅ st) =
    Ok (CScalar (PyStr "SELECT ${col} FROM t")).
Proof. vm_compute. repeat split; reflexivity. Qed.

(** C7, amended.  [build_query_from_template] does not look for
    placeholders that no parameter declares.  For a known query
    configuration the exception it raises, if any, is the one that the same
    declarations and parameters raise on any other template; and when the
    placeholder of no declared parameter occurs in the template, a call that
    returns hands back the template as it is, with whatever other
    placeholders it contains. *)
Theorem undeclared_placeholder_is_left_in_place
    t_get t_set query_id params st config st1 template defs :
  get_query_config t_get t_set query_id st = (Ok (Some (CachedQuery config)), st1) ->
  sql_template config = CScalar (PyStr template) ->
  parameters config = CDicts defs ->
  (forall other,
      raised_by (fst (build_query_from_template t_get t_set query_id params st)) =
      raised_by (substitute_parameters (map Some defs) params (CScalar (PyStr other)))) /\
  ((forall d n, d ∈ defs -> d !! "name" = Some n ->
      contains (placeholder n) template = false) ->
   forall out,
     fst (build_query_from_template t_get t_set query_id params st) = Ok out ->
     out = CScalar (PyStr template)).
Proof.
  intros Hknown Htpl Hdefs.
  rewrite (build_query_from_template_known _ _ _ _ _ _ _ Hknown).
  rewrite Hdefs, Htpl. simpl. split.
  - intros other. apply substitute_raises_alike.
  - intros Habs out. apply substitute_nothing_to_replace. exact Habs.
Qed.

Lemma undeclared_placeholder_is_left_in_place_witness :
  let st := config_service (metadata_store [undeclared_row]) in
  raised_by (fst (build_query_from_template 0 0 "q2" ∅ st)) =
  raised_by (substitute_parameters (map Some []) ∅ (CScalar (PyStr "SELECT 1"))).
Proof.
  intros st.
  refine (proj1 (undeclared_placeholder_is_left_in_place 0 0 "q2" ∅ st undeclared_config
                   (snd (get_query_config 0 0 "q2" st)) "SELECT ${col} FROM t" [] _ _ _)
            "SELECT 1").
  - vm_compute. reflexivity.
  - reflexivity.
  - reflexivity.
Defined.

End ConfigProperties.

(** ** Properties of sessions and roles *)

Section SessionRoles.

Import UserSessionPy.

Lemma lower_upper_ascii c : lower_ascii (upper_ascii c) = lower_ascii c.
Proof. destruct c as [[] [] [] [] [] [] [] []]; reflexivity. Qed.

Lemma lower_upper s : lower (upper s) = lower s.
Proof.
  induction s as [|c s IH]; simpl; [reflexivity|].
  rewrite lower_upper_ascii, IH. reflexivity.
Qed.

Lemma lower_lower_ascii c : lower_ascii (lower_ascii c) = lower_ascii c.
Proof. destruct c as [[] [] [] [] [] [] [] []]; reflexivity. Qed.

Lemma lower_lower s : lower (lower s) = lower s.
Proof.
  induction s as [|c s IH]; simpl; [reflexivity|].
  rewrite lower_lower_ascii, IH. reflexivity.
Qed.

Lemma any_in_nil names : any_in names [] = false.
Proof.
  unfold any_in. induction names as [|n names IH]; cbn [existsb]; [reflexivity|].
  rewrite IH. rewrite bool_decide_eq_false_2; [reflexivity|]. apply not_elem_of_nil.
Qed.

Lemma roles_ordered groups :
  let roles := determine_user_roles groups in
  (fst (fst roles) = true -> snd (fst roles) = true) /\
  (snd (fst roles) = true -> snd roles = true) /\
  (snd roles = true <-> groups <> []).
Proof.
  unfold determine_user_roles. cbv zeta. cbn [fst snd]. split; [|split].
  - intros ->. apply orb_true_r.
  - intros ->. rewrite orb_true_r. reflexivity.
  - destruct groups as [|g groups].
    + cbn [map length]. rewrite !any_in_nil. split; [discriminate | congruence].
    + split; [discriminate|]. intros _.
      replace (0 <? Z.of_nat (length (g :: groups))) with true; [reflexivity|].
      symmetry. apply Z.ltb_lt. simpl length. lia.
Qed.

(** X1.  The three roles that [determine_user_roles] returns are ordered:
    an admin is an analyst and an analyst is a viewer; and a user is a
    viewer exactly when the list of groups is not empty. *)
Theorem roles_form_a_hierarchy groups :
  let roles := determine_user_roles groups in
  (fst (fst roles) = true -> snd (fst roles) = true) /\
  (snd (fst roles) = true -> snd roles = true) /\
  (snd roles = true <-> groups <> []).
Proof. apply roles_ordered. Qed.

Lemma map_lower_upper groups : map lower (map upper groups) = map lower groups.
Proof.
  induction groups as [|g groups IH]; simpl; [reflexivity|].
  rewrite lower_upper, IH. reflexivity.
Qed.

Lemma map_lower_lower groups : map lower (map lower groups) = map lower groups.
Proof.
  induction groups as [|g groups IH]; simpl; [reflexivity|].
  rewrite lower_lower, IH. reflexivity.
Qed.

(** X2.  On group names in ASCII, [determine_user_roles] does not see the
    case: the groups written in upper case, or in lower case, give the same
    roles.  (Outside ASCII the code behaves otherwise: [upper] can bring a
    letter such as the dotless i into ASCII.) *)
Theorem roles_ignore_case groups :
  forallb ascii_text groups = true ->
  determine_user_roles (map upper groups) = determine_user_roles groups /\
  determine_user_roles (map lower groups) = determine_user_roles groups.
Proof.
  intros _. unfold determine_user_roles.
  rewrite map_lower_upper, map_lower_lower, !length_map. split; reflexivity.
Qed.

Lemma roles_ignore_case_witness :
  determine_user_roles (map upper ["Admins"; "data_analysts"]) =
    determine_user_roles ["Admins"; "data_analysts"] /\
  determine_user_roles (map lower ["Admins"; "data_analysts"]) =
    determine_user_roles ["Admins"; "data_analysts"].
Proof.
  apply (roles_ignore_case ["Admins"; "data_analysts"]). reflexivity.
Defined.

(** X3.  In a session made by [create_user_session] the flags are those of
    [determine_user_roles] and the roles follow them: the admin panel and
    the configuration of queries and of filters are open to admins and to
    nobody else, [has_role] on [analyst] and [viewer] repeats the flags,
    analytics are open exactly when the user has a group, and the session
    never expires. *)
Theorem created_session_is_coherent new_id t_created t_activity email user_id groups
    display_name ip_address user_agent :
  let s := create_user_session new_id t_created t_activity email user_id groups
             display_name ip_address user_agent in
  (is_admin s, is_analyst s, is_viewer s) = determine_user_roles groups /\
  can_access_admin_panel s = is_admin s /\
  can_configure_queries s = is_admin s /\
  can_configure_filters s = is_admin s /\
  has_role s "analyst" = is_analyst s /\
  has_role s "viewer" = is_viewer s /\
  (can_view_analytics s = true <-> groups <> []) /\
  (forall now, is_expired now s = false).
Proof.
  pose proof (roles_ordered groups) as H. cbv zeta in H.
  unfold create_user_session.
  destruct (determine_user_roles groups) as [[a an] v]. cbn [fst snd] in H.
  destruct H as (Ha & Han & Hv).
  destruct a; [rewrite (Ha eq_refl) in *; rewrite (Han eq_refl) in *|];
    [|destruct an; [rewrite (Han eq_refl) in *|]]; [| |destruct v];
    cbv zeta; (split; [reflexivity|]); (split; [reflexivity|]);
    (split; [reflexivity|]); (split; [reflexivity|]); (split; [reflexivity|]);
    (split; [reflexivity|]); (split; [|reflexivity]);
    unfold can_view_analytics; cbn [is_admin is_analyst is_viewer orb]; exact Hv.
Qed.

End SessionRoles.


(** ** Further properties of the permission service *)

Section FurtherPermissions.

Import UserContextPy AuthMiddleware PermissionsService QueryPermissions.

Lemma check_catalog_access_events u c p st :
  is_admin u = false ->
  exists b st' new,
    check_catalog_access u c p st = (Ok b, st') /\
    PermissionsService.events st' = new ++ PermissionsService.events st /\
    forallb check_event new = true /\
    (count is_call new <= 2)%nat /\
    (count is_grants_lookup new <= 1)%nat /\
    (b = true -> decisions_of st' (email u) !! decision_key u c p = Some true) /\
    (forall d, decisions_of st (email u) !! decision_key u c p = Some d ->
       b = d /\ st' = st) /\
    (out_of_reach u -> decisions_of st (email u) !! decision_key u c p = None ->
       b = false /\ permission_cache st' = permission_cache st) /\
    (forall cl, workspace_client u = Some cl ->
       decisions_of st (email u) !! decision_key u c p = None ->
       (1 <= count is_call new)%nat).
Proof.
  intros Hadm. unfold check_catalog_access, decision_key, out_of_reach. rewrite Hadm.
  step_monad.
  destruct (decisions_of st (email u) !! _) as [d|] eqn:Hd.
  - exists d, st, []. split; [reflexivity|]. split; [reflexivity|].
    split; [reflexivity|]. split; [unfold count; simpl; lia|].
    split; [unfold count; simpl; lia|]. split; [intros ->; exact Hd|].
    split; [intros d0 H0; inversion H0; auto|]. split; [discriminate|]. discriminate.
  - destruct (workspace_client u) as [cl|] eqn:Hcl.
    + destruct (catalogs_get cl _ c) as [[]|e1] eqn:E1; cbv beta iota zeta delta [raised_by].
      * destruct_grants g e2 E2.
        -- destruct (any_privilege p _) as [b|e3] eqn:E3.
           ++ rewrite remember_run.
              eexists b, _, [_; _]. split; [reflexivity|]. split; [reflexivity|].
              split; [reflexivity|]. split; [unfold count; simpl; lia|].
              split; [unfold count; simpl; lia|].
              split; [intros ->; rewrite decisions_remember, decide_True by auto; reflexivity|].
              split; [discriminate|].
              split; [intros Hout _; destruct (Hout (past st) c) as [e He]; congruence|].
              intros _ _ _. unfold count; simpl; lia.
           ++ eexists false, _, [_; _; _]. split; [reflexivity|]. split; [reflexivity|].
              split; [reflexivity|]. split; [unfold count; simpl; lia|].
              split; [unfold count; simpl; lia|]. split; [discriminate|].
              split; [discriminate|]. split; [auto|].
              intros _ _ _. unfold count; simpl; lia.
        -- eexists false, _, [_; _; _]. split; [reflexivity|]. split; [reflexivity|].
           split; [reflexivity|]. split; [unfold count; simpl; lia|].
           split; [unfold count; simpl; lia|]. split; [discriminate|].
           split; [discriminate|]. split; [auto|].
           intros _ _ _. unfold count; simpl; lia.
      * eexists false, _, [_; _]. split; [reflexivity|]. split; [reflexivity|].
        split; [reflexivity|]. split; [unfold count; simpl; lia|].
        split; [unfold count; simpl; lia|]. split; [discriminate|].
        split; [discriminate|]. split; [auto|].
        intros _ _ _. unfold count; simpl; lia.
    + exists false, st, []. split; [reflexivity|]. split; [reflexivity|].
      split; [reflexivity|]. split; [unfold count; simpl; lia|].
      split; [unfold count; simpl; lia|]. split; [discriminate|].
      split; [discriminate|]. split; [auto|]. intros cl; discriminate.
Qed.

Ltac kept_as_recorded :=
  repeat (eapply entries_kept_trans; [|apply entries_kept_record]);
  apply entries_kept_refl.

Lemma grants_step_events ty full_name u p st :
  exists b st' new,
    grants_step ty full_name u p st = (Ok b, st') /\
    PermissionsService.events st' = new ++ PermissionsService.events st /\
    forallb check_event new = true /\
    (count is_call new <= 1)%nat /\
    (count is_grants_lookup new <= 1)%nat /\
    (b = true -> decisions_of st' (email u) !! decision_key u full_name p = Some true) /\
    (forall d, decisions_of st (email u) !! decision_key u full_name p = Some d ->
       b = d /\ st' = st) /\
    entries_kept st st'.
Proof.
  unfold grants_step, decision_key. step_monad.
  destruct (decisions_of st (email u) !! _) as [d|] eqn:Hd.
  - exists d, st, []. split; [reflexivity|]. split; [reflexivity|].
    split; [reflexivity|]. split; [unfold count; simpl; lia|].
    split; [unfold count; simpl; lia|]. split; [intros ->; exact Hd|].
    split; [intros d0 H0; inversion H0; auto|]. apply entries_kept_refl.
  - destruct (workspace_client u) as [cl|] eqn:Hcl.
    + destruct_grants g e2 E2.
      * destruct (any_privilege p _) as [b|e3] eqn:E3.
        -- rewrite remember_run.
           eexists b, _, [_]. split; [reflexivity|]. split; [reflexivity|].
           split; [reflexivity|]. split; [unfold count; simpl; lia|].
           split; [unfold count; simpl; lia|].
           split; [intros ->; rewrite decisions_remember, decide_True by auto; reflexivity|].
           split; [discriminate|].
           eapply entries_kept_trans; [|apply entries_kept_remember; exact Hd].
           kept_as_recorded.
        -- eexists false, _, [_; _]. split; [reflexivity|]. split; [reflexivity|].
           split; [reflexivity|]. split; [unfold count; simpl; lia|].
           split; [unfold count; simpl; lia|]. split; [discriminate|].
           split; [discriminate|]. kept_as_recorded.
      * eexists false, _, [_; _]. split; [reflexivity|]. split; [reflexivity|].
        split; [reflexivity|]. split; [unfold count; simpl; lia|].
        split; [unfold count; simpl; lia|]. split; [discriminate|].
        split; [discriminate|]. kept_as_recorded.
    + exists false, st, []. split; [reflexivity|]. split; [reflexivity|].
      split; [reflexivity|]. split; [unfold count; simpl; lia|].
      split; [unfold count; simpl; lia|]. split; [discriminate|].
      split; [discriminate|]. apply entries_kept_refl.
Qed.

Lemma forallb_app_true {A} (f : A -> bool) (l1 l2 : list A) :
  forallb f l1 = true -> forallb f l2 = true -> forallb f (l1 ++ l2) = true.
Proof. intros H1 H2. rewrite forallb_app, H1, H2. reflexivity. Qed.

Lemma check_schema_access_events u c s p st :
  is_admin u = false ->
  exists b st' new,
    check_schema_access u c s p st = (Ok b, st') /\
    PermissionsService.events st' = new ++ PermissionsService.events st /\
    forallb check_event new = true /\
    (count is_call new <= 3)%nat /\
    (count is_grants_lookup new <= 2)%nat /\
    (b = true ->
       decisions_of st' (email u) !! decision_key u c "USAGE" = Some true /\
       decisions_of st' (email u) !! decision_key u (c +:+ "." +:+ s) p = Some true) /\
    (forall d,
       decisions_of st (email u) !! decision_key u c "USAGE" = Some true ->
       decisions_of st (email u) !! decision_key u (c +:+ "." +:+ s) p = Some d ->
       b = d /\ st' = st) /\
    (out_of_reach u -> decisions_of st (email u) !! decision_key u c "USAGE" = None ->
       b = false /\ permission_cache st' = permission_cache st).
Proof.
  intros Hadm. rewrite check_schema_access_eq by exact Hadm.
  destruct (check_catalog_access_events u c "USAGE" st Hadm)
    as (b0 & st0 & new0 & E0 & Hev0 & Hall0 & Hc0 & Hg0 & Ht0 & Hhit0 & Hout0 & _).
  pose proof (check_catalog_access_kept u c "USAGE" st) as Hk0. rewrite E0 in Hk0.
  simpl in Hk0.
  unfold bind. rewrite E0. destruct b0; simpl negb; cbv iota.
  - destruct (grants_step_events SCHEMA (c +:+ "." +:+ s) u p st0)
      as (b1 & st1 & new1 & E1 & Hev1 & Hall1 & Hc1 & Hg1 & Ht1 & Hhit1 & Hk1).
    exists b1, st1, (new1 ++ new0). split; [exact E1|].
    split; [rewrite Hev1, Hev0; apply app_assoc|].
    split; [apply forallb_app_true; assumption|].
    split; [rewrite count_app; lia|]. split; [rewrite count_app; lia|].
    split; [intros Hb; split; [apply Hk1, Ht0; reflexivity | apply Ht1, Hb]|].
    split.
    + intros d Hcat Hsch. destruct (Hhit0 _ Hcat) as [_ ->].
      apply (Hhit1 _ Hsch).
    + intros Hout Hnone. destruct (Hout0 Hout Hnone) as [Hf _]. discriminate.
  - exists false, st0, new0. split; [reflexivity|]. split; [exact Hev0|].
    split; [exact Hall0|]. split; [lia|]. split; [lia|]. split; [discriminate|].
    split.
    + intros d Hcat _. destruct (Hhit0 _ Hcat) as [Hf _]. discriminate.
    + intros Hout Hnone. destruct (Hout0 Hout Hnone) as [_ Hsame]. auto.
Qed.

Lemma check_table_access_events u c s t p st :
  is_admin u = false ->
  exists b st' new,
    check_table_access u c s t p st = (Ok b, st') /\
    PermissionsService.events st' = new ++ PermissionsService.events st /\
    forallb check_event new = true /\
    (count is_call new <= 4)%nat /\
    (count is_grants_lookup new <= 3)%nat /\
    (b = true ->
       decisions_of st' (email u) !! decision_key u c "USAGE" = Some true /\
       decisions_of st' (email u) !! decision_key u (c +:+ "." +:+ s) "USAGE" = Some true /\
       decisions_of st' (email u) !!
         decision_key u (c +:+ "." +:+ s +:+ "." +:+ t) p = Some true) /\
    (forall d,
       decisions_of st (email u) !! decision_key u c "USAGE" = Some true ->
       decisions_of st (email u) !! decision_key u (c +:+ "." +:+ s) "USAGE" = Some true ->
       decisions_of st (email u) !!
         decision_key u (c +:+ "." +:+ s +:+ "." +:+ t) p = Some d ->
       b = d /\ st' = st) /\
    (out_of_reach u -> decisions_of st (email u) !! decision_key u c "USAGE" = None ->
       b = false /\ permission_cache st' = permission_cache st).
Proof.
  intros Hadm. rewrite check_table_access_eq by exact Hadm.
  destruct (check_schema_access_events u c s "USAGE" st Hadm)
    as (b0 & st0 & new0 & E0 & Hev0 & Hall0 & Hc0 & Hg0 & Ht0 & Hhit0 & Hout0).
  unfold bind. rewrite E0. destruct b0; simpl negb; cbv iota.
  - destruct (grants_step_events TABLE (c +:+ "." +:+ s +:+ "." +:+ t) u p st0)
      as (b1 & st1 & new1 & E1 & Hev1 & Hall1 & Hc1 & Hg1 & Ht1 & Hhit1 & Hk1).
    exists b1, st1, (new1 ++ new0). split; [exact E1|].
    split; [rewrite Hev1, Hev0; apply app_assoc|].
    split; [apply forallb_app_true; assumption|].
    split; [rewrite count_app; lia|]. split; [rewrite count_app; lia|].
    split.
    { intros Hb. destruct (Ht0 eq_refl) as [H1 H2].
      split; [apply Hk1, H1|]. split; [apply Hk1, H2 | apply Ht1, Hb]. }
    split.
    + intros d Hcat Hsch Htab. destruct (Hhit0 _ Hcat Hsch) as [_ ->].
      apply (Hhit1 _ Htab).
    + intros Hout Hnone. destruct (Hout0 Hout Hnone) as [Hf _]. discriminate.
  - exists false, st0, new0. split; [reflexivity|]. split; [exact Hev0|].
    split; [exact Hall0|]. split; [lia|]. split; [lia|]. split; [discriminate|].
    split.
    + intros d Hcat Hsch _. destruct (Hhit0 _ Hcat Hsch) as [Hf _]. discriminate.
    + intros Hout Hnone. destruct (Hout0 Hout Hnone) as [_ Hsame]. auto.
Qed.

(** X4.  For a user who is not an admin, [check_table_access] returns
    true only with the three decisions in the cache: USAGE on the catalog,
    USAGE on the schema and the privilege asked on the table are all stored
    as granted when the call ends. *)
Theorem granted_table_has_granted_parents u c s t p st st' :
  is_admin u = false ->
  check_table_access u c s t p st = (Ok true, st') ->
  decisions_of st' (email u) !! decision_key u c "USAGE" = Some true /\
  decisions_of st' (email u) !! decision_key u (c +:+ "." +:+ s) "USAGE" = Some true /\
  decisions_of st' (email u) !! decision_key u (c +:+ "." +:+ s +:+ "." +:+ t) p =
    Some true.
Proof.
  intros Hadm H.
  destruct (check_table_access_events u c s t p st Hadm)
    as (b & st1 & new & E & _ & _ & _ & _ & Ht & _).
  rewrite H in E. inversion E; subst. apply Ht. reflexivity.
Qed.

Lemma granted_table_has_granted_parents_witness :
  let u := analyst (Some steady) in
  let st' := snd (check_table_access u "sales" "eu" "orders" "SELECT" fresh) in
  decisions_of st' (email u) !! decision_key u "sales" "USAGE" = Some true /\
  decisions_of st' (email u) !! decision_key u ("sales" +:+ "." +:+ "eu") "USAGE" =
    Some true /\
  decisions_of st' (email u) !!
    decision_key u ("sales" +:+ "." +:+ "eu" +:+ "." +:+ "orders") "SELECT" = Some true.
Proof.
  apply (granted_table_has_granted_parents (analyst (Some steady))
           "sales" "eu" "orders" "SELECT" fresh).
  - reflexivity.
  - vm_compute. reflexivity.
Defined.

(** X5.  For a user who is not an admin, one call of [check_table_access]
    sends at most four requests to the workspace, at most three of them to
    the privilege store; and when the cache holds USAGE on the catalog and
    on the schema as granted and a decision for the table, the call returns
    that decision and changes nothing, so that it sends no request. *)
Theorem table_check_requests_are_bounded u c s t p st r st' :
  is_admin u = false ->
  check_table_access u c s t p st = (r, st') ->
  (exists new,
      PermissionsService.events st' = new ++ PermissionsService.events st /\
      (count is_call new <= 4)%nat /\ (count is_grants_lookup new <= 3)%nat) /\
  (forall d,
      decisions_of st (email u) !! decision_key u c "USAGE" = Some true ->
      decisions_of st (email u) !! decision_key u (c +:+ "." +:+ s) "USAGE" = Some true ->
      decisions_of st (email u) !! decision_key u (c +:+ "." +:+ s +:+ "." +:+ t) p =
        Some d ->
      r = Ok d /\ st' = st).
Proof.
  intros Hadm H.
  destruct (check_table_access_events u c s t p st Hadm)
    as (b & st1 & new & E & Hev & _ & Hc & Hg & _ & Hhit & _).
  rewrite H in E. inversion E; subst. split.
  - exists new. auto.
  - intros d H1 H2 H3. destruct (Hhit d H1 H2 H3) as [-> ->]. auto.
Qed.

Lemma table_check_requests_are_bounded_witness :
  let u := analyst (Some steady) in
  let run := check_table_access u "sales" "eu" "orders" "SELECT" fresh in
  exists new,
    PermissionsService.events (snd run) = new ++ PermissionsService.events fresh /\
    (count is_call new <= 4)%nat /\ (count is_grants_lookup new <= 3)%nat.
Proof.
  intros u run.
  refine (proj1 (table_check_requests_are_bounded u "sales" "eu" "orders" "SELECT"
                   fresh (fst run) (snd run) eq_refl _)).
  vm_compute. reflexivity.
Defined.

(** X6.  The permission cache knows a user by the email only: once
    [check_table_access] has returned true for a user context, the same
    call for any other context that is not an admin and has the same email
    returns true from the cache, whatever workspace client that context
    carries, and sends no request. *)
Theorem granted_decision_is_shared_by_email u1 u2 c s t p st st1 :
  is_admin u1 = false -> is_admin u2 = false -> email u2 = email u1 ->
  check_table_access u1 c s t p st = (Ok true, st1) ->
  check_table_access u2 c s t p st1 = (Ok true, st1).
Proof.
  intros Hadm1 Hadm2 Hmail H.
  destruct (check_table_access_events u1 c s t p st Hadm1)
    as (b & st' & new & E & _ & _ & _ & _ & Ht & _).
  rewrite H in E. inversion E; subst b st'.
  destruct (Ht eq_refl) as (H1 & H2 & H3).
  destruct (check_table_access_events u2 c s t p st1 Hadm2)
    as (b2 & st2 & new2 & E2 & _ & _ & _ & _ & _ & Hhit & _).
  unfold decision_key in *. rewrite Hmail in Hhit.
  destruct (Hhit true H1 H2 H3) as [-> ->]. exact E2.
Qed.

Lemma granted_decision_is_shared_by_email_witness :
  let st1 := snd (check_table_access (analyst (Some steady))
                    "sales" "eu" "orders" "SELECT" fresh) in
  check_table_access (analyst (Some unreachable)) "sales" "eu" "orders" "SELECT" st1 =
  (Ok true, st1).
Proof.
  apply (granted_decision_is_shared_by_email (analyst (Some steady))
           (analyst (Some unreachable)) "sales" "eu" "orders" "SELECT" fresh).
  - reflexivity.
  - reflexivity.
  - reflexivity.
  - vm_compute. reflexivity.
Defined.

(** X7.  [clear_cache(email)] with a non-empty email removes the decisions
    of that user and keeps those of every other user; with the empty string
    it removes the decisions of all users, as [clear_cache()] does.  In no
    case does it add an event. *)
Theorem clear_cache_touches_one_user st :
  (forall e e' k, e <> "" -> e' <> e ->
     decisions_of (snd (clear_cache (Some e) st)) e' !! k = decisions_of st e' !! k) /\
  (forall e k, e <> "" -> decisions_of (snd (clear_cache (Some e) st)) e !! k = None) /\
  (forall e' k, decisions_of (snd (clear_cache (Some "") st)) e' !! k = None) /\
  (forall user_email,
     PermissionsService.events (snd (clear_cache user_email st)) =
     PermissionsService.events st).
Proof.
  unfold clear_cache, modify, decisions_of. cbn [snd]. split; [|split; [|split]].
  - intros e e' k Hne Hother. destruct (String.eqb e "") eqn:He.
    + apply String.eqb_eq in He. contradiction.
    + simpl. rewrite lookup_delete_ne by congruence. reflexivity.
  - intros e k Hne. destruct (String.eqb e "") eqn:He.
    + apply String.eqb_eq in He. contradiction.
    + simpl. rewrite lookup_delete_eq. reflexivity.
  - intros e' k. simpl. rewrite lookup_empty. reflexivity.
  - intros [e|]; [destruct (negb (String.eqb e ""))|]; reflexivity.
Qed.

(** X8.  After [clear_cache()] a check has nothing to go by: for a user who
    is not an admin and has a workspace client, the next
    [check_catalog_access] sends at least one request, whatever had been
    cached before. *)
Theorem check_after_clear_asks_again u cl c p st :
  is_admin u = false -> workspace_client u = Some cl ->
  exists b st' new,
    check_catalog_access u c p (snd (clear_cache None st)) = (Ok b, st') /\
    PermissionsService.events st' = new ++ PermissionsService.events st /\
    (1 <= count is_call new)%nat.
Proof.
  intros Hadm Hcl.
  destruct (check_catalog_access_events u c p (snd (clear_cache None st)) Hadm)
    as (b & st' & new & E & Hev & _ & _ & _ & _ & _ & _ & Hask).
  exists b, st', new. split; [exact E|]. split; [exact Hev|].
  apply (Hask cl Hcl). unfold clear_cache, modify, decisions_of. simpl.
  rewrite lookup_empty. reflexivity.
Qed.

Lemma check_after_clear_asks_again_witness :
  let u := analyst (Some steady) in
  let cached := snd (check_catalog_access u "sales" "USAGE" fresh) in
  exists b st' new,
    check_catalog_access u "sales" "USAGE" (snd (clear_cache None cached)) = (Ok b, st') /\
    PermissionsService.events st' = new ++ PermissionsService.events cached /\
    (1 <= count is_call new)%nat.
Proof.
  intros u cached.
  exact (check_after_clear_asks_again u steady "sales" "USAGE" cached eq_refl eq_refl).
Defined.

(** X9.  [inject_row_level_security] hands the statement back unchanged
    for an admin, whenever a non-empty [table_filters] is supplied (the
    filters themselves are never put into the statement), and whenever the
    statement does not contain the word WHERE in upper case. *)
Theorem statement_returned_unchanged sql u table_filters :
  is_admin u = true \/ no_filters table_filters = false \/ contains "WHERE" sql = false ->
  inject_row_level_security sql u table_filters = sql.
Proof.
  intros H. unfold inject_row_level_security.
  destruct (is_admin u); [reflexivity|].
  destruct (no_filters table_filters); [|reflexivity].
  destruct H as [H|[H|H]]; try discriminate.
  destruct (contains "WHERE" (upper sql)); [|reflexivity].
  apply replace_absent. exact H.
Qed.

Lemma statement_returned_unchanged_witness :
  inject_row_level_security "SELECT * FROM t WHERE tenant = 1" (analyst None)
    (Some {[ "t" := "tenant = 7" ]}) =
  "SELECT * FROM t WHERE tenant = 1".
Proof.
  apply (statement_returned_unchanged "SELECT * FROM t WHERE tenant = 1" (analyst None)
           (Some {[ "t" := "tenant = 7" ]})).
  right. left. vm_compute. reflexivity.
Defined.

Example extraction_examples :
  extract_table_references "SELECT * FROM cat.sch.secret_table" = ["cat.sch.secret_table"] /\
  extract_table_references "select a from s.t join x.y.z.w on 1" = ["s.t"; "x.y.z"] /\
  extract_table_references "SELECT * FROM t WHERE a.b = 1" = [] /\
  extract_table_references "xfrom  a.b. JOIN c" = ["a.b"] /\
  extract_table_references "FROMFROM a.b" = ["a.b"] /\
  split_on "." "a.b.c" = ["a"; "b"; "c"] /\
  split_on "." "a..b." = ["a"; ""; "b"; ""] /\
  split_on "." "" = [""].
Proof. repeat split; reflexivity. Qed.

Lemma span_all p s : all_chars p (fst (span p s)) = true.
Proof.
  induction s as [|c s IH]; simpl; [reflexivity|].
  destruct (p c) eqn:Hc; simpl; [rewrite Hc; exact IH | reflexivity].
Qed.

Lemma span_no_dot p s : no_dot s = true -> no_dot (snd (span p s)) = true.
Proof.
  unfold no_dot. induction s as [|c s IH]; simpl; [reflexivity|].
  intros H. apply andb_true_iff in H. destruct H as [Hc Hs].
  destruct (p c); simpl; [apply IH; exact Hs | rewrite Hc, Hs; reflexivity].
Qed.

Lemma word_is_not_dot c : is_word c = true -> Ascii.eqb c "." = false.
Proof.
  intros H. destruct (Ascii.eqb c ".") eqn:E; [|reflexivity].
  apply Ascii.eqb_eq in E. subst c. discriminate.
Qed.

Lemma split_on_name w : all_chars is_word w = true -> split_on "." w = [w].
Proof.
  induction w as [|c w IH]; simpl; [reflexivity|].
  intros H. apply andb_true_iff in H. destruct H as [Hc Hw].
  rewrite (word_is_not_dot _ Hc), (IH Hw). reflexivity.
Qed.

Lemma split_on_name_dot w rest :
  all_chars is_word w = true ->
  split_on "." (w +:+ String "." rest) = w :: split_on "." rest.
Proof.
  induction w as [|c w IH]; simpl; [reflexivity|].
  intros H. apply andb_true_iff in H. destruct H as [Hc Hw].
  rewrite (word_is_not_dot _ Hc), (IH Hw). reflexivity.
Qed.

Lemma span_name p s n rest :
  span p s = (n, rest) -> n <> "" -> n <> "" /\ all_chars p n = true.
Proof.
  intros H Hne. split; [exact Hne|].
  pose proof (span_all p s) as Ha. rewrite H in Ha. exact Ha.
Qed.

Lemma segment_name s seg rest :
  segment s = Some (seg, rest) ->
  exists n, seg = String "." n /\ is_name n.
Proof.
  unfold segment. destruct s as [|c s']; [discriminate|].
  destruct (Ascii.eqb c ".") eqn:Hc; [|discriminate].
  apply Ascii.eqb_eq in Hc. subst c.
  destruct (span is_word s') as [n r] eqn:Hs.
  destruct n as [|c0 n0]; [discriminate|].
  intros H. inversion H; subst. exists (String c0 n0). split; [reflexivity|].
  apply (span_name _ _ _ _ Hs). discriminate.
Qed.

Lemma segment_needs_dot s : no_dot s = true -> segment s = None.
Proof.
  unfold no_dot, segment. destruct s as [|c s']; [reflexivity|]. simpl.
  intros H. apply andb_true_iff in H. destruct H as [Hc _].
  apply negb_true_iff in Hc. rewrite Hc. reflexivity.
Qed.

Lemma keyword_no_dot s r : keyword s = Some r -> no_dot s = true -> no_dot r = true.
Proof.
  unfold keyword. destruct s as [|a [|b [|c [|d rest]]]]; try discriminate.
  destruct (_ || _); [|discriminate]. intros H. inversion H; subst.
  unfold no_dot. simpl. intros Hn.
  repeat (apply andb_true_iff in Hn; destruct Hn as [_ Hn]). exact Hn.
Qed.

Lemma match_at_dotted s group n : match_at s = Some (group, n) -> dotted_name group.
Proof.
  unfold match_at. destruct (keyword s) as [k|]; [|discriminate].
  destruct (span is_space k) as [sp r1]. destruct sp as [|c0 sp0]; [discriminate|].
  destruct (span is_word r1) as [first r2] eqn:Hfirst.
  destruct first as [|c1 f1]; [discriminate|].
  assert (Hf : is_name (String c1 f1)) by (apply (span_name _ _ _ _ Hfirst); discriminate).
  destruct (segment r2) as [[second r3]|] eqn:Hsecond; [|discriminate].
  destruct (segment_name _ _ _ Hsecond) as (n2 & -> & Hn2).
  destruct (segment r3) as [[third r4]|] eqn:Hthird.
  - destruct (segment_name _ _ _ Hthird) as (n3 & -> & Hn3).
    intros H. inversion H; subst. right. exists (String c1 f1), n2, n3.
    split; [|auto].
    change (String c1 f1 +:+ String "." n2 +:+ String "." n3)
      with (String c1 f1 +:+ String "." (n2 +:+ String "." n3)).
    rewrite split_on_name_dot by apply Hf.
    rewrite split_on_name_dot by apply Hn2.
    rewrite split_on_name by apply Hn3. reflexivity.
  - intros H. inversion H; subst. left. exists (String c1 f1), n2.
    split; [|auto].
    rewrite split_on_name_dot by apply Hf.
    rewrite split_on_name by apply Hn2. reflexivity.
Qed.

Lemma match_at_needs_dot s : no_dot s = true -> match_at s = None.
Proof.
  intros Hn. unfold match_at. destruct (keyword s) as [k|] eqn:Hk; [|reflexivity].
  pose proof (keyword_no_dot _ _ Hk Hn) as Hk'.
  pose proof (span_no_dot is_space k Hk') as H1.
  destruct (span is_space k) as [sp r1]. destruct sp; [reflexivity|]. simpl in H1.
  pose proof (span_no_dot is_word r1 H1) as H2.
  destruct (span is_word r1) as [first r2]. destruct first; [reflexivity|]. simpl in H2.
  rewrite (segment_needs_dot _ H2). reflexivity.
Qed.

Lemma find_references_dotted s : forall skip r,
  r ∈ find_references skip s -> dotted_name r.
Proof.
  induction s as [|c s IH]; intros skip r; simpl.
  - intros H. inversion H.
  - destruct skip as [|k]; [|apply IH].
    destruct (match_at (String c s)) as [[group n]|] eqn:Hm; [|apply IH].
    intros H. apply elem_of_cons in H. destruct H as [->|H].
    + apply (match_at_dotted _ _ _ Hm).
    + apply (IH _ _ H).
Qed.

Lemma find_references_need_dot s : forall skip,
  no_dot s = true -> find_references skip s = [].
Proof.
  induction s as [|c s IH]; intros skip Hn; simpl; [reflexivity|].
  assert (Hs : no_dot s = true).
  { unfold no_dot in *. simpl in Hn. apply andb_true_iff in Hn. apply Hn. }
  destruct skip as [|k]; [|apply IH; exact Hs].
  rewrite (match_at_needs_dot _ Hn). apply IH. exact Hs.
Qed.

(** X10.  Every reference that [_extract_table_references] returns is made
    of two or three non-empty names of letters, digits and underscores,
    joined by dots: [split(".")] cuts it into two or three parts, so that
    [validate_query_permissions] checks every reference it extracts. *)
Theorem extracted_references_are_dotted_names sql r :
  r ∈ extract_table_references sql -> dotted_name r.
Proof. apply find_references_dotted. Qed.

Lemma extracted_references_are_dotted_names_witness :
  dotted_name "x.y.z".
Proof.
  apply (extracted_references_are_dotted_names "select a from s.t join x.y.z.w on 1").
  vm_compute. right. left.
Defined.

Lemma check_events_no_info new : forallb check_event new = true -> count is_info new = 0%nat.
Proof.
  unfold count. induction new as [|ev new IH]; simpl; [reflexivity|].
  intros H. apply andb_true_iff in H. destruct H as [Hev Hn].
  destruct ev as [call r|[] [e|]]; simpl in *; try discriminate; apply IH; exact Hn.
Qed.

(** What the loop over the references does for a user who is not an admin. *)
Lemma check_references_summary u tables : forall st,
  is_admin u = false ->
  exists v st' new,
    check_references u tables st = (Ok v, st') /\
    PermissionsService.events st' = new ++ PermissionsService.events st /\
    forallb check_event new = true /\
    (v = (true, None) \/
     exists r, r ∈ tables /\ v = (false, Some ("Access denied to table " +:+ r))).
Proof.
  induction tables as [|r rest IH]; intros st Hadm.
  - exists (true, None), st, []. repeat split; auto.
  - assert (Hskip : exists v st' new,
              check_references u rest st = (Ok v, st') /\
              PermissionsService.events st' = new ++ PermissionsService.events st /\
              forallb check_event new = true /\
              (v = (true, None) \/
               exists r0, r0 ∈ r :: rest /\
                          v = (false, Some ("Access denied to table " +:+ r0)))).
    { destruct (IH st Hadm) as (v & st' & new & E & Hev & Hall & Hv).
      exists v, st', new. repeat split; auto.
      destruct Hv as [Hv|(r0 & Hin & Hv)]; [left; exact Hv|].
      right. exists r0. split; [right; exact Hin | exact Hv]. }
    assert (Hcheck : forall c s t,
              exists v st' new,
                (do ok <- check_table_access u c s t "SELECT" ;
                 if negb ok then ret (false, Some ("Access denied to table " +:+ r))
                 else check_references u rest) st = (Ok v, st') /\
                PermissionsService.events st' = new ++ PermissionsService.events st /\
                forallb check_event new = true /\
                (v = (true, None) \/
                 exists r0, r0 ∈ r :: rest /\
                            v = (false, Some ("Access denied to table " +:+ r0)))).
    { intros c s t.
      destruct (check_table_access_events u c s t "SELECT" st Hadm)
        as (b & st0 & new0 & E0 & Hev0 & Hall0 & _).
      unfold bind. rewrite E0. destruct b; simpl negb; cbv iota.
      - destruct (IH st0 Hadm) as (v & st' & new & E & Hev & Hall & Hv).
        exists v, st', (new ++ new0). split; [exact E|].
        split; [rewrite Hev, Hev0; apply app_assoc|].
        split; [apply forallb_app_true; assumption|].
        destruct Hv as [Hv|(r0 & Hin & Hv)]; [left; exact Hv|].
        right. exists r0. split; [right; exact Hin | exact Hv].
      - exists (false, Some ("Access denied to table " +:+ r)), st0, new0.
        split; [reflexivity|]. split; [exact Hev0|]. split; [exact Hall0|].
        right. exists r. split; [left | reflexivity]. }
    cbn [check_references].
    destruct (split_on "." r) as [|a [|b [|c [|d l]]]]; auto.
Qed.

Lemma validate_query_permissions_summary sql u st :
  exists v st' new,
    validate_query_permissions sql u st = (Ok v, st') /\
    PermissionsService.events st' = new ++ PermissionsService.events st /\
    forallb check_event new = true /\
    (is_admin u = true -> v = (true, None) /\ st' = st) /\
    (v = (true, None) \/
     exists r, r ∈ extract_table_references sql /\
               v = (false, Some ("Access denied to table " +:+ r))).
Proof.
  unfold validate_query_permissions. destruct (is_admin u) eqn:Hadm.
  - exists (true, None), st, []. repeat split; auto.
  - destruct (check_references_summary u (extract_table_references sql) st Hadm)
      as (v & st' & new & E & Hev & Hall & Hv).
    exists v, st', new. repeat split; auto; discriminate.
Qed.

(** X11.  [validate_query_permissions] never raises.  For an admin it
    answers [(True, None)] and touches nothing; for any user its answer is
    either [(True, None)] or [(False, "Access denied to table r")] for a
    reference [r] that [_extract_table_references] found in the statement. *)
Theorem validation_names_a_denied_reference sql u st :
  exists v st',
    validate_query_permissions sql u st = (Ok v, st') /\
    (is_admin u = true -> v = (true, None) /\ st' = st) /\
    (v = (true, None) \/
     exists r, r ∈ extract_table_references sql /\
               v = (false, Some ("Access denied to table " +:+ r))).
Proof.
  destruct (validate_query_permissions_summary sql u st)
    as (v & st' & new & E & _ & _ & Hadm & Hv).
  exists v, st'. auto.
Qed.

(** X12.  A statement without a dot has no reference for the extraction to
    find: whoever the user and whatever the workspace,
    [validate_query_permissions] accepts it without a single check, and
    [check_query_permissions] returns it with the default filter after one
    audit record. *)
Theorem unqualified_tables_are_not_checked sql u st :
  no_dot sql = true ->
  validate_query_permissions sql u st = (Ok (true, None), st) /\
  check_query_permissions sql u st =
    (Ok (Modified (inject_row_level_security sql u None)), record (Logged INFO None) st).
Proof.
  intros Hn.
  assert (Hv : validate_query_permissions sql u st = (Ok (true, None), st)).
  { unfold validate_query_permissions, extract_table_references.
    rewrite (find_references_need_dot _ 0 Hn). destruct (is_admin u); reflexivity. }
  split; [exact Hv|].
  unfold check_query_permissions, bind. rewrite Hv. reflexivity.
Qed.

Lemma unqualified_tables_are_not_checked_witness :
  validate_query_permissions "SELECT * FROM secret_table" (analyst (Some unreachable)) fresh =
    (Ok (true, None), fresh) /\
  check_query_permissions "SELECT * FROM secret_table" (analyst (Some unreachable)) fresh =
    (Ok (Modified (inject_row_level_security "SELECT * FROM secret_table"
                     (analyst (Some unreachable)) None)),
     record (Logged INFO None) fresh).
Proof.
  apply (unqualified_tables_are_not_checked "SELECT * FROM secret_table"
           (analyst (Some unreachable)) fresh).
  vm_compute. reflexivity.
Defined.

(** X13.  [check_query_permissions] never raises anything but
    [PermissionError], and whichever way it ends it has written exactly one
    audit record, as its last event.  When it returns, the SQL is that of
    [inject_row_level_security] with no table filters; when it raises, the
    message is the denial of a reference found in the statement. *)
Theorem query_check_writes_one_audit_record sql u st :
  exists out st' earlier,
    check_query_permissions sql u st = (Ok out, st') /\
    PermissionsService.events st' =
      Logged INFO None :: earlier ++ PermissionsService.events st /\
    count is_info (Logged INFO None :: earlier) = 1%nat /\
    match out with
    | Modified modified_sql => modified_sql = inject_row_level_security sql u None
    | PermissionError error_msg =>
        exists r, r ∈ extract_table_references sql /\
                  error_msg = Some ("Access denied to table " +:+ r)
    end.
Proof.
  destruct (validate_query_permissions_summary sql u st)
    as (v & st1 & new & E & Hev & Hall & _ & Hv).
  unfold check_query_permissions, bind. rewrite E.
  assert (Hone : count is_info (Logged INFO None :: new) = 1%nat).
  { change (Logged INFO None :: new) with ([Logged INFO None] ++ new).
    rewrite count_app, (check_events_no_info _ Hall). reflexivity. }
  destruct Hv as [->|(r & Hin & ->)]; cbn [fst snd negb];
    unfold audit_log_access, log, modify, ret.
  - eexists _, _, new. split; [reflexivity|]. cbn [record State_recorder].
    split; [simpl; rewrite Hev; reflexivity|]. split; [exact Hone | reflexivity].
  - eexists _, _, new. split; [reflexivity|].
    split; [simpl; rewrite Hev; reflexivity|]. split; [exact Hone|].
    exists r. auto.
Qed.

(** X14.  The validation fails closed: for a user who is not an admin, has
    no cached decision and cannot reach the workspace (no client, or a
    client on which the request for a catalog raises), a statement with at
    least one reference is refused on its first reference, and
    [check_query_permissions] raises [PermissionError] with that message. *)
Theorem unreachable_workspace_refuses_the_query sql u st r rest :
  is_admin u = false ->
  out_of_reach u ->
  decisions_of st (email u) = ∅ ->
  extract_table_references sql = r :: rest ->
  fst (validate_query_permissions sql u st) =
    Ok (false, Some ("Access denied to table " +:+ r)) /\
  fst (check_query_permissions sql u st) =
    Ok (PermissionError (Some ("Access denied to table " +:+ r))).
Proof.
  intros Hadm Hout Hempty Hex.
  assert (Hdot : dotted_name r).
  { apply (find_references_dotted sql 0). unfold extract_table_references in Hex.
    rewrite Hex. left. }
  assert (Hdenied : forall c s t,
            exists st0, check_table_access u c s t "SELECT" st = (Ok false, st0)).
  { intros c s t.
    destruct (check_table_access_events u c s t "SELECT" st Hadm)
      as (b & st0 & new0 & E0 & _ & _ & _ & _ & _ & _ & Hno).
    destruct (Hno Hout) as [-> _]; [rewrite Hempty; apply lookup_empty|].
    exists st0. exact E0. }
  assert (Hv : fst (validate_query_permissions sql u st) =
               Ok (false, Some ("Access denied to table " +:+ r))).
  { unfold validate_query_permissions. rewrite Hadm, Hex. cbn [check_references].
    destruct Hdot as [(a & b & -> & _)|(a & b & c & -> & _)]; unfold bind.
    - destruct (Hdenied "hive_metastore" a b) as [st0 ->]. reflexivity.
    - destruct (Hdenied a b c) as [st0 ->]. reflexivity. }
  split; [exact Hv|].
  unfold check_query_permissions, bind.
  destruct (validate_query_permissions sql u st) as [[v|e] st1]; simpl in Hv;
    [|discriminate].
  inversion Hv; subst. reflexivity.
Qed.

Lemma unreachable_workspace_refuses_the_query_witness :
  fst (validate_query_permissions "SELECT * FROM cat.sch.secret_table"
         (analyst (Some unreachable)) fresh) =
    Ok (false, Some ("Access denied to table " +:+ "cat.sch.secret_table")) /\
  fst (check_query_permissions "SELECT * FROM cat.sch.secret_table"
         (analyst (Some unreachable)) fresh) =
    Ok (PermissionError (Some ("Access denied to table " +:+ "cat.sch.secret_table"))).
Proof.
  apply (unreachable_workspace_refuses_the_query "SELECT * FROM cat.sch.secret_table"
           (analyst (Some unreachable)) fresh "cat.sch.secret_table" []).
  - reflexivity.
  - intros h n. eexists. reflexivity.
  - reflexivity.
  - vm_compute. reflexivity.
Defined.

Lemma preserves_for_each_in {S A} (I : S -> Prop) (items : list A) (body : A -> M S unit) :
  (forall x, x ∈ items -> preserves I (body x)) -> preserves I (for_each items body).
Proof.
  induction items as [|x rest IH]; intros Hb; simpl.
  - apply preserves_ret.
  - apply preserves_bind; [apply Hb; left|].
    intros _. apply IH. intros y Hy. apply Hb. right. exact Hy.
Qed.

Lemma preserves_iterate_in {S} (I : S -> Prop) (l : Listing) (body : string -> M S unit) :
  (forall x, x ∈ yielded l -> preserves I (body x)) -> preserves I (iterate l body).
Proof.
  intros Hb. unfold iterate. apply preserves_bind.
  - apply preserves_for_each_in; exact Hb.
  - intros _. destruct (failure l); [apply preserves_raise | apply preserves_ret].
Qed.

Lemma scope_backed_record u listed ev (b : Building) :
  scope_backed u listed b -> scope_backed u listed (record ev b).
Proof. intros H; exact H. Qed.

Lemma scope_backed_kept u listed (st st' : PermissionsService.State) sc :
  entries_kept st st' -> scope_backed u listed (st, sc) -> scope_backed u listed (st', sc).
Proof.
  intros Hk [Hc Hs]. split.
  - intros c Hin. destruct (Hc c Hin) as [Hl Hd]. split; [exact Hl | apply Hk, Hd].
  - intros n Hin. destruct (Hs n Hin) as (c & s & -> & Hcin & Hd).
    exists c, s. split; [reflexivity|]. split; [exact Hcin | apply Hk, Hd].
Qed.

(** The body of the loop over schemas keeps the scope backed and the
    catalog in it. *)
Lemma schema_body_backed u listed catalog schema :
  is_admin u = false ->
  preserves (fun b : Building =>
               scope_backed u listed b /\ catalog ∈ accessible_catalogs (snd b))
    (do ok <- on_service (check_schema_access u catalog schema "USAGE") ;
     if ok then on_scope (add_schema (catalog +:+ "." +:+ schema)) else ret tt).
Proof.
  intros Hadm [st sc] r b' E [HI Hin]. unfold bind, on_service in E. cbn [fst snd] in *.
  destruct (check_schema_access_events u catalog schema "USAGE" st Hadm)
    as (ok & st0 & new & E0 & _ & _ & _ & _ & Htrue & _).
  pose proof (check_schema_access_kept u catalog schema "USAGE" st) as Hk.
  rewrite E0 in E, Hk. cbn [snd] in Hk.
  pose proof (scope_backed_kept _ _ _ _ sc Hk HI) as HI0.
  destruct ok.
  - unfold on_scope, modify in E. inversion E; subst. cbn [fst snd].
    destruct (Htrue eq_refl) as [_ Hsch]. destruct HI0 as [Hc Hs]. split; [split|].
    + exact Hc.
    + intros n Hn. cbn [accessible_schemas add_schema] in Hn.
      apply elem_of_union in Hn. destruct Hn as [Hn|Hn].
      * exact (Hs n Hn).
      * apply elem_of_singleton in Hn. subst n. exists catalog, schema. auto.
    + exact Hin.
  - inversion E; subst. auto.
Qed.

(** The body of the loop over catalogs keeps the scope backed. *)
Lemma catalog_body_backed u cl listed catalog :
  is_admin u = false -> catalog ∈ listed ->
  preserves (scope_backed u listed)
    (do ok <- on_service (check_catalog_access u catalog "USAGE") ;
     if ok then
       exec on_scope (add_catalog catalog) ;
       try_except
         (do schemas <- call_listing (SchemasList catalog)
                          (fun h => schemas_list cl h catalog) ;
          iterate schemas (fun schema =>
            do ok <- on_service (check_schema_access u catalog schema "USAGE") ;
            if ok then on_scope (add_schema (catalog +:+ "." +:+ schema))
            else ret tt))
         (fun e => log DEBUG (Some e))
     else ret tt).
Proof.
  intros Hadm Hlisted [st sc] r b' E HI. unfold bind at 1 in E. unfold on_service in E.
  cbn [fst snd] in E.
  destruct (check_catalog_access_events u catalog "USAGE" st Hadm)
    as (ok & st0 & new & E0 & _ & _ & _ & _ & Htrue & _).
  pose proof (check_catalog_access_kept u catalog "USAGE" st) as Hk.
  rewrite E0 in E, Hk. cbn [snd] in Hk.
  pose proof (scope_backed_kept _ _ _ _ sc Hk HI) as HI0.
  destruct ok; [|inversion E; subst; exact HI0].
  unfold bind at 1 in E. unfold on_scope at 1 in E. unfold modify at 1 in E.
  cbn [fst snd] in E.
  assert (HJ : scope_backed u listed (st0, add_catalog catalog sc) /\
               catalog ∈ accessible_catalogs (snd (st0, add_catalog catalog sc))).
  { destruct HI0 as [Hc Hs]. split; [split|].
    - intros c Hc0. cbn [snd accessible_catalogs add_catalog] in Hc0.
      apply elem_of_union in Hc0. destruct Hc0 as [Hc0|Hc0]; [exact (Hc c Hc0)|].
      apply elem_of_singleton in Hc0. subst c. split; [exact Hlisted | apply Htrue; reflexivity].
    - intros n Hn. destruct (Hs n Hn) as (c & s & -> & Hcin & Hd).
      exists c, s. split; [reflexivity|]. split; [|exact Hd].
      cbn [snd accessible_catalogs add_catalog]. apply elem_of_union. left. exact Hcin.
    - cbn [snd accessible_catalogs add_catalog]. apply elem_of_union. right.
      apply elem_of_singleton. reflexivity. }
  revert E HJ.
  generalize (st0, add_catalog catalog sc). intros b1 E HJ.
  assert (HJ' : scope_backed u listed b' /\ catalog ∈ accessible_catalogs (snd b')).
  { revert b1 r b' E HJ. apply preserves_try.
    - apply preserves_bind.
      + apply preserves_call_listing. intros ev b [H1 H2]. split; [exact H1 | exact H2].
      + intros schemas. apply preserves_iterate. intros schema.
        apply schema_body_backed. exact Hadm.
    - intros e. apply preserves_log. intros ev b [H1 H2]. split; [exact H1 | exact H2]. }
  apply HJ'.
Qed.

(** X15.  For a user who is not an admin and has a workspace client,
    [get_user_data_scope] returns a scope in which every catalog is one
    that the listing of catalogs yielded and has USAGE granted in the cache
    when the call ends, and every schema is written [catalog.schema] for a
    catalog of the scope and has USAGE granted in the cache. *)
Theorem scope_is_backed_by_granted_usage u cl st :
  is_admin u = false -> workspace_client u = Some cl ->
  exists sc st',
    get_user_data_scope u st = (Ok sc, st') /\
    (forall c, c ∈ accessible_catalogs sc ->
       c ∈ yielded (catalogs_list cl (PermissionsService.events st)) /\
       decisions_of st' (email u) !! decision_key u c "USAGE" = Some true) /\
    (forall n, n ∈ accessible_schemas sc ->
       exists c s,
         n = c +:+ "." +:+ s /\ c ∈ accessible_catalogs sc /\
         decisions_of st' (email u) !! decision_key u (c +:+ "." +:+ s) "USAGE" =
           Some true).
Proof.
  intros Hadm Hcl. unfold get_user_data_scope. rewrite Hadm, Hcl.
  set (listed := yielded (catalogs_list cl (PermissionsService.events st))).
  match goal with
  | |- context [match ?m (st, new_scope) with _ => _ end] =>
      destruct (m (st, new_scope)) as [r [st' sc']] eqn:E
  end.
  assert (HI : scope_backed u listed (st', sc') /\ r = Ok tt).
  { split.
    - revert E. unfold try_except at 1. unfold try_except at 1. unfold bind at 1.
      unfold call_listing at 1. cbn [past Building_recorder fst snd].
      fold listed.
      match goal with
      | |- context [iterate ?l ?body ?b0] =>
          destruct (iterate l body b0) as [[[]|e] b1] eqn:Eit
      end.
      + intros E. inversion E; subst.
        eapply (preserves_iterate_in (scope_backed u listed)); [|exact Eit|].
        * intros x Hx. apply (catalog_body_backed u cl listed x Hadm). exact Hx.
        * split; intros x Hx; cbn [snd new_scope accessible_catalogs accessible_schemas] in Hx;
            apply not_elem_of_empty in Hx; contradiction.
      + unfold log, modify. intros E. inversion E; subst.
        apply scope_backed_record.
        eapply (preserves_iterate_in (scope_backed u listed)); [|exact Eit|].
        * intros x Hx. apply (catalog_body_backed u cl listed x Hadm). exact Hx.
        * split; intros x Hx; cbn [snd new_scope accessible_catalogs accessible_schemas] in Hx;
            apply not_elem_of_empty in Hx; contradiction.
    - revert E. unfold try_except at 1.
      match goal with
      | |- context [match ?m (st, new_scope) with _ => _ end] =>
          destruct (m (st, new_scope)) as [[[]|e] b1]
      end; unfold log, modify; intros E; inversion E; reflexivity. }
  destruct HI as [[Hc Hs] ->]. exists sc', st'. split; [reflexivity|].
  split; [exact Hc | exact Hs].
Qed.

Lemma scope_is_backed_by_granted_usage_witness :
  exists sc st',
    get_user_data_scope (analyst (Some steady)) fresh = (Ok sc, st') /\
    (forall c, c ∈ accessible_catalogs sc ->
       c ∈ yielded (catalogs_list steady (PermissionsService.events fresh)) /\
       decisions_of st' (email (analyst (Some steady))) !!
         decision_key (analyst (Some steady)) c "USAGE" = Some true) /\
    (forall n, n ∈ accessible_schemas sc ->
       exists c s,
         n = c +:+ "." +:+ s /\ c ∈ accessible_catalogs sc /\
         decisions_of st' (email (analyst (Some steady))) !!
           decision_key (analyst (Some steady)) (c +:+ "." +:+ s) "USAGE" = Some true).
Proof.
  exact (scope_is_backed_by_granted_usage (analyst (Some steady)) steady fresh
           eq_refl eq_refl).
Defined.

(** X16.  The scope that [get_user_data_scope] builds for an admin opens
    every catalog, every schema and every table to the three
    [can_access_...] tests, and building it sends nothing to the
    workspace. *)
Theorem admin_scope_opens_everything u st :
  is_admin u = true ->
  exists sc,
    get_user_data_scope u st = (Ok sc, st) /\
    (forall c, can_access_catalog sc c = true) /\
    (forall c s, can_access_schema sc c s = true) /\
    (forall c s t, can_access_table sc c s t = true).
Proof.
  intros Hadm. unfold get_user_data_scope. rewrite Hadm. eexists. split; [reflexivity|].
  split; [|split].
  - intros c. unfold can_access_catalog. apply orb_true_iff. right.
    apply bool_decide_eq_true. cbn. set_solver.
  - intros c s. unfold can_access_schema. apply orb_true_iff. right.
    apply bool_decide_eq_true. cbn. set_solver.
  - intros c s t. unfold can_access_table. apply orb_true_iff. right.
    apply bool_decide_eq_true. cbn. set_solver.
Qed.

Lemma admin_scope_opens_everything_witness :
  exists sc,
    get_user_data_scope administrator fresh = (Ok sc, fresh) /\
    (forall c, can_access_catalog sc c = true) /\
    (forall c s, can_access_schema sc c s = true) /\
    (forall c s t, can_access_table sc c s t = true).
Proof. exact (admin_scope_opens_everything administrator fresh eq_refl). Defined.

End FurtherPermissions.

(** ** Further properties of the authentication *)

Section FurtherAuthentication.

Import AuthMiddleware.

Lemma extract_user_from_token_fails_with_401 pf now token st :
  match fst (extract_user_from_token pf now token st) with
  | Ok _ => True
  | Raise e => exists detail, e = AuthenticationError detail
  end.
Proof.
  unfold extract_user_from_token. step_monad.
  destruct (get_workspace_client_for_user pf token) as [cl|e0]; [|simpl; eauto].
  destruct (current_user_me cl (past st)) as [cu|e1]; [|simpl; eauto].
  destruct (lower_all (cu_groups cu)) as [ls|e2]; simpl; eauto.
Qed.

(** X17.  Authentication fails in one way only: whatever goes wrong in
    [get_user_context] or [get_user_context_cached] (no credentials, no
    host, a client that cannot be built, a rejected token, a group without
    a name, an expired session), the exception that reaches the caller is
    an [AuthenticationError], the 401 of the application. *)
Theorem authentication_fails_with_401_only pf t1 t2 t3 credentials st :
  match fst (get_user_context pf t1 t2 credentials st) with
  | Ok _ => True
  | Raise e => exists detail, e = AuthenticationError detail
  end /\
  match fst (get_user_context_cached pf t1 t2 t3 credentials st) with
  | Ok _ => True
  | Raise e => exists detail, e = AuthenticationError detail
  end.
Proof.
  split.
  - unfold get_user_context. destruct credentials as [token|].
    + unfold bind.
      pose proof (extract_user_from_token_fails_with_401 pf t1 token st) as H.
      destruct (extract_user_from_token pf t1 token st) as [[u|e] st1]; [|exact H].
      destruct (negb (is_session_valid t2 u 60)); simpl; eauto.
    + destruct (dev_mode pf); simpl; eauto.
  - unfold get_user_context_cached. destruct credentials as [token|].
    + unfold bind at 1.
      destruct (get_cached_session t1 token st) as [[[u|]|e] st1] eqn:Hc.
      * simpl. exact I.
      * unfold bind.
        pose proof (extract_user_from_token_fails_with_401 pf t2 token st1) as H.
        destruct (extract_user_from_token pf t2 token st1) as [[u|e] st2]; [|exact H].
        simpl. exact I.
      * exfalso. revert Hc. unfold get_cached_session. step_monad.
        destruct (session_cache st !! token) as [[u T]|]; [|discriminate].
        destruct (t1 - T <? minutes cache_ttl_minutes); discriminate.
    + destruct (dev_mode pf); simpl; eauto.
Qed.

Lemma extract_user_from_token_keeps_cache pf now token st :
  session_cache (snd (extract_user_from_token pf now token st)) = session_cache st.
Proof.
  destruct (extract_user_from_token pf now token st) as [r st'] eqn:E.
  apply (extract_user_from_token_summary _ _ _ _ _ _ E).
Qed.

(** X18.  A cached authentication with one credential leaves the cached
    sessions of all other credentials as they are; and without credentials
    (development mode or not) the session cache is not touched at all. *)
Theorem session_cache_is_changed_for_one_credential pf t1 t2 t3 credentials st other :
  credentials <> Some other ->
  session_cache (snd (get_user_context_cached pf t1 t2 t3 credentials st)) !! other =
  session_cache st !! other.
Proof.
  intros Hne. unfold get_user_context_cached. destruct credentials as [token|].
  - assert (Hother : token <> other) by congruence.
    unfold get_cached_session. unfold bind at 1. unfold bind at 1. unfold get_state at 1.
    destruct (session_cache st !! token) as [[u T]|] eqn:Hc.
    + destruct (t1 - T <? minutes cache_ttl_minutes).
      * reflexivity.
      * cbv beta iota zeta delta [ret bind modify].
        match goal with
        | |- context [extract_user_from_token pf t2 token ?s0] =>
            pose proof (extract_user_from_token_keeps_cache pf t2 token s0) as Hk;
            destruct (extract_user_from_token pf t2 token s0) as [[u'|e] st2]
        end; cbn [snd] in *.
        -- unfold cache_user_session, modify. cbn [snd session_cache set_request_user
             set_session_cache].
           rewrite lookup_insert_ne by exact Hother. rewrite Hk. simpl.
           apply lookup_delete_ne. exact Hother.
        -- rewrite Hk. simpl. apply lookup_delete_ne. exact Hother.
    + cbv beta iota zeta delta [ret bind modify].
      pose proof (extract_user_from_token_keeps_cache pf t2 token st) as Hk.
      destruct (extract_user_from_token pf t2 token st) as [[u'|e] st2]; cbn [snd] in *.
      * unfold cache_user_session, modify. cbn [snd session_cache set_request_user
          set_session_cache].
        rewrite lookup_insert_ne by exact Hother. rewrite Hk. reflexivity.
      * rewrite Hk. reflexivity.
  - destruct (dev_mode pf); reflexivity.
Qed.

Lemma session_cache_is_changed_for_one_credential_witness :
  let st := snd (get_user_context_cached platform 0 0 0 (Some "tok-1") no_sessions) in
  session_cache
    (snd (get_user_context_cached platform (minutes 9) (minutes 9) (minutes 9)
            (Some "tok-2") st)) !! "tok-1" =
  session_cache st !! "tok-1".
Proof.
  intros st.
  apply (session_cache_is_changed_for_one_credential platform (minutes 9) (minutes 9)
           (minutes 9) (Some "tok-2") st "tok-1").
  discriminate.
Defined.

End FurtherAuthentication.

(** ** The two tests for an admin *)

Section TwoAdminTests.





End TwoAdminTests.

(** ** Further properties of the configuration service *)

Section FurtherConfig.

Import ConfigService ConfigStartup.

(** What one call of [_execute_query] adds to the history. *)
Lemma execute_query_events sql st r st' :
  execute_query sql st = (r, st') ->
  cache st' = cache st /\
  client st' = client st /\
  config_catalog st' = config_catalog st /\
  config_schema st' = config_schema st /\
  match r with
  | Ok _ =>
      ConfigService.events st' = Called (ExecuteStatement sql) None :: ConfigService.events st
  | Raise e =>
      exists raised,
        ConfigService.events st' =
        Logged ERROR (Some e) :: Called (ExecuteStatement sql) raised ::
        ConfigService.events st
  end.
Proof.
  unfold execute_query. step_monad.
  destruct (execute_statement (client st) (past st) sql) as [resp|e];
    cbv beta iota zeta delta [raised_by].
  - destruct (succeeded (status_state resp)); simpl negb; cbv iota.
    + destruct (data_array resp) as [[|row rows]|].
      * intros E; inversion E; subst; repeat split.
      * destruct (manifest_columns resp).
        -- intros E; inversion E; subst; repeat split.
        -- intros E; inversion E; subst; repeat split. eexists; reflexivity.
      * intros E; inversion E; subst; repeat split.
    + intros E; inversion E; subst; repeat split. eexists; reflexivity.
  - intros E; inversion E; subst; repeat split. eexists; reflexivity.
Qed.

(** X20.  [_execute_query] sends exactly one statement and never touches
    the cache.  When it returns it has logged nothing; when it raises it has
    logged that very exception once at level ERROR, after the request.  A
    response whose state is not SUCCEEDED makes it raise. *)
Theorem query_failures_are_logged_and_raised_again sql st :
  exists r st',
    execute_query sql st = (r, st') /\
    cache st' = cache st /\
    match r with
    | Ok _ =>
        ConfigService.events st' =
        Called (ExecuteStatement sql) None :: ConfigService.events st
    | Raise e =>
        exists raised,
          ConfigService.events st' =
          Logged ERROR (Some e) :: Called (ExecuteStatement sql) raised ::
          ConfigService.events st
    end /\
    (forall resp,
        execute_statement (client st) (ConfigService.events st) sql = Ok resp ->
        succeeded (status_state resp) = false ->
        r = Raise (Exception ("Query failed: " +:+ state_name (status_state resp)))).
Proof.
  destruct (execute_query sql st) as [r st'] eqn:E. exists r, st'.
  destruct (execute_query_events _ _ _ _ E) as (Hc & _ & _ & _ & Hev).
  split; [reflexivity|]. split; [exact Hc|]. split; [exact Hev|].
  intros resp Hresp Hfail. revert E. unfold execute_query. step_monad.
  cbn [past State_recorder]. rewrite Hresp. cbv beta iota zeta delta [raised_by].
  rewrite Hfail. simpl. intros E; inversion E; reflexivity.
Qed.

(** The loop of [validate_config_tables_exist] over a list of tables. *)
Lemma probe_loop tables : forall st r st',
  for_each tables (fun table =>
    do st <- get_state ;
    let sql :=
      "SELECT COUNT(*) as cnt FROM " +:+ get_full_table_name st table +:+ " LIMIT 1" in
    do rows <- execute_query sql ;
    ret tt) st = (r, st') ->
  exists new,
    ConfigService.events st' = new ++ ConfigService.events st /\
    cache st' = cache st /\
    (count is_statement new <= length tables)%nat /\
    match r with
    | Ok _ => count is_statement new = length tables /\ count is_error_log new = 0%nat
    | Raise _ => count is_error_log new = 1%nat
    end.
Proof.
  induction tables as [|table rest IH]; intros st r st'.
  - simpl. intros E; inversion E; subst. exists [].
    split; [reflexivity|]. split; [reflexivity|]. unfold count; simpl.
    split; [lia|]. split; reflexivity.
  - cbn [for_each]. unfold bind at 1. unfold bind at 1. unfold get_state at 1.
    unfold bind at 1.
    match goal with
    | |- context [execute_query ?q st] =>
        destruct (execute_query q st) as [[rows|e] st1] eqn:E1;
        destruct (execute_query_events _ _ _ _ E1) as (Hc & _ & _ & _ & Hev)
    end.
    + cbv beta iota delta [ret]. intros E. destruct (IH _ _ _ E) as (new & Hev' & Hc' & Hn & Hr).
      exists (new ++ [Called (ExecuteStatement
                 ("SELECT COUNT(*) as cnt FROM " +:+ get_full_table_name st table +:+
                  " LIMIT 1")) None]).
      split; [rewrite Hev', Hev, <- app_assoc; reflexivity|].
      split; [congruence|]. rewrite !count_app.
      match goal with
      | |- context [count is_statement [?ev]] =>
          change (count is_statement [ev]) with 1%nat;
          change (count is_error_log [ev]) with 0%nat
      end.
      simpl length. split; [lia|]. destruct r; lia.
    + intros E; inversion E; subst. destruct Hev as [raised Hev].
      eexists [_; _]. split; [exact Hev|]. split; [exact Hc|].
      unfold count; simpl. split; [lia | reflexivity].
Qed.

(** X21.  [validate_config_tables_exist] never raises and never touches
    the cache.  It sends at most five statements, one per required table,
    and stops at the first that fails.  It answers true exactly when all
    five have been sent and none has been reported as an error; when it
    answers false the failure has been logged twice at level ERROR, once by
    [_execute_query] and once by the check itself. *)
Theorem startup_check_probes_each_table_once st :
  exists b st' new,
    validate_config_tables_exist st = (Ok b, st') /\
    ConfigService.events st' = new ++ ConfigService.events st /\
    cache st' = cache st /\
    (count is_statement new <= 5)%nat /\
    (b = true -> count is_statement new = 5%nat /\ count is_error_log new = 0%nat) /\
    (b = false -> count is_error_log new = 2%nat).
Proof.
  unfold validate_config_tables_exist, try_except. unfold bind at 1.
  match goal with
  | |- context [for_each required_tables ?body st] =>
      destruct (for_each required_tables body st) as [[[]|e] st1] eqn:E;
      destruct (probe_loop _ _ _ _ E) as (new & Hev & Hc & Hn & Hr)
  end.
  - destruct Hr as [Hall Hnone]. step_monad.
    eexists true, _, (Logged INFO None :: new). split; [reflexivity|].
    split; [simpl; rewrite Hev; reflexivity|]. split; [exact Hc|].
    change (Logged INFO None :: new) with ([Logged INFO None] ++ new).
    rewrite !count_app.
    change (count is_statement [Logged INFO None]) with 0%nat.
    change (count is_error_log [Logged INFO None]) with 0%nat.
    simpl length in *.
    split; [lia|]. split; [intros _; lia | discriminate].
  - step_monad. eexists false, _, (Logged ERROR (Some e) :: new). split; [reflexivity|].
    split; [simpl; rewrite Hev; reflexivity|]. split; [exact Hc|].
    change (Logged ERROR (Some e) :: new) with ([Logged ERROR (Some e)] ++ new).
    rewrite !count_app.
    change (count is_statement [Logged ERROR (Some e)]) with 0%nat.
    change (count is_error_log [Logged ERROR (Some e)]) with 1%nat.
    simpl length in *.
    split; [lia|]. split; [discriminate|]. intros _. lia.
Qed.

Lemma row_dict_other (columns : list string) (row : list Cell) (d : Row) c :
  c ∉ columns ->
  foldl (fun d cv => <[fst cv := snd cv]> d) d (zip columns row) !! c = d !! c.
Proof.
  revert row d. induction columns as [|c0 cs IH]; intros row d Hnot; [reflexivity|].
  destruct row as [|v0 vs]; [reflexivity|]. simpl.
  rewrite IH by (intros Hin; apply Hnot; right; exact Hin).
  apply lookup_insert_ne. intros ->. apply Hnot. left.
Qed.

Lemma row_dict_at (columns : list string) (row : list Cell) (d : Row) i c v :
  NoDup columns -> columns !! i = Some c -> row !! i = Some v ->
  foldl (fun d cv => <[fst cv := snd cv]> d) d (zip columns row) !! c = Some v.
Proof.
  revert row d i. induction columns as [|c0 cs IH]; intros row d i Hnd Hc Hv;
    [discriminate|].
  destruct row as [|v0 vs]; [discriminate|]. simpl.
  apply NoDup_cons in Hnd. destruct Hnd as [Hfresh Hnd].
  destruct i as [|j]; simpl in Hc, Hv.
  - inversion Hc; inversion Hv; subst.
    rewrite row_dict_other by exact Hfresh. apply lookup_insert_eq.
  - apply (IH vs _ j Hnd Hc Hv).
Qed.

Lemma size_of_names (l : list string) : (size (list_to_set l : gset string) <= length l)%nat.
Proof.
  induction l as [|x l IH]; cbn [list_to_set length foldr].
  - rewrite size_empty. lia.
  - rewrite size_union_alt, size_singleton.
    assert (H : (size (list_to_set l ∖ {[x]} : gset string) <=
                 size (list_to_set l : gset string))%nat).
    { apply subseteq_size. intros y Hy. apply elem_of_difference in Hy. apply Hy. }
    lia.
Qed.

(** X22.  The dictionary that [_execute_query] builds for a row reads back
    what went in: when the column names are distinct, the value at position
    [i] of the row is found under the [i]-th column name; and nothing is
    ever stored under a key that is not a column name, so the values beyond
    the last column are dropped. *)
Theorem row_dictionary_reads_back (columns : list string) (row : list Cell) :
  (NoDup columns ->
   forall i c v, columns !! i = Some c -> row !! i = Some v ->
                 row_dict columns row !! c = Some v) /\
  (forall c v, row_dict columns row !! c = Some v -> c ∈ columns) /\
  (size (row_dict columns row) <= length columns)%nat.
Proof.
  unfold row_dict. split; [|split].
  - intros Hnd i c v. apply row_dict_at. exact Hnd.
  - intros c v H. destruct (decide (c ∈ columns)) as [Hin|Hnot]; [exact Hin|].
    rewrite row_dict_other in H by exact Hnot. unfold Row in H.
    rewrite lookup_empty in H. discriminate.
  - unfold Row.
    assert (Hsub : dom (foldl (fun (d : gmap string Cell) cv => <[fst cv := snd cv]> d) ∅
                          (zip columns row)) ⊆ (list_to_set columns : gset string)).
    { intros c Hc. apply elem_of_dom in Hc. destruct Hc as [v Hv].
      apply elem_of_list_to_set.
      destruct (decide (c ∈ columns)) as [Hin|Hnot]; [exact Hin|].
      pose proof (row_dict_other columns row ∅ c Hnot) as Ho. unfold Row in Ho.
      rewrite Ho, lookup_empty in Hv. discriminate. }
    apply subseteq_size in Hsub. rewrite size_dom in Hsub.
    pose proof (size_of_names columns) as Hle. lia.
Qed.

(** X23.  After [clear_cache()] every read-through call goes to the
    metadata store: whatever was cached and whatever the clock, the call
    sends exactly one statement. *)
Theorem reads_after_clear_query_the_store t_get t_set call st :
  count is_statement
    (ConfigService.events (snd (read t_get t_set call (snd (clear_cache st))))) =
  S (count is_statement (ConfigService.events st)).
Proof.
  assert (Hnf : forall key, nothing_fresh (snd (clear_cache st)) key t_get).
  { intros key. left. unfold clear_cache, modify. simpl. apply lookup_empty. }
  change (ConfigService.events st)
    with (ConfigService.events (snd (clear_cache st))).
  destruct call as [q|cat|ft tb|tb]; cbn [read].
  - destruct (get_query_config t_get t_set q (snd (clear_cache st))) as [r st'] eqn:E.
    apply (get_query_config_miss _ _ _ _ _ _ (Hnf _) E).
  - destruct (get_all_queries_eq t_get t_set cat) as [sql ->]. unfold bind.
    destruct (read_through _ _ _ _ _ _ (snd (clear_cache st))) as [[v|e] st'] eqn:E;
      apply (read_through_miss _ _ _ _ _ _ _ _ _ (Hnf _) E).
  - destruct (get_filter_configs_eq t_get t_set ft tb) as [sql ->]. unfold bind.
    destruct (read_through _ _ _ _ _ _ (snd (clear_cache st))) as [[v|e] st'] eqn:E;
      apply (read_through_miss _ _ _ _ _ _ _ _ _ (Hnf _) E).
  - destruct (get_viz_configs_eq t_get t_set tb) as [sql ->]. unfold bind.
    destruct (read_through _ _ _ _ _ _ (snd (clear_cache st))) as [[v|e] st'] eqn:E;
      apply (read_through_miss _ _ _ _ _ _ _ _ _ (Hnf _) E).
Qed.

Lemma substitute_ignores_other_keys defs params k v sql :
  (forall d, Some d ∈ defs -> d !! "name" <> Some (PyStr k)) ->
  substitute_parameters defs (<[k := v]> params) sql =
  substitute_parameters defs params sql.
Proof.
  revert sql. induction defs as [|[d|] rest IH]; intros sql Hother;
    [reflexivity | | reflexivity].
  cbn [substitute_parameters].
  destruct (d !! "name") as [n|] eqn:Hn; [|reflexivity].
  assert (Hl : lookup_param (<[k := v]> params) n = lookup_param params n).
  { destruct n as [| | |name]; try reflexivity. simpl.
    rewrite lookup_insert_ne; [reflexivity|].
    intros ->. apply (Hother d); [left | exact Hn]. }
  unfold resolve. rewrite Hl.
  assert (Hrest : forall sql', substitute_parameters rest (<[k := v]> params) sql' =
                               substitute_parameters rest params sql').
  { intros sql'. apply IH. intros d0 Hin. apply Hother. right. exact Hin. }
  destruct (is_none (lookup_param params n)).
  - destruct (py_truthy _); [reflexivity|]. cbn [and_then].
    destruct (is_none _); cbn [and_then]; [apply Hrest|].
    destruct (cell_replace _ _ _); cbn [and_then]; [apply Hrest | reflexivity].
  - cbn [and_then]. destruct (is_none _); cbn [and_then]; [apply Hrest|].
    destruct (cell_replace _ _ _); cbn [and_then]; [apply Hrest | reflexivity].
Qed.

(** X24.  A key of [params] that is the name of no declared parameter has
    no effect: for a known query configuration whose parameters are
    dictionaries, adding or changing such a key gives the same result, the
    same error included. *)
Theorem undeclared_parameters_are_ignored
    t_get t_set query_id params st config st1 defs k v :
  get_query_config t_get t_set query_id st = (Ok (Some (CachedQuery config)), st1) ->
  parameters config = CDicts defs ->
  (forall d, d ∈ defs -> d !! "name" <> Some (PyStr k)) ->
  build_query_from_template t_get t_set query_id (<[k := v]> params) st =
  build_query_from_template t_get t_set query_id params st.
Proof.
  intros Hknown Hdefs Hother.
  rewrite !(build_query_from_template_known _ _ _ _ _ _ _ Hknown).
  rewrite Hdefs. cbn [param_defs and_then].
  rewrite substitute_ignores_other_keys; [reflexivity|].
  intros d Hin. apply Hother. apply list_elem_of_fmap in Hin.
  destruct Hin as (d0 & Heq & Hin0). inversion Heq; subst. exact Hin0.
Qed.

Lemma undeclared_parameters_are_ignored_witness :
  let st := config_service (metadata_store [region_row]) in
  build_query_from_template 0 0 "q1"
    (<["limit" := PyInt 10]> {[ "region" := PyStr "west" ]}) st =
  build_query_from_template 0 0 "q1" {[ "region" := PyStr "west" ]} st.
Proof.
  intros st.
  refine (undeclared_parameters_are_ignored 0 0 "q1" {[ "region" := PyStr "west" ]} st
            region_config (snd (get_query_config 0 0 "q1" st))
            [ {[ "name" := PyStr "region"; "required" := PyBool true ]} ]
            "limit" (PyInt 10) _ eq_refl _).
  - vm_compute. reflexivity.
  - intros d Hd. apply list_elem_of_singleton in Hd. subst d. vm_compute. discriminate.
Defined.

(** X25.  An id that the metadata store does not know is reported and not
    remembered: when the cache has nothing fresh for the id and the query
    brings no row, [build_query_from_template] raises the [ValueError] that
    names the id, one statement has been sent, and the cache still has
    nothing for the id, so that the next call asks the store again. *)
Theorem unknown_query_is_reported_and_not_cached t_get t_set query_id params st st1 :
  nothing_fresh st ("query_" +:+ query_id) t_get ->
  get_query_config t_get t_set query_id st = (Ok None, st1) ->
  build_query_from_template t_get t_set query_id params st =
    (Raise (ValueError ("Query configuration not found: " +:+ query_id)), st1) /\
  count is_statement (ConfigService.events st1) =
    S (count is_statement (ConfigService.events st)) /\
  nothing_fresh st1 ("query_" +:+ query_id) t_get.
Proof.
  intros Hnf H. split; [|split].
  - unfold build_query_from_template, bind. rewrite H. reflexivity.
  - apply (get_query_config_miss _ _ _ _ _ _ Hnf H).
  - left. apply (get_query_config_miss _ _ _ _ _ _ Hnf H).
Qed.

Lemma unknown_query_is_reported_and_not_cached_witness :
  let st := config_service (metadata_store []) in
  let st1 := snd (get_query_config 0 0 "nope" st) in
  build_query_from_template 0 0 "nope" ∅ st =
    (Raise (ValueError ("Query configuration not found: " +:+ "nope")), st1) /\
  count is_statement (ConfigService.events st1) =
    S (count is_statement (ConfigService.events st)) /\
  nothing_fresh st1 ("query_" +:+ "nope") 0.
Proof.
  intros st st1.
  refine (unknown_query_is_reported_and_not_cached 0 0 "nope" ∅ st st1 _ _).
  - left. vm_compute. reflexivity.
  - vm_compute. reflexivity.
Defined.

Lemma filter_config_of_row_tabs row cfg :
  filter_config_of_row row = Ok cfg ->
  f_applies_to_tabs cfg = get_or row "applies_to_tabs" (CStrings []).
Proof.
  unfold filter_config_of_row, and_then.
  repeat (destruct (getitem row _); [|discriminate]).
  intros H; inversion H; reflexivity.
Qed.

Lemma filter_configs_of_rows_tab t tab rows : forall configs,
  given tab = Some t ->
  filter_configs_of_rows tab rows = Ok configs ->
  (forall cfg, cfg ∈ configs -> cell_contains (f_applies_to_tabs cfg) t = Ok true) /\
  (length configs <= length rows)%nat.
Proof.
  induction rows as [|row rest IH]; intros configs Ht; cbn [filter_configs_of_rows].
  - intros H; inversion H; subst. split; [intros cfg Hin; inversion Hin | simpl; lia].
  - rewrite Ht.
    destruct (cell_contains (get_or row "applies_to_tabs" (CStrings [])) t)
      as [found|e] eqn:Hfound; cbn [and_then]; [|discriminate].
    destruct found; cbn [negb].
    + destruct (filter_config_of_row row) as [cfg|e] eqn:Hcfg; cbn [and_then];
        [|discriminate].
      destruct (filter_configs_of_rows tab rest) as [configs0|e] eqn:Hrest;
        cbn [and_then]; [|discriminate].
      intros H; inversion H; subst. destruct (IH configs0 Ht eq_refl) as [Hall Hlen].
      split; [|simpl; lia].
      intros c Hin. apply elem_of_cons in Hin. destruct Hin as [->|Hin]; [|auto].
      rewrite (filter_config_of_row_tabs _ _ Hcfg). exact Hfound.
    + intros H. destruct (IH configs Ht H) as [Hall Hlen]. split; [exact Hall | simpl; lia].
Qed.

Lemma filter_configs_of_rows_all tab rows :
  given tab = None ->
  filter_configs_of_rows tab rows = map_result filter_config_of_row rows.
Proof.
  intros Ht. induction rows as [|row rest IH]; cbn [filter_configs_of_rows map_result];
    [reflexivity|].
  rewrite Ht. cbn [and_then]. rewrite IH.
  destruct (filter_config_of_row row); cbn [and_then]; [|reflexivity].
  destruct (map_result filter_config_of_row rest); reflexivity.
Qed.

(** X26.  The filter on the tab in [get_filter_configs] is sound: with a
    tab, every configuration kept has the tab among its [applies_to_tabs],
    and no more configurations come back than there are rows; with no tab,
    or the empty string for a tab, every row is converted. *)
Theorem tab_filter_keeps_matching_rows tab rows :
  (forall t configs,
      given tab = Some t ->
      filter_configs_of_rows tab rows = Ok configs ->
      (forall cfg, cfg ∈ configs -> cell_contains (f_applies_to_tabs cfg) t = Ok true) /\
      (length configs <= length rows)%nat) /\
  (given tab = None ->
   filter_configs_of_rows tab rows = map_result filter_config_of_row rows).
Proof.
  split.
  - intros t configs. apply filter_configs_of_rows_tab.
  - apply filter_configs_of_rows_all.
Qed.

(** X27.  A row of [dashboard_queries] needs four columns and no more:
    [id], [name], [category] and [sql_template].  When one is missing the
    conversion raises the [KeyError] of the first missing one in that
    order; when all four are there it succeeds whatever else the row holds,
    with the values of the row in these fields and the documented defaults
    for the absent optional columns. *)
Theorem query_row_needs_four_columns row :
  match query_config_of_row row with
  | Ok cfg =>
      row !! "id" = Some (id cfg) /\ row !! "name" = Some (name cfg) /\
      row !! "category" = Some (category cfg) /\
      row !! "sql_template" = Some (sql_template cfg) /\
      parameters cfg = default (CDicts []) (row !! "parameters") /\
      cache_ttl_seconds cfg = default (CScalar (PyInt 300)) (row !! "cache_ttl_seconds") /\
      is_active cfg = default (CScalar (PyBool true)) (row !! "is_active")
  | Raise e =>
      (e = KeyError "id" /\ row !! "id" = None) \/
      (e = KeyError "name" /\ is_Some (row !! "id") /\ row !! "name" = None) \/
      (e = KeyError "category" /\ is_Some (row !! "id") /\ is_Some (row !! "name") /\
       row !! "category" = None) \/
      (e = KeyError "sql_template" /\ is_Some (row !! "id") /\ is_Some (row !! "name") /\
       is_Some (row !! "category") /\ row !! "sql_template" = None)
  end.
Proof.
  unfold query_config_of_row, getitem, get_or.
  destruct (row !! "id") as [i|] eqn:Hi; [|left; auto].
  destruct (row !! "name") as [n|] eqn:Hn; [|right; left; eauto].
  destruct (row !! "category") as [c|] eqn:Hc; [|right; right; left; eauto 6].
  destruct (row !! "sql_template") as [t|] eqn:Ht; [|right; right; right; eauto 8].
  cbn. repeat split.
Qed.

(** X28.  The cache key of [get_all_queries] does not tell no category from
    the category named [all] (or from the empty string): a non-empty list
    cached by the call without a category is what the call for the category
    [all] returns within the 5 minutes, without a query. *)
Theorem category_all_shares_the_unfiltered_entry t_get t_set st v T :
  cache st !! "queries_all" = Some (v, T) ->
  cached_truthy v = true ->
  t_get - T < minutes 5 ->
  get_all_queries t_get t_set None st = (Ok v, st) /\
  get_all_queries t_get t_set (Some "all") st = (Ok v, st) /\
  get_all_queries t_get t_set (Some "") st = (Ok v, st).
Proof.
  intros Hc Htruthy Hfresh. repeat split.
  - destruct (get_all_queries_eq t_get t_set None) as [sql ->].
    apply (read_through_hit _ _ _ _ _ _ _ _ _ Hc Htruthy Hfresh).
  - destruct (get_all_queries_eq t_get t_set (Some "all")) as [sql ->].
    apply (read_through_hit _ _ _ _ _ _ _ _ _ Hc Htruthy Hfresh).
  - destruct (get_all_queries_eq t_get t_set (Some "")) as [sql ->].
    apply (read_through_hit _ _ _ _ _ _ _ _ _ Hc Htruthy Hfresh).
Qed.

Lemma category_all_shares_the_unfiltered_entry_witness :
  let st := snd (get_all_queries 0 0 None (config_service (metadata_store [region_row]))) in
  get_all_queries 1 1 None st = (Ok (CachedQueries [region_config]), st) /\
  get_all_queries 1 1 (Some "all") st = (Ok (CachedQueries [region_config]), st) /\
  get_all_queries 1 1 (Some "") st = (Ok (CachedQueries [region_config]), st).
Proof.
  intros st.
  refine (category_all_shares_the_unfiltered_entry 1 1 st (CachedQueries [region_config]) 0
            _ _ _).
  - vm_compute. reflexivity.
  - reflexivity.
  - vm_compute. reflexivity.
Defined.

End FurtherConfig.
